(** * native-components: the modal, the tooltip and the confirm hyperlink

    A shallow embedding of [src/components/modal.ts] and
    [src/components/tooltip.ts] (the last revision of each class in its
    file), of the tooltip revision that keeps a [visible] flag, and of the
    part of the DOM these classes talk to: a shadow tree, inline styles,
    listener lists on event targets, and event dispatch. *)

From Stdlib Require Import Ascii String.
From stdpp Require Import base strings list gmap.

Open Scope string_scope.
Open Scope list_scope.
Set Warnings "-register-all,-clear-no-such-hyp".

Notation "x |> f" := (f x) (at level 45, left associativity, only parsing).

(** ** The DOM as the components see it *)
Module Dom.

(** A node of a (shadow) tree.  The first component of an element is its
    identity: two references are the same object iff they carry the same
    identity. *)
Inductive Node :=
| Element (nid : nat) (tagName : string)
          (attrs : list (string * string)) (childNodes : list Node)
| Text (data : string).

Fixpoint assoc {A} (k : string) (l : list (string * A)) : option A :=
  match l with
  | [] => None
  | (k', v) :: l' => if String.eqb k k' then Some v else assoc k l'
  end.

Definition node_id (n : Node) : option nat :=
  match n with Element i _ _ _ => Some i | Text _ => None end.

Definition node_tag (n : Node) : string :=
  match n with Element _ t _ _ => t | Text _ => "#text" end.

(** The selectors the components use: ["#ident"] and a bare tag name. *)
Definition matches (sel : string) (n : Node) : bool :=
  match n with
  | Text _ => false
  | Element _ tag a _ =>
      match sel with
      | String "#"%char ident =>
          match assoc "id" a with
          | Some i => String.eqb i ident
          | None => false
          end
      | _ => String.eqb tag sel
      end
  end.

(** [root.querySelector(sel)]: the first matching element among the
    descendants, in document order. *)
Fixpoint querySelectorNode (sel : string) (n : Node) : option Node :=
  if matches sel n then Some n
  else
    match n with
    | Text _ => None
    | Element _ _ _ kids =>
        (fix first (ks : list Node) : option Node :=
           match ks with
           | [] => None
           | k :: ks' =>
               match querySelectorNode sel k with
               | Some r => Some r
               | None => first ks'
               end
           end) kids
    end.

Fixpoint querySelector (sel : string) (roots : list Node) : option Node :=
  match roots with
  | [] => None
  | r :: rs =>
      match querySelectorNode sel r with
      | Some n => Some n
      | None => querySelector sel rs
      end
  end.

(** The handle a field such as [backdropElement] stores. *)
Definition queryHandle (sel : string) (roots : list Node) : option nat :=
  querySelector sel roots ≫= node_id.

(** JavaScript values that reach the callbacks ([any] in the source). *)
Inductive JsValue :=
| JNull
| JUndefined
| JBool (b : bool)
| JStr (s : string).

#[global] Instance JsValue_eq_dec : EqDecision JsValue.
Proof. solve_decision. Defined.

(** [if (v)] *)
Definition truthy (v : JsValue) : bool :=
  match v with
  | JNull | JUndefined => false
  | JBool b => b
  | JStr s => negb (String.eqb s "")
  end.

(** [a === b]: no conversion, so values of different types differ. *)
Definition strict_eq (a b : JsValue) : bool := bool_decide (a = b).

(** Assigning to [textContent]: [null] and [undefined] clear the text. *)
Definition to_text (v : JsValue) : string :=
  match v with
  | JNull | JUndefined => ""
  | JBool true => "true"
  | JBool false => "false"
  | JStr s => s
  end.

Definition opt_value (o : option string) : JsValue :=
  match o with Some s => JStr s | None => JNull end.

(** Function objects.  [M] names the methods of the class at hand. *)
Inductive Callback (M : Type) :=
| Proto (m : M)                 (* [this.m]: the method found on the prototype *)
| Bound (m : M) (serial : nat)  (* [this.m.bind(this)]: a new object per call *)
| Arrow (m : M)                 (* an arrow function, created once per instance *)
| External (k : nat).           (* a function of the host page *)
Arguments Proto {M} m.
Arguments Bound {M} m serial.
Arguments Arrow {M} m.
Arguments External {M} k.

#[global] Instance Callback_eq_dec {M} `{EqDecision M} : EqDecision (Callback M).
Proof. solve_decision. Defined.

Record Listener (M : Type) := mkListener {
  l_type : string;
  l_callback : Callback M;
  l_capture : bool
}.
Arguments mkListener {M} _ _ _.
Arguments l_type {M} _.
Arguments l_callback {M} _.
Arguments l_capture {M} _.

#[global] Instance Listener_eq_dec {M} `{EqDecision M} : EqDecision (Listener M).
Proof. solve_decision. Defined.

(** [target.addEventListener(type, cb)]: appended unless the same
    (type, callback, capture) triple is already there. *)
Definition addEventListener {M} `{EqDecision M}
    (type : string) (cb : Callback M) (ls : list (Listener M)) : list (Listener M) :=
  let l := mkListener type cb false in
  if bool_decide (l ∈ ls) then ls else ls ++ [l].

(** [target.removeEventListener(type, cb)]: drops the entry with this very
    callback object, if there is one. *)
Definition removeEventListener {M} `{EqDecision M}
    (type : string) (cb : Callback M) (ls : list (Listener M)) : list (Listener M) :=
  filter (λ l, l ≠ mkListener type cb false) ls.

Definition listening {M} (type : string) (ls : list (Listener M)) : list (Callback M) :=
  l_callback <$> filter (λ l, l_type l = type) ls.

(** The mutable part of an element: inline style and listener list. *)
Record ElState (M : Type) := mkElState {
  style : gmap string string;
  listeners : list (Listener M)
}.
Arguments mkElState {M} _ _.
Arguments style {M} _.
Arguments listeners {M} _.

Definition fresh_el {M} : ElState M := mkElState ∅ [].

Definition el_state {M} (s : gmap nat (ElState M)) (n : nat) : ElState M :=
  default fresh_el (s !! n).

(** [el.style.prop]: the empty string when the property is not set inline. *)
Definition style_get {M} (prop : string) (e : ElState M) : string :=
  default "" (style e !! prop).

Definition style_set {M} (prop value : string) (e : ElState M) : ElState M :=
  mkElState (<[prop := value]> (style e)) (listeners e).

Definition with_listeners {M} (f : list (Listener M) → list (Listener M))
    (e : ElState M) : ElState M :=
  mkElState (style e) (f (listeners e)).

(** Events. *)
Record Event := mkEvent {
  e_type : string;
  bubbles : bool;
  cancelable : bool;
  composed : bool;
  detail : option JsValue
}.

(** [new Event(type)]: every option at its default, and no payload. *)
Definition newEvent (type : string) : Event := mkEvent type false false false None.

(** The way from the target up to the root: elements with their listeners,
    and the shadow roots crossed on the way. *)
Inductive PathItem (M : Type) :=
| Ancestor (ls : list (Listener M))
| ShadowBoundary.
Arguments Ancestor {M} ls.
Arguments ShadowBoundary {M}.

(** The ancestors on the event's path, innermost first: an event that is
    not composed stops at the first shadow root. *)
Fixpoint event_path {M} (e : Event) (up : list (PathItem M)) : list (list (Listener M)) :=
  match up with
  | [] => []
  | Ancestor ls :: up' => ls :: event_path e up'
  | ShadowBoundary :: up' => if composed e then event_path e up' else []
  end.

Inductive Phase := Capturing | AtTarget | Bubbling.

#[global] Instance Phase_eq_dec : EqDecision Phase.
Proof. solve_decision. Defined.

Definition phase_listeners {M} (e : Event) (capture : bool) (ls : list (Listener M))
    : list (Callback M) :=
  l_callback <$> filter (λ l, l_type l = e_type e ∧ l_capture l = capture) ls.

(** [target.dispatchEvent(e)]: the callbacks invoked, in order, with the
    phase in which each runs. *)
Definition deliveries {M} (e : Event) (target : list (Listener M))
    (up : list (PathItem M)) : list (Phase * Callback M) :=
  let path := event_path e up in
  (pair Capturing <$> mjoin (phase_listeners e true <$> reverse path))
  ++ (pair AtTarget <$> listening (e_type e) target)
  ++ (if bubbles e
      then pair Bubbling <$> mjoin (phase_listeners e false <$> path)
      else []).

Definition ancestor_deliveries {M} (ds : list (Phase * Callback M)) : list (Callback M) :=
  snd <$> filter (λ d, d.1 ≠ AtTarget) ds.

Inductive DOMException := NotFoundError.

Inductive Completion (A : Type) :=
| Normal (a : A)
| Throw (e : DOMException).
Arguments Normal {A} a.
Arguments Throw {A} e.

(** [parent.appendChild(child)] for a child that is in no tree yet. *)
Definition appendChild (child : Node) (kids : list Node) : list Node :=
  kids ++ [child].

Definition same_node (a b : Node) : bool :=
  match node_id a, node_id b with
  | Some i, Some j => Nat.eqb i j
  | _, _ => false
  end.

Fixpoint remove_first (child : Node) (kids : list Node) : list Node :=
  match kids with
  | [] => []
  | k :: ks => if same_node child k then ks else k :: remove_first child ks
  end.

(** [parent.removeChild(child)]: fails with NotFoundError when the node is
    not a child of the parent. *)
Definition removeChild (child : Node) (kids : list Node) : Completion (list Node) :=
  if existsb (same_node child) kids
  then Normal (remove_first child kids)
  else Throw NotFoundError.

End Dom.

(** ** [class Modal extends HTMLElement] *)
Module Modal.
Import Dom.

Inductive Method := ShowModal | HideModal | CancelClick | ConfirmClick | LogSlot.

#[global] Instance ModalMethod_eq_dec : EqDecision Method.
Proof. solve_decision. Defined.

(** What is rendered for the backdrop and the panel. *)
Record Presentation := mkPresentation {
  backdrop_opacity : string;
  backdrop_pointerEvents : string;
  modal_opacity : string;
  modal_pointerEvents : string
}.

(** Ghost log of the writes and the signals an operation performs, in
    program order.  A signal carries what a listener called by it sees. *)
Inductive Effect :=
| StyleWrite (n : nat) (prop value : string)
| Dispatched (e : Event) (seen_open : bool) (seen : Presentation).

Record state := mkModal {
  backdropElement : option nat;
  modalElement : option nat;
  cancelButton : option nat;
  confirmButton : option nat;
  isOpen : bool;
  shadowRoot : option (list Node);
  attributes : gmap string string;
  lightDOM : list Node;
  elements : gmap nat (ElState Method);
  nextFn : nat;
  trace : list Effect
}.

Definition set_refs (b p c k : option nat) (m : state) : state :=
  mkModal b p c k (isOpen m) (shadowRoot m) (attributes m) (lightDOM m)
          (elements m) (nextFn m) (trace m).

Definition set_isOpen (v : bool) (m : state) : state :=
  mkModal (backdropElement m) (modalElement m) (cancelButton m) (confirmButton m)
          v (shadowRoot m) (attributes m) (lightDOM m)
          (elements m) (nextFn m) (trace m).

Definition set_attributes (a : gmap string string) (m : state) : state :=
  mkModal (backdropElement m) (modalElement m) (cancelButton m) (confirmButton m)
          (isOpen m) (shadowRoot m) a (lightDOM m)
          (elements m) (nextFn m) (trace m).

Definition set_elements (s : gmap nat (ElState Method)) (m : state) : state :=
  mkModal (backdropElement m) (modalElement m) (cancelButton m) (confirmButton m)
          (isOpen m) (shadowRoot m) (attributes m) (lightDOM m)
          s (nextFn m) (trace m).

Definition set_nextFn (n : nat) (m : state) : state :=
  mkModal (backdropElement m) (modalElement m) (cancelButton m) (confirmButton m)
          (isOpen m) (shadowRoot m) (attributes m) (lightDOM m)
          (elements m) n (trace m).

Definition log (e : Effect) (m : state) : state :=
  mkModal (backdropElement m) (modalElement m) (cancelButton m) (confirmButton m)
          (isOpen m) (shadowRoot m) (attributes m) (lightDOM m)
          (elements m) (nextFn m) (trace m ++ [e]).

Definition on_element (n : nat) (f : ElState Method → ElState Method) (m : state) : state :=
  set_elements (<[n := f (el_state (elements m) n)]> (elements m)) m.

(** [el.style.prop = value] *)
Definition write_style (n : nat) (prop value : string) (m : state) : state :=
  m |> on_element n (style_set prop value) |> log (StyleWrite n prop value).

(** The shadow tree set through [innerHTML] (white space left out). *)
Definition template : list Node :=
  [ Element 0 "style" [] [];
    Element 1 "div" [("id", "backdrop")] [];
    Element 2 "div" [("id", "modal")]
      [ Element 3 "header" [] [ Element 4 "slot" [("name", "title")] [] ];
        Element 5 "section" [("id", "main")] [ Element 6 "slot" [] [] ];
        Element 7 "section" [("id", "actions")]
          [ Element 8 "button" [("id", "cancel-button")] [Text "Cancel"];
            Element 9 "button" [("id", "confirm-button")] [Text "Confirm"] ] ] ].

(** The rules of the [<style>] element. *)
Definition stylesheet : list (string * list (string * string)) :=
  [ ("#backdrop",
     [ ("position", "fixed"); ("top", "0"); ("left", "0"); ("width", "100%");
       ("height", "100vh"); ("background", "rgba(0, 0, 0, 0.5)"); ("z-index", "2");
       ("opacity", "0"); ("pointer-events", "none") ]);
    ("#modal",
     [ ("position", "fixed"); ("top", "15vh"); ("left", "25%"); ("width", "50%");
       ("max-height", "480px"); ("z-index", "3"); ("border-radius", "16px");
       ("box-shadow", "0 2px 8px rgba(0, 0, 0, 0.26)"); ("background", "#ffffff");
       ("display", "flex"); ("flex-direction", "column");
       ("justify-content", "space-between"); ("overflow-y", "auto");
       ("opacity", "0"); ("pointer-events", "none") ]);
    ("header", [ ("padding", "16px") ]);
    ("::slotted(h1)", [ ("margin", "0"); ("font-size", "24px") ]);
    ("#main", [ ("padding", "16px") ]);
    ("#actions",
     [ ("border-top", "1px solid #cccccc"); ("padding", "16px");
       ("display", "flex"); ("justify-content", "flex-end") ]);
    ("#actions button", [ ("margin", "0 8px") ]) ].

(** The CSS name of a property of [el.style]. *)
Definition css_property (prop : string) : string :=
  if String.eqb prop "pointerEvents" then "pointer-events" else prop.

(** The value in force for the element selected by the id selector [sel]:
    the inline declaration wins over the rule of the style sheet. *)
Definition computedStyle (sel prop : string) (m : state) : string :=
  match shadowRoot m ≫= queryHandle sel with
  | Some n =>
      let inline := style_get prop (el_state (elements m) n) in
      if String.eqb inline ""
      then default "" (assoc sel stylesheet ≫= assoc (css_property prop))
      else inline
  | None => ""
  end.

Definition presentation (m : state) : Presentation :=
  mkPresentation (computedStyle "#backdrop" "opacity" m)
                 (computedStyle "#backdrop" "pointerEvents" m)
                 (computedStyle "#modal" "opacity" m)
                 (computedStyle "#modal" "pointerEvents" m).

Definition hidden_presentation : Presentation := mkPresentation "0" "none" "0" "none".
Definition shown_presentation : Presentation := mkPresentation "1" "all" "1" "all".

(** [new Modal()] *)
Definition constructor : state :=
  mkModal None None None None false (Some template) ∅ []
          {[ 6 := mkElState ∅ [mkListener "slotchange" (Arrow LogSlot) false] ]}
          0 [].

Definition showModalHandler (m : state) : state :=
  match backdropElement m, modalElement m with
  | Some b, Some p =>
      if negb (isOpen m) then
        m |> set_isOpen true
          |> write_style b "opacity" "1"
          |> write_style b "pointerEvents" "all"
          |> write_style p "opacity" "1"
          |> write_style p "pointerEvents" "all"
      else m
  | _, _ => m
  end.

Definition hideModalHandler (m : state) : state :=
  match backdropElement m, modalElement m with
  | Some b, Some p =>
      if isOpen m then
        m |> set_isOpen false
          |> write_style b "opacity" "0"
          |> write_style b "pointerEvents" "none"
          |> write_style p "opacity" "0"
          |> write_style p "pointerEvents" "none"
      else m
  | _, _ => m
  end.

(** [this.dispatchEvent(e)]: listeners run before the call returns, so
    they see the state of this moment. *)
Definition dispatchEvent (e : Event) (m : state) : state :=
  log (Dispatched e (isOpen m) (presentation m)) m.

Definition cancelClickHandler (m : state) : state :=
  m |> hideModalHandler |> dispatchEvent (newEvent "cancel").

Definition confirmClickHandler (m : state) : state :=
  m |> hideModalHandler |> dispatchEvent (newEvent "confirm").

(** [this.meth.bind(this)] *)
Definition bind (meth : Method) (m : state) : Callback Method * state :=
  (Bound meth (nextFn m), set_nextFn (S (nextFn m)) m).

Definition connectedCallback (m : state) : state :=
  let m1 :=
    match shadowRoot m with
    | Some root =>
        set_refs (queryHandle "#backdrop" root) (queryHandle "#modal" root)
                 (queryHandle "#cancel-button" root)
                 (queryHandle "#confirm-button" root) m
    | None => m
    end in
  let m2 :=
    match cancelButton m1 with
    | Some c =>
        let '(f, m') := bind CancelClick m1 in
        on_element c (with_listeners (addEventListener "click" f)) m'
    | None => m1
    end in
  match confirmButton m2 with
  | Some k =>
      let '(f, m') := bind ConfirmClick m2 in
      on_element k (with_listeners (addEventListener "click" f)) m'
  | None => m2
  end.

Definition disconnectedCallback (m : state) : state :=
  let m1 :=
    match cancelButton m with
    | Some c =>
        on_element c (with_listeners (removeEventListener "click" (Proto CancelClick))) m
    | None => m
    end in
  match confirmButton m1 with
  | Some k =>
      on_element k (with_listeners (removeEventListener "click" (Proto ConfirmClick))) m1
  | None => m1
  end.

Definition observedAttributes : list string := ["open"].

Definition attributeChangedCallback (name : string) (oldValue newValue : JsValue)
    (m : state) : state :=
  if String.eqb name "open" then
    if strict_eq newValue (JBool (isOpen m)) then m
    else if truthy newValue then showModalHandler m
    else hideModalHandler m
  else m.

(** Running a listener.  Only bound methods act on the instance: any other
    function runs with another [this] (the button), or is not a method. *)
Definition invoke (cb : Callback Method) (m : state) : state :=
  match cb with
  | Bound ShowModal _ => showModalHandler m
  | Bound HideModal _ => hideModalHandler m
  | Bound CancelClick _ => cancelClickHandler m
  | Bound ConfirmClick _ => confirmClickHandler m
  | _ => m
  end.

(** An event of type [type] arriving at element [n]. *)
Definition fire (type : string) (n : nat) (m : state) : state :=
  foldl (λ acc cb, invoke cb acc) m
        (listening type (listeners (el_state (elements m) n))).

(** The user activates the button selected by [sel]. *)
Definition click (sel : string) (m : state) : state :=
  match shadowRoot m ≫= queryHandle sel with
  | Some n => fire "click" n m
  | None => m
  end.

(** [el.setAttribute(name, value)] and [el.removeAttribute(name)] with the
    reaction the platform queues for an observed attribute. *)
Definition setAttribute (name value : string) (m : state) : state :=
  let old := attributes m !! name in
  let m' := set_attributes (<[name := value]> (attributes m)) m in
  if bool_decide (name ∈ observedAttributes)
  then attributeChangedCallback name (opt_value old) (JStr value) m'
  else m'.

Definition removeAttribute (name : string) (m : state) : state :=
  match attributes m !! name with
  | None => m
  | Some old =>
      let m' := set_attributes (delete name (attributes m)) m in
      if bool_decide (name ∈ observedAttributes)
      then attributeChangedCallback name (JStr old) JNull m'
      else m'
  end.

(** What the host page and the user can do to an instance. *)
Inductive Action :=
| Connect
| Disconnect
| SetAttribute (name value : string)
| RemoveAttribute (name : string)
| ClickCancel
| ClickConfirm.

Definition step (m : state) (a : Action) : state :=
  match a with
  | Connect => connectedCallback m
  | Disconnect => disconnectedCallback m
  | SetAttribute n v => setAttribute n v m
  | RemoveAttribute n => removeAttribute n m
  | ClickCancel => click "#cancel-button" m
  | ClickConfirm => click "#confirm-button" m
  end.

Definition run (acts : list Action) : state := foldl step constructor acts.

Definition signals (m : state) : list Event :=
  omap (λ e, match e with Dispatched ev _ _ => Some ev | _ => None end) (trace m).

Definition click_listeners (n : nat) (m : state) : list (Callback Method) :=
  listening "click" (listeners (el_state (elements m) n)).

(** What holds of every state reached from the constructor: the shadow
    tree is the one built at construction, a resolved reference is the
    element the selector finds there, and what is rendered agrees with the
    flag. *)
Definition consistent (m : state) : Prop :=
  shadowRoot m = Some template ∧
  (backdropElement m = None ∨ backdropElement m = queryHandle "#backdrop" template) ∧
  (modalElement m = None ∨ modalElement m = queryHandle "#modal" template) ∧
  presentation m = if isOpen m then shown_presentation else hidden_presentation.

Definition plain (e : Event) : Prop :=
  bubbles e = false ∧ composed e = false ∧ cancelable e = false ∧ detail e = None.

(** The two signals of the class. *)
Definition modal_signal (e : Event) : Prop :=
  e = newEvent "confirm" ∨ e = newEvent "cancel".

(** The fields the two visibility handlers never assign. *)
Definition same_fields (m m' : state) : Prop :=
  backdropElement m' = backdropElement m ∧ modalElement m' = modalElement m ∧
  cancelButton m' = cancelButton m ∧ confirmButton m' = confirmButton m ∧
  shadowRoot m' = shadowRoot m ∧ attributes m' = attributes m ∧
  lightDOM m' = lightDOM m ∧ nextFn m' = nextFn m.

#[global] Instance ModalAction_eq_dec : EqDecision Action.
Proof. solve_decision. Defined.

(** How many times a history attaches the instance. *)
Definition connects (acts : list Action) : nat :=
  length (filter (λ a, a = Connect) acts).

(** A handler's run leaves alone what it does not assign, listener lists
    included. *)
Definition quiet (m m' : state) : Prop :=
  same_fields m m' ∧
  ∀ n, listeners (el_state (elements m') n) = listeners (el_state (elements m) n).

(** The click listeners an element got from [k] attachments: [k] functions
    bound from the same method, all older than the next one. *)
Definition bound_clicks (meth : Method) (k bound : nat) (ls : list (Listener Method)) : Prop :=
  length ls = k ∧
  Forall (λ l, ∃ j, l = mkListener "click" (Bound meth j) false ∧ j < bound) ls.

(** All four references resolved, to the elements of the template. *)
Definition resolved (m : state) : Prop :=
  backdropElement m = Some 1 ∧ modalElement m = Some 2 ∧
  cancelButton m = Some 8 ∧ confirmButton m = Some 9.

Definition refs_after (k : nat) (m : state) : Prop :=
  match k with
  | 0 => backdropElement m = None ∧ modalElement m = None ∧
         cancelButton m = None ∧ confirmButton m = None
  | S _ => resolved m
  end.

(** What [k] attachments leave: the references, and on each button [k]
    bound click handlers. *)
Definition attached_times (k : nat) (m : state) : Prop :=
  shadowRoot m = Some template ∧
  refs_after k m ∧
  bound_clicks CancelClick k (nextFn m) (listeners (el_state (elements m) 8)) ∧
  bound_clicks ConfirmClick k (nextFn m) (listeners (el_state (elements m) 9)).

(** An open instance is attached and has a non-empty [open] attribute. *)
Definition open_justified (m : state) : Prop :=
  isOpen m = true →
  is_Some (backdropElement m) ∧ is_Some (modalElement m) ∧
  ∃ v, attributes m !! "open" = Some v ∧ v ≠ "".

(** The two methods bound to the buttons. *)
Definition click_method (meth : Method) : Prop := meth = CancelClick ∨ meth = ConfirmClick.

End Modal.

(** ** [class Tooltip extends HTMLElement] *)
Module Tooltip.
Import Dom.

Inductive Method := ShowTooltip | HideTooltip.

#[global] Instance TooltipMethod_eq_dec : EqDecision Method.
Proof. solve_decision. Defined.

Record state := mkTooltip {
  iconElement : option nat;
  containerElement : option Node;
  text : JsValue;
  shadowRoot : option (list Node);
  attributes : gmap string string;
  elements : gmap nat (ElState Method);
  nextNode : nat;               (* identity of the next created element *)
  nextFn : nat;                 (* identity of the next bound function *)
  reported : list DOMException  (* exceptions that escaped a listener *)
}.

Definition set_iconElement (i : option nat) (t : state) : state :=
  mkTooltip i (containerElement t) (text t) (shadowRoot t) (attributes t)
            (elements t) (nextNode t) (nextFn t) (reported t).

Definition set_containerElement (c : option Node) (t : state) : state :=
  mkTooltip (iconElement t) c (text t) (shadowRoot t) (attributes t)
            (elements t) (nextNode t) (nextFn t) (reported t).

Definition set_text (v : JsValue) (t : state) : state :=
  mkTooltip (iconElement t) (containerElement t) v (shadowRoot t) (attributes t)
            (elements t) (nextNode t) (nextFn t) (reported t).

Definition set_shadowRoot (r : option (list Node)) (t : state) : state :=
  mkTooltip (iconElement t) (containerElement t) (text t) r (attributes t)
            (elements t) (nextNode t) (nextFn t) (reported t).

Definition set_attributes (a : gmap string string) (t : state) : state :=
  mkTooltip (iconElement t) (containerElement t) (text t) (shadowRoot t) a
            (elements t) (nextNode t) (nextFn t) (reported t).

Definition set_elements (s : gmap nat (ElState Method)) (t : state) : state :=
  mkTooltip (iconElement t) (containerElement t) (text t) (shadowRoot t) (attributes t)
            s (nextNode t) (nextFn t) (reported t).

Definition set_nextNode (n : nat) (t : state) : state :=
  mkTooltip (iconElement t) (containerElement t) (text t) (shadowRoot t) (attributes t)
            (elements t) n (nextFn t) (reported t).

Definition set_nextFn (n : nat) (t : state) : state :=
  mkTooltip (iconElement t) (containerElement t) (text t) (shadowRoot t) (attributes t)
            (elements t) (nextNode t) n (reported t).

Definition report (e : DOMException) (t : state) : state :=
  mkTooltip (iconElement t) (containerElement t) (text t) (shadowRoot t) (attributes t)
            (elements t) (nextNode t) (nextFn t) (reported t ++ [e]).

Definition on_element (n : nat) (f : ElState Method → ElState Method) (t : state) : state :=
  set_elements (<[n := f (el_state (elements t) n)]> (elements t)) t.

(** The shadow tree set through [innerHTML] (white space left out). *)
Definition template : list Node :=
  [ Element 0 "style" [] [];
    Element 1 "slot" [] [Text "default"];
    Element 2 "span" [("class", "icon")] [Text "?"] ].

(** [new Tooltip()] *)
Definition constructor : state :=
  mkTooltip None None (JStr "") (Some template) ∅ ∅ 3 0 [].

(** [el.textContent = s] on an element without children. *)
Definition text_children (s : string) : list Node :=
  if String.eqb s "" then [] else [Text s].

(** [document.createElement("div")] followed by [textContent = v]. *)
Definition createContainer (i : nat) (v : JsValue) : Node :=
  Element i "div" [] (text_children (to_text v)).

Definition showTooltipHandler (t : state) : state :=
  let c := createContainer (nextNode t) (text t) in
  let t1 := t |> set_nextNode (S (nextNode t)) |> set_containerElement (Some c) in
  match shadowRoot t1 with
  | Some root => set_shadowRoot (Some (appendChild c root)) t1
  | None => t1
  end.

Definition hideTooltipHandler (t : state) : Completion state :=
  match containerElement t, shadowRoot t with
  | Some c, Some root =>
      match removeChild c root with
      | Normal root' => Normal (set_shadowRoot (Some root') t)
      | Throw e => Throw e
      end
  | _, _ => Normal t
  end.

(** [this.meth.bind(this)] *)
Definition bind (meth : Method) (t : state) : Callback Method * state :=
  (Bound meth (nextFn t), set_nextFn (S (nextFn t)) t).

Definition connectedCallback (t : state) : state :=
  let t1 :=
    match attributes t !! "text" with
    | Some v => set_text (JStr v) t
    | None => t
    end in
  match shadowRoot t1 with
  | Some root =>
      let t2 := set_iconElement (queryHandle "span" root) t1 in
      match iconElement t2 with
      | Some i =>
          let '(f, t3) := bind ShowTooltip t2 in
          let t4 := on_element i (with_listeners (addEventListener "mouseenter" f)) t3 in
          let '(g, t5) := bind HideTooltip t4 in
          on_element i (with_listeners (addEventListener "mouseleave" g)) t5
      | None => t2
      end
  | None => t1
  end.

Definition disconnectedCallback (t : state) : state :=
  match iconElement t with
  | Some i =>
      let '(f, t1) := bind ShowTooltip t in
      let t2 := on_element i (with_listeners (removeEventListener "mouseenter" f)) t1 in
      let '(g, t3) := bind HideTooltip t2 in
      on_element i (with_listeners (removeEventListener "mouseleave" g)) t3
  | None => t
  end.

Definition observedAttributes : list string := ["text"].

Definition attributeChangedCallback (name : string) (oldValue newValue : JsValue)
    (t : state) : state :=
  if strict_eq oldValue newValue then t
  else if String.eqb name "text" then set_text newValue t
  else t.

Definition invoke (cb : Callback Method) (t : state) : Completion state :=
  match cb with
  | Bound ShowTooltip _ => Normal (showTooltipHandler t)
  | Bound HideTooltip _ => hideTooltipHandler t
  | _ => Normal t
  end.

(** An event of type [type] arriving at element [n]: an exception thrown
    by a listener is reported and the remaining listeners still run. *)
Definition fire (type : string) (n : nat) (t : state) : state :=
  foldl (λ acc cb,
           match invoke cb acc with
           | Normal acc' => acc'
           | Throw e => report e acc
           end)
        t (listening type (listeners (el_state (elements t) n))).

(** The pointer enters or leaves the icon. *)
Definition pointer (type : string) (t : state) : state :=
  match shadowRoot t ≫= queryHandle "span" with
  | Some n => fire type n t
  | None => t
  end.

Definition setAttribute (name value : string) (t : state) : state :=
  let old := attributes t !! name in
  let t' := set_attributes (<[name := value]> (attributes t)) t in
  if bool_decide (name ∈ observedAttributes)
  then attributeChangedCallback name (opt_value old) (JStr value) t'
  else t'.

Definition removeAttribute (name : string) (t : state) : state :=
  match attributes t !! name with
  | None => t
  | Some old =>
      let t' := set_attributes (delete name (attributes t)) t in
      if bool_decide (name ∈ observedAttributes)
      then attributeChangedCallback name (JStr old) JNull t'
      else t'
  end.

Inductive Action :=
| Connect
| Disconnect
| SetAttribute (name value : string)
| RemoveAttribute (name : string)
| MouseEnter
| MouseLeave.

Definition step (t : state) (a : Action) : state :=
  match a with
  | Connect => connectedCallback t
  | Disconnect => disconnectedCallback t
  | SetAttribute n v => setAttribute n v t
  | RemoveAttribute n => removeAttribute n t
  | MouseEnter => pointer "mouseenter" t
  | MouseLeave => pointer "mouseleave" t
  end.

Definition run (acts : list Action) : state := foldl step constructor acts.

(** The ephemeral content nodes in the shadow tree: its [div] children
    (the template has none). *)
Definition mounted (t : state) : list Node :=
  filter (λ n, node_tag n = "div") (default [] (shadowRoot t)).

(** [node.textContent] *)
Fixpoint textContent (n : Node) : string :=
  match n with
  | Text s => s
  | Element _ _ _ kids =>
      (fix cat (ks : list Node) : string :=
         match ks with
         | [] => ""
         | k :: ks' => String.append (textContent k) (cat ks')
         end) kids
  end.

(** The tooltip keeps no visibility flag: it shows iff a content node is
    mounted. *)
Definition isVisible (t : state) : bool :=
  match mounted t with [] => false | _ :: _ => true end.

Definition icon_listeners (t : state) : list (Listener Method) :=
  match iconElement t with
  | Some i => listeners (el_state (elements t) i)
  | None => []
  end.

(** What holds of every state reached from the constructor: there is a
    shadow root, and the identities of its children, like that of the last
    created container, are older than the next one to be handed out. *)
Definition older (bound : nat) (n : Node) : Prop :=
  match node_id n with Some i => i < bound | None => True end.

Definition well_formed (t : state) : Prop :=
  ∃ root, shadowRoot t = Some root ∧ Forall (older (nextNode t)) root.

#[global] Instance TooltipAction_eq_dec : EqDecision Action.
Proof. solve_decision. Defined.

(** How many times a history attaches the instance. *)
Definition connects (acts : list Action) : nat :=
  length (filter (λ a, a = Connect) acts).

(** [n] hovers: the pointer enters the icon and leaves it, [n] times. *)
Definition hovers (n : nat) : list Action :=
  mjoin (replicate n [MouseEnter; MouseLeave]).

(** A content node created by [show()], older than [bound]. *)
Definition is_content (bound : nat) (n : Node) : Prop :=
  ∃ i kids, n = Element i "div" [] kids ∧ 3 ≤ i < bound.

(** The shadow tree of a reached state: the template, then content nodes;
    and the last container, if any, is a content node too. *)
Definition shaped (t : state) : Prop :=
  (3 ≤ nextNode t)%nat ∧
  (∃ divs, shadowRoot t = Some (template ++ divs) ∧
           Forall (is_content (nextNode t)) divs) ∧
  (∀ c, containerElement t = Some c → is_content (nextNode t) c).

(** The fields [show()] and [hide()] never assign. *)
Definition hover_quiet (t t' : state) : Prop :=
  iconElement t' = iconElement t ∧ text t' = text t ∧
  attributes t' = attributes t ∧ elements t' = elements t ∧ nextFn t' = nextFn t.

(** One listener's run of [hide()], as the dispatch of an event sees it. *)
Definition hide_or_report (t : state) : state :=
  match hideTooltipHandler t with
  | Normal t' => t'
  | Throw e => report e t
  end.

(** The listeners [k] attachments leave on the icon: [k] bound [show]
    handlers for mouseenter, [k] bound [hide] handlers for mouseleave, all
    older than the next bound function. *)
Definition hover_listeners (k bound : nat) (ls : list (Listener Method)) : Prop :=
  (∃ js, length js = k ∧ listening "mouseenter" ls = Bound ShowTooltip <$> js) ∧
  (∃ js, length js = k ∧ listening "mouseleave" ls = Bound HideTooltip <$> js) ∧
  Forall (λ l, ∃ meth j, l_callback l = Bound meth j ∧ j < bound) ls.

Definition attached_times (k : nat) (t : state) : Prop :=
  shaped t ∧
  iconElement t = match k with 0 => None | S _ => Some 2 end ∧
  hover_listeners k (nextFn t) (listeners (el_state (elements t) 2)).

(** The last container is not mounted, and no mounted node shares its
    identity: [hide()] in such a state fails. *)
Definition stale (t : state) : Prop :=
  ∃ c i root, containerElement t = Some c ∧ node_id c = Some i ∧
              shadowRoot t = Some root ∧ Forall (older i) root.

(** The text a content node created now would carry. *)
Definition current_text (t : state) : string := to_text (text t).

(** A mounted content node that is not the last container. *)
Definition orphan (n : Node) (t : state) : Prop :=
  n ∈ mounted t ∧
  ∃ i, node_id n = Some i ∧ i < nextNode t ∧
       ∀ c, containerElement t = Some c → node_id c ≠ Some i.

(** The text kept agrees with the [text] attribute. *)
Definition text_tracks (t : state) : Prop :=
  current_text t = default "" (attributes t !! "text").


End Tooltip.

(** ** [class Tooltip], the revision with a [visible] flag and [render()]

    The constructor, [connectedCallback] and [attributeChangedCallback] of
    this revision are, statement for statement, those of the revision
    above; the handlers go through [render()], and [disconnectedCallback]
    passes the unbound methods. *)
Module TooltipRender.
Import Dom.

(** The fields of the class: those of the other revision, and [visible]. *)
Record state := mkTooltip {
  core : Tooltip.state;
  visible : bool
}.

Definition set_core (k : Tooltip.state) (t : state) : state := mkTooltip k (visible t).
Definition set_visible (v : bool) (t : state) : state := mkTooltip (core t) v.

Definition constructor : state := mkTooltip Tooltip.constructor false.

(** [render()], with the exception that escapes it, if any. *)
Definition render (t : state) : state * option DOMException :=
  if visible t then
    let c := Tooltip.createContainer (Tooltip.nextNode (core t)) (Tooltip.text (core t)) in
    let k := core t |> Tooltip.set_nextNode (S (Tooltip.nextNode (core t)))
                    |> Tooltip.set_containerElement (Some c) in
    match Tooltip.shadowRoot k with
    | Some root => (set_core (Tooltip.set_shadowRoot (Some (appendChild c root)) k) t, None)
    | None => (set_core k t, None)
    end
  else
    match Tooltip.containerElement (core t), Tooltip.shadowRoot (core t) with
    | Some c, Some root =>
        match removeChild c root with
        | Normal root' => (set_core (Tooltip.set_shadowRoot (Some root') (core t)) t, None)
        | Throw e => (t, Some e)
        end
    | _, _ => (t, None)
    end.

Definition showTooltipHandler (t : state) : state * option DOMException :=
  render (set_visible true t).

Definition hideTooltipHandler (t : state) : state * option DOMException :=
  render (set_visible false t).

Definition connectedCallback (t : state) : state :=
  set_core (Tooltip.connectedCallback (core t)) t.

Definition disconnectedCallback (t : state) : state :=
  match Tooltip.iconElement (core t) with
  | Some i =>
      set_core
        (core t
         |> Tooltip.on_element i
              (with_listeners (removeEventListener "mouseenter" (Proto Tooltip.ShowTooltip)))
         |> Tooltip.on_element i
              (with_listeners (removeEventListener "mouseleave" (Proto Tooltip.HideTooltip))))
        t
  | None => t
  end.

Definition attributeChangedCallback (name : string) (oldValue newValue : JsValue)
    (t : state) : state :=
  set_core (Tooltip.attributeChangedCallback name oldValue newValue (core t)) t.

Definition invoke (cb : Callback Tooltip.Method) (t : state) : state * option DOMException :=
  match cb with
  | Bound Tooltip.ShowTooltip _ => showTooltipHandler t
  | Bound Tooltip.HideTooltip _ => hideTooltipHandler t
  | _ => (t, None)
  end.

Definition report (e : option DOMException) (t : state) : state :=
  match e with
  | Some x => set_core (Tooltip.report x (core t)) t
  | None => t
  end.

Definition fire (type : string) (n : nat) (t : state) : state :=
  foldl (λ acc cb, let '(acc', e) := invoke cb acc in report e acc')
        t (listening type (listeners (el_state (Tooltip.elements (core t)) n))).

Definition pointer (type : string) (t : state) : state :=
  match Tooltip.shadowRoot (core t) ≫= queryHandle "span" with
  | Some n => fire type n t
  | None => t
  end.

Definition setAttribute (name value : string) (t : state) : state :=
  let old := Tooltip.attributes (core t) !! name in
  let t' := set_core (Tooltip.set_attributes (<[name := value]> (Tooltip.attributes (core t)))
                        (core t)) t in
  if bool_decide (name ∈ Tooltip.observedAttributes)
  then attributeChangedCallback name (opt_value old) (JStr value) t'
  else t'.

Definition step (t : state) (a : Tooltip.Action) : state :=
  match a with
  | Tooltip.Connect => connectedCallback t
  | Tooltip.Disconnect => disconnectedCallback t
  | Tooltip.SetAttribute n v => setAttribute n v t
  | Tooltip.RemoveAttribute n =>
      match Tooltip.attributes (core t) !! n with
      | None => t
      | Some old =>
          let t' := set_core (Tooltip.set_attributes (delete n (Tooltip.attributes (core t)))
                                (core t)) t in
          if bool_decide (n ∈ Tooltip.observedAttributes)
          then attributeChangedCallback n (JStr old) JNull t'
          else t'
      end
  | Tooltip.MouseEnter => pointer "mouseenter" t
  | Tooltip.MouseLeave => pointer "mouseleave" t
  end.

Definition run (acts : list Tooltip.Action) : state := foldl step constructor acts.

Definition mounted (t : state) : list Node := Tooltip.mounted (core t).

(** The last container is the last child of the shadow root, and no other
    child has its identity. *)
Definition on_top (t : state) : Prop :=
  ∃ c i root, Tooltip.containerElement (core t) = Some c ∧ node_id c = Some i ∧
              node_tag c = "div" ∧
              Tooltip.shadowRoot (core t) = Some (root ++ [c]) ∧
              Forall (Tooltip.older i) root.

(** What [visible] says of the shadow tree. *)
Definition flag_sound (t : state) : Prop :=
  Tooltip.well_formed (core t) ∧
  if visible t then on_top t
  else Tooltip.containerElement (core t) = None ∨ Tooltip.stale (core t).

End TooltipRender.

(** ** [class ConfirmHyperlink extends HTMLAnchorElement] *)
Module ConfirmHyperlink.
Import Dom.

Inductive Method := ClickHandler.

#[global] Instance LinkMethod_eq_dec : EqDecision Method.
Proof. solve_decision. Defined.

(** The listeners registered on the anchor itself. *)
Record state := mkLink { own_listeners : list (Listener Method) }.

Definition constructor : state := mkLink [].

(** The instance field [clickHandler]: one arrow function per instance. *)
Definition clickHandlerRef : Callback Method := Arrow ClickHandler.

(** [clickHandler(event)], given the answer to the prompt: the result is
    the event's [defaultPrevented] flag afterwards. *)
Definition clickHandler (answer : bool) (defaultPrevented : bool) : bool :=
  if negb answer then true else defaultPrevented.

Definition connectedCallback (a : state) : state :=
  mkLink (addEventListener "click" clickHandlerRef (own_listeners a)).

Definition disconnectedCallback (a : state) : state :=
  mkLink (removeEventListener "click" clickHandlerRef (own_listeners a)).

(** What the host page can do to the anchor: attach it and detach it. *)
Inductive Action := Connect | Disconnect.

Definition step (a : state) (act : Action) : state :=
  match act with
  | Connect => connectedCallback a
  | Disconnect => disconnectedCallback a
  end.

Definition run (acts : list Action) : state := foldl step constructor acts.

(** The anchor is in the document iff the last thing done was to attach it. *)
Definition attached (acts : list Action) : bool :=
  match last acts with
  | Some Connect => true
  | _ => false
  end.

(** Running a click listener of the anchor on an event whose
    [defaultPrevented] flag is [dp], the user giving [answer] to the prompt. *)
Definition invoke (answer : bool) (cb : Callback Method) (dp : bool) : bool :=
  match cb with
  | Arrow ClickHandler => clickHandler answer dp
  | _ => dp
  end.

(** The user activates the link: whether the navigation is prevented. *)
Definition click (answer : bool) (a : state) : bool :=
  foldl (λ dp cb, invoke answer cb dp) false (listening "click" (own_listeners a)).

End ConfirmHyperlink.

(** ** [class Modal], the first revision in [modal.ts]

    The same fields as the last revision.  The handlers do not test the
    flag, both buttons are bound to [hideModalHandler], no event is
    dispatched, and the header is fixed markup. *)
Module ModalFirst.
Import Dom.

(** The shadow tree set through [innerHTML] (white space left out). *)
Definition template : list Node :=
  [ Element 0 "style" [] [];
    Element 1 "div" [("id", "backdrop")] [];
    Element 2 "div" [("id", "modal")]
      [ Element 3 "header" [] [ Element 4 "h1" [] [Text "Please Confirm"] ];
        Element 5 "section" [("id", "main")] [ Element 6 "slot" [] [] ];
        Element 7 "section" [("id", "actions")]
          [ Element 8 "button" [("id", "cancel-button")] [Text "Cancel"];
            Element 9 "button" [("id", "confirm-button")] [Text "Confirm"] ] ] ].

(** The rules of the [<style>] element. *)
Definition stylesheet : list (string * list (string * string)) :=
  [ ("#backdrop",
     [ ("position", "fixed"); ("top", "0"); ("left", "0"); ("width", "100%");
       ("height", "100vh"); ("background", "rgba(0, 0, 0, 0.5)"); ("z-index", "2");
       ("opacity", "0"); ("pointer-events", "none") ]);
    ("#modal",
     [ ("position", "fixed"); ("top", "15vh"); ("left", "25%"); ("width", "50%");
       ("max-height", "480px"); ("z-index", "3"); ("border-radius", "16px");
       ("box-shadow", "0 2px 8px rgba(0, 0, 0, 0.26)"); ("background", "#ffffff");
       ("display", "flex"); ("flex-direction", "column");
       ("justify-content", "space-between"); ("overflow-y", "auto");
       ("opacity", "0"); ("pointer-events", "none") ]);
    ("header", [ ("padding", "16px") ]);
    ("header h1", [ ("margin", "0"); ("font-size", "24px") ]);
    ("#main", [ ("padding", "16px") ]);
    ("#actions",
     [ ("border-top", "1px solid #cccccc"); ("padding", "16px");
       ("display", "flex"); ("justify-content", "flex-end") ]);
    ("#actions button", [ ("margin", "0 8px") ]) ].

(** The value in force for the element selected by the id selector [sel]. *)
Definition computedStyle (sel prop : string) (m : Modal.state) : string :=
  match Modal.shadowRoot m ≫= queryHandle sel with
  | Some n =>
      let inline := style_get prop (el_state (Modal.elements m) n) in
      if String.eqb inline ""
      then default "" (assoc sel stylesheet ≫= assoc (Modal.css_property prop))
      else inline
  | None => ""
  end.

Definition presentation (m : Modal.state) : Modal.Presentation :=
  Modal.mkPresentation (computedStyle "#backdrop" "opacity" m)
                       (computedStyle "#backdrop" "pointerEvents" m)
                       (computedStyle "#modal" "opacity" m)
                       (computedStyle "#modal" "pointerEvents" m).

(** [new Modal()] *)
Definition constructor : Modal.state :=
  Modal.mkModal None None None None false (Some template) ∅ [] ∅ 0 [].

Definition showModalHandler (m : Modal.state) : Modal.state :=
  match Modal.backdropElement m, Modal.modalElement m with
  | Some b, Some p =>
      m |> Modal.set_isOpen true
        |> Modal.write_style b "opacity" "1"
        |> Modal.write_style b "pointerEvents" "all"
        |> Modal.write_style p "opacity" "1"
        |> Modal.write_style p "pointerEvents" "all"
  | _, _ => m
  end.

Definition hideModalHandler (m : Modal.state) : Modal.state :=
  match Modal.backdropElement m, Modal.modalElement m with
  | Some b, Some p =>
      m |> Modal.set_isOpen false
        |> Modal.write_style b "opacity" "0"
        |> Modal.write_style b "pointerEvents" "none"
        |> Modal.write_style p "opacity" "0"
        |> Modal.write_style p "pointerEvents" "none"
  | _, _ => m
  end.

Definition connectedCallback (m : Modal.state) : Modal.state :=
  let m1 :=
    match Modal.shadowRoot m with
    | Some root =>
        Modal.set_refs (queryHandle "#backdrop" root) (queryHandle "#modal" root)
                       (queryHandle "#cancel-button" root)
                       (queryHandle "#confirm-button" root) m
    | None => m
    end in
  let m2 :=
    match Modal.cancelButton m1 with
    | Some c =>
        let '(f, m') := Modal.bind Modal.HideModal m1 in
        Modal.on_element c (with_listeners (addEventListener "click" f)) m'
    | None => m1
    end in
  match Modal.confirmButton m2 with
  | Some k =>
      let '(f, m') := Modal.bind Modal.HideModal m2 in
      Modal.on_element k (with_listeners (addEventListener "click" f)) m'
  | None => m2
  end.

Definition disconnectedCallback (m : Modal.state) : Modal.state :=
  let m1 :=
    match Modal.cancelButton m with
    | Some c =>
        Modal.on_element c
          (with_listeners (removeEventListener "click" (Proto Modal.HideModal))) m
    | None => m
    end in
  match Modal.confirmButton m1 with
  | Some k =>
      Modal.on_element k
        (with_listeners (removeEventListener "click" (Proto Modal.HideModal))) m1
  | None => m1
  end.

Definition observedAttributes : list string := ["open"].

Definition attributeChangedCallback (name : string) (oldValue newValue : JsValue)
    (m : Modal.state) : Modal.state :=
  if String.eqb name "open" then
    if truthy newValue then showModalHandler m else hideModalHandler m
  else m.

(** Running a listener: the methods of this revision are the two handlers. *)
Definition invoke (cb : Callback Modal.Method) (m : Modal.state) : Modal.state :=
  match cb with
  | Bound Modal.ShowModal _ => showModalHandler m
  | Bound Modal.HideModal _ => hideModalHandler m
  | _ => m
  end.

Definition fire (type : string) (n : nat) (m : Modal.state) : Modal.state :=
  foldl (λ acc cb, invoke cb acc) m
        (listening type (listeners (el_state (Modal.elements m) n))).

Definition click (sel : string) (m : Modal.state) : Modal.state :=
  match Modal.shadowRoot m ≫= queryHandle sel with
  | Some n => fire "click" n m
  | None => m
  end.

Definition setAttribute (name value : string) (m : Modal.state) : Modal.state :=
  let old := Modal.attributes m !! name in
  let m' := Modal.set_attributes (<[name := value]> (Modal.attributes m)) m in
  if bool_decide (name ∈ observedAttributes)
  then attributeChangedCallback name (opt_value old) (JStr value) m'
  else m'.

Definition removeAttribute (name : string) (m : Modal.state) : Modal.state :=
  match Modal.attributes m !! name with
  | None => m
  | Some old =>
      let m' := Modal.set_attributes (delete name (Modal.attributes m)) m in
      if bool_decide (name ∈ observedAttributes)
      then attributeChangedCallback name (JStr old) JNull m'
      else m'
  end.

Definition step (m : Modal.state) (a : Modal.Action) : Modal.state :=
  match a with
  | Modal.Connect => connectedCallback m
  | Modal.Disconnect => disconnectedCallback m
  | Modal.SetAttribute n v => setAttribute n v m
  | Modal.RemoveAttribute n => removeAttribute n m
  | Modal.ClickCancel => click "#cancel-button" m
  | Modal.ClickConfirm => click "#confirm-button" m
  end.

Definition run (acts : list Modal.Action) : Modal.state := foldl step constructor acts.

(** What [k] attachments leave in this revision: the references, and on
    each button [k] bound [hideModalHandler]s. *)
Definition attached_times (k : nat) (m : Modal.state) : Prop :=
  Modal.shadowRoot m = Some template ∧
  Modal.refs_after k m ∧
  Modal.bound_clicks Modal.HideModal k (Modal.nextFn m)
    (listeners (el_state (Modal.elements m) 8)) ∧
  Modal.bound_clicks Modal.HideModal k (Modal.nextFn m)
    (listeners (el_state (Modal.elements m) 9)).

(** What is rendered agrees with the flag. *)
Definition consistent (m : Modal.state) : Prop :=
  presentation m
  = if Modal.isOpen m then Modal.shown_presentation else Modal.hidden_presentation.

End ModalFirst.


(** ** [class Tooltip], the revision that works on the host's own children

    No shadow root: the icon and the container are appended to the element
    itself, and every attachment creates a new icon. *)
Module TooltipLight.
Import Dom.

Record state := mkTooltip {
  tooltipIcon : option nat;
  tooltipContainer : option Node;
  children : list Node;
  elements : gmap nat (ElState Tooltip.Method);
  nextNode : nat;
  nextFn : nat;
  reported : list DOMException
}.

Definition set_children (kids : list Node) (t : state) : state :=
  mkTooltip (tooltipIcon t) (tooltipContainer t) kids (elements t) (nextNode t)
            (nextFn t) (reported t).

Definition report (e : DOMException) (t : state) : state :=
  mkTooltip (tooltipIcon t) (tooltipContainer t) (children t) (elements t) (nextNode t)
            (nextFn t) (reported t ++ [e]).

(** An identity no child of the host has: what [document.createElement]
    hands out next. *)
Definition fresh_id (ns : list Node) : nat :=
  foldr (λ n acc, match node_id n with Some i => Nat.max (S i) acc | None => acc end) 0 ns.

(** [new Tooltip()] on a host written with the children [light]. *)
Definition constructor (light : list Node) : state :=
  mkTooltip None None light ∅ (fresh_id light) 0 [].

(** [document.createElement("span")] followed by [textContent = "(?)"]. *)
Definition icon (i : nat) : Node := Element i "span" [] [Text "(?)"].

(** [document.createElement("div")] followed by the fixed text. *)
Definition container (i : nat) : Node :=
  Element i "div" [] [Text "This is the tooltip text!"].

Definition showTooltipHandler (t : state) : state :=
  let c := container (nextNode t) in
  mkTooltip (tooltipIcon t) (Some c) (appendChild c (children t)) (elements t)
            (S (nextNode t)) (nextFn t) (reported t).

Definition hideTooltipHandler (t : state) : Completion state :=
  match tooltipContainer t with
  | Some c =>
      match removeChild c (children t) with
      | Normal kids => Normal (set_children kids t)
      | Throw e => Throw e
      end
  | None => Normal t
  end.

Definition connectedCallback (t : state) : state :=
  let i := nextNode t in
  let f := Bound Tooltip.ShowTooltip (nextFn t) in
  let g := Bound Tooltip.HideTooltip (S (nextFn t)) in
  mkTooltip (Some i) (tooltipContainer t) (appendChild (icon i) (children t))
            (<[i := el_state (elements t) i
                    |> with_listeners (addEventListener "mouseenter" f)
                    |> with_listeners (addEventListener "mouseleave" g)]> (elements t))
            (S i) (S (S (nextFn t))) (reported t).

Definition disconnectedCallback (t : state) : state :=
  match tooltipIcon t with
  | Some i =>
      let f := Bound Tooltip.ShowTooltip (nextFn t) in
      let g := Bound Tooltip.HideTooltip (S (nextFn t)) in
      mkTooltip (tooltipIcon t) (tooltipContainer t) (children t)
                (<[i := el_state (elements t) i
                        |> with_listeners (removeEventListener "mouseenter" f)
                        |> with_listeners (removeEventListener "mouseleave" g)]> (elements t))
                (nextNode t) (S (S (nextFn t))) (reported t)
  | None => t
  end.

Definition invoke (cb : Callback Tooltip.Method) (t : state) : Completion state :=
  match cb with
  | Bound Tooltip.ShowTooltip _ => Normal (showTooltipHandler t)
  | Bound Tooltip.HideTooltip _ => hideTooltipHandler t
  | _ => Normal t
  end.

(** An event of type [type] arriving at element [n]: an exception thrown
    by a listener is reported and the remaining listeners still run. *)
Definition fire (type : string) (n : nat) (t : state) : state :=
  foldl (λ acc cb,
           match invoke cb acc with
           | Normal acc' => acc'
           | Throw e => report e acc
           end)
        t (listening type (listeners (el_state (elements t) n))).

(** What happens to an instance; the pointer events name the element they
    arrive at. *)
Inductive Action :=
| Connect
| Disconnect
| MouseEnter (n : nat)
| MouseLeave (n : nat).

Definition step (t : state) (a : Action) : state :=
  match a with
  | Connect => connectedCallback t
  | Disconnect => disconnectedCallback t
  | MouseEnter n => fire "mouseenter" n t
  | MouseLeave n => fire "mouseleave" n t
  end.

Definition run (light : list Node) (acts : list Action) : state :=
  foldl step (constructor light) acts.

(** What a user does: attach, detach, or move the pointer onto an element
    and away from it. *)
Inductive Gesture :=
| Attach
| Detach
| Hover (n : nat).

#[global] Instance Gesture_eq_dec : EqDecision Gesture.
Proof. solve_decision. Defined.

Definition actions (g : Gesture) : list Action :=
  match g with
  | Attach => [Connect]
  | Detach => [Disconnect]
  | Hover n => [MouseEnter n; MouseLeave n]
  end.

Definition play (light : list Node) (gs : list Gesture) : state :=
  run light (gs ≫= actions).

Definition attaches (gs : list Gesture) : nat :=
  length (filter (λ g, g = Attach) gs).

(** The listeners of one element: none, or the pair an attachment put on
    the icon it created. *)
Definition icon_listeners (bound : nat) (ls : list (Listener Tooltip.Method)) : Prop :=
  ls = [] ∨
  ∃ j j', j < bound ∧ j' < bound ∧
          ls = [ mkListener "mouseenter" (Bound Tooltip.ShowTooltip j) false;
                 mkListener "mouseleave" (Bound Tooltip.HideTooltip j') false ].

(** The state between two gestures, after [k] attachments. *)
Definition settled (light : list Node) (k : nat) (t : state) : Prop :=
  (∃ icons, children t = light ++ icons ∧ length icons = k ∧
            Forall (λ n, ∃ i, n = icon i) icons) ∧
  Forall (Tooltip.older (nextNode t)) (children t) ∧
  (∀ n, icon_listeners (nextFn t) (listeners (el_state (elements t) n))) ∧
  (∀ n, (nextNode t ≤ n)%nat → listeners (el_state (elements t) n) = []) ∧
  reported t = [] ∧
  (∀ c, tooltipContainer t = Some c →
        existsb (same_node c) (children t) = false ∧
        ∃ i, node_id c = Some i ∧ i < nextNode t).

End TooltipLight.

(** * Properties *)
Import Dom.

Section DomFacts.
Context {M : Type} `{EqDecision M}.

Lemma el_state_insert (s : gmap nat (ElState M)) (n k : nat) (x : ElState M) :
  el_state (<[n := x]> s) k = if decide (n = k) then x else el_state s k.
Proof. unfold el_state. rewrite lookup_insert. by case_decide. Qed.

Lemma style_get_set (p q v : string) (e : ElState M) :
  style_get q (style_set p v e) = if decide (p = q) then v else style_get q e.
Proof. unfold style_get, style_set; simpl. rewrite lookup_insert. by case_decide. Qed.

(** Removing a callback leaves every listener with another callback. *)
Lemma removeEventListener_other (type : string) (cb : Callback M) (ls : list (Listener M)) :
  Forall (λ l, l_callback l ≠ cb) ls → removeEventListener type cb ls = ls.
Proof.
  intros Hall. unfold removeEventListener.
  induction Hall as [|l ls Hl _ IH]; [done|].
  rewrite filter_cons_True; [by rewrite IH|].
  intros ->. by apply Hl.
Qed.

(** Removing the callback that was added gives back the list. *)
Lemma removeEventListener_add (type : string) (cb : Callback M) (ls : list (Listener M)) :
  mkListener type cb false ∉ ls →
  removeEventListener type cb (addEventListener type cb ls) = ls.
Proof.
  intros Hnot. unfold addEventListener, removeEventListener.
  rewrite bool_decide_eq_false_2 by done.
  rewrite filter_app. simpl. rewrite filter_cons_False, filter_nil by naive_solver.
  rewrite app_nil_r. 
  induction ls as [|l ls IH]; [done|].
  apply not_elem_of_cons in Hnot as [Hne Hnot].
  rewrite filter_cons_True by done. by rewrite IH.
Qed.

End DomFacts.

Section DispatchFacts.
Context {M : Type}.

(** An event that is not composed does not leave the tree of its target. *)
Lemma event_path_boundary (e : Event) (inner outer : list (PathItem M)) :
  composed e = false →
  event_path e (inner ++ ShadowBoundary :: outer) = event_path e inner.
Proof.
  intros Hc. induction inner as [|[ls|] inner IH]; simpl.
  - by rewrite Hc.
  - by rewrite IH.
  - by rewrite Hc.
Qed.

Lemma elem_of_phase_listeners (e : Event) (capture : bool) (cb : Callback M)
    (ls : list (Listener M)) :
  cb ∈ phase_listeners e capture ls → mkListener (e_type e) cb capture ∈ ls.
Proof.
  unfold phase_listeners. intros (l & -> & Hl)%list_elem_of_fmap.
  apply list_elem_of_filter in Hl as [[Ht Hc] Hl].
  destruct l as [ty cb c]; simpl in *. by subst.
Qed.

(** Who is called for an event that does not bubble: the listeners on the
    target, and on the way down the capturing listeners of the ancestors. *)
Lemma deliveries_not_bubbling (e : Event) (target : list (Listener M))
    (up : list (PathItem M)) (ph : Phase) (cb : Callback M) :
  bubbles e = false →
  (ph, cb) ∈ deliveries e target up →
  (ph = AtTarget ∧ cb ∈ listening (e_type e) target) ∨
  (ph = Capturing ∧ ∃ ls, ls ∈ event_path e up ∧ mkListener (e_type e) cb true ∈ ls).
Proof.
  intros Hb. unfold deliveries. rewrite Hb, app_nil_r.
  intros [Hin|Hin]%elem_of_app.
  - right. apply list_elem_of_fmap in Hin as (x & [= -> ->] & Hx).
    split; [done|].
    apply list_elem_of_join in Hx as (cbs & Hx & Hcbs).
    apply list_elem_of_fmap in Hcbs as (ls & -> & Hls).
    exists ls. split; [by apply elem_of_reverse|].
    by apply elem_of_phase_listeners.
  - left. by apply list_elem_of_fmap in Hin as (x & [= -> ->] & Hx).
Qed.

End DispatchFacts.

Section ModalFacts.
Import Modal.

(** Settles the tests [decide (n = k ∧ p = q)] on literals that reading a
    style after a run of writes leaves. *)
Ltac decide_writes :=
  repeat match goal with
  | |- context [decide (?a = ?b ∧ ?c = ?d)] =>
      first
        [ rewrite (decide_True (P := a = b ∧ c = d)) by (split; reflexivity)
        | rewrite (decide_False (P := a = b ∧ c = d)) by (intros [? ?]; discriminate) ]
  end.

Lemma write_style_get (n k : nat) (p q v : string) (m : state) :
  style_get q (el_state (elements (write_style n p v m)) k)
  = if decide (n = k ∧ p = q) then v else style_get q (el_state (elements m) k).
Proof.
  unfold write_style, on_element; simpl.
  rewrite el_state_insert.
  destruct (decide (n = k)) as [->|Hn].
  - rewrite style_get_set.
    destruct (decide (p = q)) as [->|Hp].
    + by rewrite decide_True.
    + rewrite decide_False; [done|by intros [_ ?]].
  - rewrite decide_False; [done|by intros [? _]].
Qed.

Lemma write_style_listeners (n k : nat) (p v : string) (m : state) :
  listeners (el_state (elements (write_style n p v m)) k)
  = listeners (el_state (elements m) k).
Proof.
  unfold write_style, on_element; simpl.
  rewrite el_state_insert. by case_decide; subst.
Qed.

(** The two branches of each handler. *)
Lemma showModalHandler_skip (m : state) :
  backdropElement m = None ∨ modalElement m = None ∨ isOpen m = true →
  showModalHandler m = m.
Proof.
  unfold showModalHandler.
  intros [H|[H|H]]; rewrite H; try done.
  - by destruct (backdropElement m).
  - by destruct (backdropElement m), (modalElement m).
Qed.

Lemma hideModalHandler_skip (m : state) :
  backdropElement m = None ∨ modalElement m = None ∨ isOpen m = false →
  hideModalHandler m = m.
Proof.
  unfold hideModalHandler.
  intros [H|[H|H]]; rewrite H; try done.
  - by destruct (backdropElement m).
  - by destruct (backdropElement m), (modalElement m).
Qed.

Lemma showModalHandler_run (m : state) (b p : nat) :
  backdropElement m = Some b → modalElement m = Some p → isOpen m = false →
  showModalHandler m
  = m |> set_isOpen true
      |> write_style b "opacity" "1" |> write_style b "pointerEvents" "all"
      |> write_style p "opacity" "1" |> write_style p "pointerEvents" "all".
Proof. unfold showModalHandler. by intros -> -> ->. Qed.

Lemma hideModalHandler_run (m : state) (b p : nat) :
  backdropElement m = Some b → modalElement m = Some p → isOpen m = true →
  hideModalHandler m
  = m |> set_isOpen false
      |> write_style b "opacity" "0" |> write_style b "pointerEvents" "none"
      |> write_style p "opacity" "0" |> write_style p "pointerEvents" "none".
Proof. unfold hideModalHandler. by intros -> -> ->. Qed.

(** Which case a handler is in. *)
Lemma showModalHandler_cases (m : state) :
  showModalHandler m = m ∨
  ∃ b p, backdropElement m = Some b ∧ modalElement m = Some p ∧ isOpen m = false.
Proof.
  destruct (backdropElement m) as [b|] eqn:Hb; [|left; apply showModalHandler_skip; auto].
  destruct (modalElement m) as [p|] eqn:Hp; [|left; apply showModalHandler_skip; auto].
  destruct (isOpen m) eqn:Ho; [left; apply showModalHandler_skip; auto|].
  right. by exists b, p.
Qed.

Lemma hideModalHandler_cases (m : state) :
  hideModalHandler m = m ∨
  ∃ b p, backdropElement m = Some b ∧ modalElement m = Some p ∧ isOpen m = true.
Proof.
  destruct (backdropElement m) as [b|] eqn:Hb; [|left; apply hideModalHandler_skip; auto].
  destruct (modalElement m) as [p|] eqn:Hp; [|left; apply hideModalHandler_skip; auto].
  destruct (isOpen m) eqn:Ho; [|left; apply hideModalHandler_skip; auto].
  right. by exists b, p.
Qed.

Lemma showModalHandler_isOpen (m : state) (b p : nat) :
  backdropElement m = Some b → modalElement m = Some p →
  isOpen (showModalHandler m) = true.
Proof.
  intros Hb Hp. destruct (isOpen m) eqn:Ho.
  - rewrite showModalHandler_skip; auto.
  - by rewrite (showModalHandler_run m b p).
Qed.

Lemma hideModalHandler_isOpen (m : state) (b p : nat) :
  backdropElement m = Some b → modalElement m = Some p →
  isOpen (hideModalHandler m) = false.
Proof.
  intros Hb Hp. destruct (isOpen m) eqn:Ho.
  - by rewrite (hideModalHandler_run m b p).
  - rewrite hideModalHandler_skip; auto.
Qed.

(** C1, modal half: a second [show()] finds the flag set and does nothing. *)
Lemma showModalHandler_idempotent (m : state) :
  showModalHandler (showModalHandler m) = showModalHandler m.
Proof.
  destruct (showModalHandler_cases m) as [H|(b & p & Hb & Hp & Ho)]; [by rewrite !H|].
  apply showModalHandler_skip. right; right.
  by apply (showModalHandler_isOpen m b p).
Qed.



(** Outside the two style properties of the two elements, nothing that a
    handler's writes go through is touched. *)
Lemma write_chain_frame (m : state) (b p n : nat) (prop v1 v2 : string) :
  (Some n ≠ Some b ∧ Some n ≠ Some p) ∨ (prop ≠ "opacity" ∧ prop ≠ "pointerEvents") →
  style_get prop (el_state (elements
    (m |> write_style b "opacity" v1 |> write_style b "pointerEvents" v2
       |> write_style p "opacity" v1 |> write_style p "pointerEvents" v2)) n)
  = style_get prop (el_state (elements m) n).
Proof.
  intros Hout. rewrite !write_style_get.
  repeat case_decide; naive_solver.
Qed.

Lemma write_chain_listeners (m : state) (b p n : nat) (v1 v2 : string) :
  listeners (el_state (elements
    (m |> write_style b "opacity" v1 |> write_style b "pointerEvents" v2
       |> write_style p "opacity" v1 |> write_style p "pointerEvents" v2)) n)
  = listeners (el_state (elements m) n).
Proof. by rewrite !write_style_listeners. Qed.

(** What is rendered depends on the shadow tree and the inline styles only. *)
Lemma computedStyle_ext (m m' : state) (sel prop : string) :
  shadowRoot m' = shadowRoot m →
  (∀ n, style_get prop (el_state (elements m') n) = style_get prop (el_state (elements m) n)) →
  computedStyle sel prop m' = computedStyle sel prop m.
Proof.
  intros Hsr Hst. unfold computedStyle. rewrite Hsr.
  destruct (shadowRoot m ≫= queryHandle sel); [|done]. by rewrite Hst.
Qed.

Lemma presentation_ext (m m' : state) :
  shadowRoot m' = shadowRoot m →
  (∀ n q, style_get q (el_state (elements m') n) = style_get q (el_state (elements m) n)) →
  presentation m' = presentation m.
Proof.
  intros Hsr Hst. unfold presentation.
  by rewrite !(computedStyle_ext m m') by done.
Qed.

Lemma on_element_listeners_style (c n : nat) (q : string) f (m : state) :
  style_get q (el_state (elements (on_element c (with_listeners f) m)) n)
  = style_get q (el_state (elements m) n).
Proof.
  unfold on_element; simpl. rewrite el_state_insert.
  by case_decide; subst.
Qed.

Lemma computedStyle_template (m : state) (sel prop : string) (n : nat) :
  shadowRoot m = Some template → queryHandle sel template = Some n →
  computedStyle sel prop m
  = let inline := style_get prop (el_state (elements m) n) in
    if String.eqb inline ""
    then default "" (assoc sel stylesheet ≫= assoc (css_property prop))
    else inline.
Proof. intros Hsr Hq. unfold computedStyle. rewrite Hsr. simpl. by rewrite Hq. Qed.

Lemma presentation_after_writes (m : state) (v1 v2 : string) :
  shadowRoot m = Some template → v1 ≠ "" → v2 ≠ "" →
  presentation
    (m |> write_style 1 "opacity" v1 |> write_style 1 "pointerEvents" v2
       |> write_style 2 "opacity" v1 |> write_style 2 "pointerEvents" v2)
  = mkPresentation v1 v2 v1 v2.
Proof.
  intros Hsr H1 H2. unfold presentation.
  rewrite !(computedStyle_template _ "#backdrop" _ 1) by done.
  rewrite !(computedStyle_template _ "#modal" _ 2) by done.
  cbv zeta. rewrite !write_style_get. decide_writes.
  apply String.eqb_neq in H1, H2. by rewrite H1, H2.
Qed.

Lemma consistent_constructor : consistent constructor.
Proof. repeat split; auto. Qed.

Lemma consistent_showModalHandler (m : state) :
  consistent m → consistent (showModalHandler m).
Proof.
  intros (Hsr & Hb & Hp & Hpres).
  destruct (showModalHandler_cases m) as [->|(b & p & Eb & Ep & Eo)]; [done|].
  rewrite (showModalHandler_run m b p) by done.
  destruct Hb as [Hb|Hb]; [congruence|]. destruct Hp as [Hp|Hp]; [congruence|].
  rewrite Eb in Hb. rewrite Ep in Hp. injection Hb as ->. injection Hp as ->.
  repeat split; auto.
  by rewrite (presentation_after_writes (set_isOpen true m)).
Qed.

Lemma consistent_hideModalHandler (m : state) :
  consistent m → consistent (hideModalHandler m).
Proof.
  intros (Hsr & Hb & Hp & Hpres).
  destruct (hideModalHandler_cases m) as [->|(b & p & Eb & Ep & Eo)]; [done|].
  rewrite (hideModalHandler_run m b p) by done.
  destruct Hb as [Hb|Hb]; [congruence|]. destruct Hp as [Hp|Hp]; [congruence|].
  rewrite Eb in Hb. rewrite Ep in Hp. injection Hb as ->. injection Hp as ->.
  repeat split; auto.
  by rewrite (presentation_after_writes (set_isOpen false m)).
Qed.

Lemma consistent_dispatchEvent (e : Event) (m : state) :
  consistent m → consistent (dispatchEvent e m).
Proof. done. Qed.

Lemma consistent_invoke (cb : Callback Method) (m : state) :
  consistent m → consistent (invoke cb m).
Proof.
  intros Hm. destruct cb as [| [] ?| |]; simpl; try done.
  - by apply consistent_showModalHandler.
  - by apply consistent_hideModalHandler.
  - by apply consistent_dispatchEvent, consistent_hideModalHandler.
  - by apply consistent_dispatchEvent, consistent_hideModalHandler.
Qed.

Lemma consistent_fire (type : string) (n : nat) (m : state) :
  consistent m → consistent (fire type n m).
Proof.
  unfold fire. generalize (listening type (listeners (el_state (elements m) n))).
  intros cbs. revert m.
  induction cbs as [|cb cbs IH]; intros m Hm; simpl; [done|].
  by apply IH, consistent_invoke.
Qed.

Lemma consistent_on_listeners (c : nat) f (m : state) :
  consistent m → consistent (on_element c (with_listeners f) m).
Proof.
  intros (Hsr & Hb & Hp & Hpres). repeat split; try done.
  rewrite (presentation_ext m); [done|done|].
  intros n q. apply on_element_listeners_style.
Qed.

Lemma consistent_connectedCallback (m : state) :
  consistent m → consistent (connectedCallback m).
Proof.
  intros Hm. unfold connectedCallback.
  destruct Hm as (Hsr & Hb & Hp & Hpres). rewrite Hsr.
  set (m1 := set_refs _ _ _ _ m).
  assert (consistent m1) as H1 by (repeat split; auto).
  assert (consistent
    match cancelButton m1 with
    | Some c =>
        let '(f, m') := bind CancelClick m1 in
        on_element c (with_listeners (addEventListener "click" f)) m'
    | None => m1
    end) as H2.
  { destruct (cancelButton m1); [|done]. simpl.
    by apply consistent_on_listeners. }
  revert H2. generalize (match cancelButton m1 with
    | Some c =>
        let '(f, m') := bind CancelClick m1 in
        on_element c (with_listeners (addEventListener "click" f)) m'
    | None => m1
    end). intros m2 H2.
  destruct (confirmButton m2); [|done]. simpl.
  by apply consistent_on_listeners.
Qed.

Lemma consistent_disconnectedCallback (m : state) :
  consistent m → consistent (disconnectedCallback m).
Proof.
  intros Hm. unfold disconnectedCallback.
  assert (consistent
    match cancelButton m with
    | Some c =>
        on_element c (with_listeners (removeEventListener "click" (Proto CancelClick))) m
    | None => m
    end) as H1.
  { destruct (cancelButton m); [|done]. by apply consistent_on_listeners. }
  revert H1. generalize (match cancelButton m with
    | Some c =>
        on_element c (with_listeners (removeEventListener "click" (Proto CancelClick))) m
    | None => m
    end). intros m1 H1.
  destruct (confirmButton m1); [|done]. by apply consistent_on_listeners.
Qed.

Lemma consistent_attributeChangedCallback (name : string) (o v : JsValue) (m : state) :
  consistent m → consistent (attributeChangedCallback name o v m).
Proof.
  intros Hm. unfold attributeChangedCallback.
  destruct (String.eqb name "open"); [|done].
  destruct (strict_eq v (JBool (isOpen m))); [done|].
  destruct (truthy v).
  - by apply consistent_showModalHandler.
  - by apply consistent_hideModalHandler.
Qed.

Lemma consistent_step (m : state) (a : Action) :
  consistent m → consistent (step m a).
Proof.
  intros Hm. destruct a; simpl.
  - by apply consistent_connectedCallback.
  - by apply consistent_disconnectedCallback.
  - unfold setAttribute. case_bool_decide; [|done].
    by apply consistent_attributeChangedCallback.
  - unfold removeAttribute. destruct (attributes m !! name); [|done].
    case_bool_decide; [|done].
    by apply consistent_attributeChangedCallback.
  - unfold click. destruct (shadowRoot m ≫= queryHandle "#cancel-button"); [|done].
    by apply consistent_fire.
  - unfold click. destruct (shadowRoot m ≫= queryHandle "#confirm-button"); [|done].
    by apply consistent_fire.
Qed.

Lemma consistent_run (acts : list Action) : consistent (run acts).
Proof.
  unfold run. generalize consistent_constructor. generalize constructor.
  induction acts as [|a acts IH]; intros m Hm; simpl; [done|].
  by apply IH, consistent_step.
Qed.

Lemma showModalHandler_fields (m : state) : same_fields m (showModalHandler m).
Proof.
  destruct (showModalHandler_cases m) as [->|(b & p & Eb & Ep & Eo)].
  - by repeat split.
  - rewrite (showModalHandler_run m b p) by done. by repeat split.
Qed.

Lemma hideModalHandler_fields (m : state) : same_fields m (hideModalHandler m).
Proof.
  destruct (hideModalHandler_cases m) as [->|(b & p & Eb & Ep & Eo)].
  - by repeat split.
  - rewrite (hideModalHandler_run m b p) by done. by repeat split.
Qed.

(** Signals: only the two click handlers emit, one plain event each. *)
Lemma signals_log (e : Effect) (m : state) :
  signals (log e m)
  = signals m ++ match e with Dispatched ev _ _ => [ev] | _ => [] end.
Proof. unfold signals, log; simpl. rewrite omap_app. by destruct e. Qed.

Lemma signals_write_style (n : nat) (p v : string) (m : state) :
  signals (write_style n p v m) = signals m.
Proof. unfold write_style. rewrite signals_log. simpl. by rewrite app_nil_r. Qed.

Lemma signals_showModalHandler (m : state) : signals (showModalHandler m) = signals m.
Proof.
  destruct (showModalHandler_cases m) as [->|(b & p & Eb & Ep & Eo)]; [done|].
  rewrite (showModalHandler_run m b p) by done. by rewrite !signals_write_style.
Qed.

Lemma signals_hideModalHandler (m : state) : signals (hideModalHandler m) = signals m.
Proof.
  destruct (hideModalHandler_cases m) as [->|(b & p & Eb & Ep & Eo)]; [done|].
  rewrite (hideModalHandler_run m b p) by done. by rewrite !signals_write_style.
Qed.

Lemma signals_cancelClickHandler (m : state) :
  signals (cancelClickHandler m) = signals m ++ [newEvent "cancel"].
Proof.
  unfold cancelClickHandler, dispatchEvent.
  by rewrite signals_log, signals_hideModalHandler.
Qed.

Lemma signals_confirmClickHandler (m : state) :
  signals (confirmClickHandler m) = signals m ++ [newEvent "confirm"].
Proof.
  unfold confirmClickHandler, dispatchEvent.
  by rewrite signals_log, signals_hideModalHandler.
Qed.

Lemma modal_signals_invoke (cb : Callback Method) (m : state) :
  Forall modal_signal (signals m) → Forall modal_signal (signals (invoke cb m)).
Proof.
  intros Hm. destruct cb as [| [] ?| |]; simpl; try done.
  - by rewrite signals_showModalHandler.
  - by rewrite signals_hideModalHandler.
  - rewrite signals_cancelClickHandler. apply Forall_app. split; [done|].
    apply Forall_singleton. by right.
  - rewrite signals_confirmClickHandler. apply Forall_app. split; [done|].
    apply Forall_singleton. by left.
Qed.

Lemma modal_signals_fire (type : string) (n : nat) (m : state) :
  Forall modal_signal (signals m) → Forall modal_signal (signals (fire type n m)).
Proof.
  unfold fire. generalize (listening type (listeners (el_state (elements m) n))).
  intros cbs. revert m.
  induction cbs as [|cb cbs IH]; intros m Hm; simpl; [done|].
  by apply IH, modal_signals_invoke.
Qed.

Lemma signals_connectedCallback (m : state) :
  signals (connectedCallback m) = signals m.
Proof.
  unfold signals. f_equal. unfold connectedCallback, bind.
  repeat (case_match; simpl); done.
Qed.

Lemma signals_disconnectedCallback (m : state) :
  signals (disconnectedCallback m) = signals m.
Proof.
  unfold signals. f_equal. unfold disconnectedCallback.
  repeat (case_match; simpl); done.
Qed.

Lemma signals_attributeChangedCallback (name : string) (o v : JsValue) (m : state) :
  signals (attributeChangedCallback name o v m) = signals m.
Proof.
  unfold attributeChangedCallback.
  destruct (String.eqb name "open"); [|done].
  destruct (strict_eq v (JBool (isOpen m))); [done|].
  destruct (truthy v).
  - apply signals_showModalHandler.
  - apply signals_hideModalHandler.
Qed.

Lemma modal_signals_step (m : state) (a : Action) :
  Forall modal_signal (signals m) → Forall modal_signal (signals (step m a)).
Proof.
  intros Hm. destruct a; simpl.
  - by rewrite signals_connectedCallback.
  - by rewrite signals_disconnectedCallback.
  - unfold setAttribute. case_bool_decide; [|done].
    by rewrite signals_attributeChangedCallback.
  - unfold removeAttribute. destruct (attributes m !! name); [|done].
    case_bool_decide; [|done]. by rewrite signals_attributeChangedCallback.
  - unfold click. destruct (shadowRoot m ≫= queryHandle "#cancel-button"); [|done].
    by apply modal_signals_fire.
  - unfold click. destruct (shadowRoot m ≫= queryHandle "#confirm-button"); [|done].
    by apply modal_signals_fire.
Qed.

Lemma modal_signals_run (acts : list Action) : Forall modal_signal (signals (run acts)).
Proof.
  unfold run.
  assert (Forall modal_signal (signals constructor)) as H0 by constructor.
  revert H0. generalize constructor.
  induction acts as [|a acts IH]; intros m Hm; simpl; [done|].
  by apply IH, modal_signals_step.
Qed.

(** The click handlers at the level of one call: the hide transition comes
    first, and the signal is sent from the hidden state. *)
Lemma confirmClickHandler_order (m : state) (b p : nat) :
  backdropElement m = Some b → modalElement m = Some p →
  isOpen (confirmClickHandler m) = false ∧
  trace (confirmClickHandler m)
  = trace (hideModalHandler m)
    ++ [Dispatched (newEvent "confirm") false (presentation (hideModalHandler m))].
Proof.
  intros Hb Hp. unfold confirmClickHandler, dispatchEvent; simpl.
  by rewrite (hideModalHandler_isOpen m b p).
Qed.

Lemma cancelClickHandler_order (m : state) (b p : nat) :
  backdropElement m = Some b → modalElement m = Some p →
  isOpen (cancelClickHandler m) = false ∧
  trace (cancelClickHandler m)
  = trace (hideModalHandler m)
    ++ [Dispatched (newEvent "cancel") false (presentation (hideModalHandler m))].
Proof.
  intros Hb Hp. unfold cancelClickHandler, dispatchEvent; simpl.
  by rewrite (hideModalHandler_isOpen m b p).
Qed.

(** On an instance never shown the inline declarations are not set and the
    style sheet hides the two elements; after [show()] and [hide()] they are
    set, to the values the style sheet gave. *)
Lemma inline_styles_round_trip_fresh :
  let m := run [Connect] in
  let m' := hideModalHandler (showModalHandler m) in
  style_get "opacity" (el_state (elements m) 1) = "" ∧
  style_get "pointerEvents" (el_state (elements m) 1) = "" ∧
  style_get "opacity" (el_state (elements m') 1) = "0" ∧
  style_get "pointerEvents" (el_state (elements m') 1) = "none" ∧
  presentation m = hidden_presentation ∧ presentation m' = hidden_presentation.
Proof. vm_compute. by repeat split. Qed.

(** On an instance attached once, one activation of the confirm button
    hides the modal and then sends one signal, seen from the hidden state. *)
Lemma click_confirm_attached_once :
  let m := run [Connect; SetAttribute "open" "true"] in
  let m' := click "#confirm-button" m in
  isOpen m = true ∧ presentation m = shown_presentation ∧
  isOpen m' = false ∧ presentation m' = hidden_presentation ∧
  trace m'
  = trace m
    ++ [ StyleWrite 1 "opacity" "0"; StyleWrite 1 "pointerEvents" "none";
         StyleWrite 2 "opacity" "0"; StyleWrite 2 "pointerEvents" "none";
         Dispatched (newEvent "confirm") false hidden_presentation ].
Proof. vm_compute. by repeat split. Qed.

(** With one listener on the button, an activation is one call. *)
Lemma click_single_listener (sel : string) (n k : nat) (meth : Method) (m : state) :
  shadowRoot m ≫= queryHandle sel = Some n →
  click_listeners n m = [Bound meth k] →
  click sel m = invoke (Bound meth k) m.
Proof. unfold click, fire, click_listeners. by intros -> ->. Qed.

(** Detaching hands [removeEventListener] the unbound methods, so it
    removes nothing from an element that carries no such listener. *)
Lemma on_element_remove_proto (c n : nat) (type : string) (meth : Method) (m : state) :
  Forall (λ l, l_callback l ≠ Proto meth) (listeners (el_state (elements m) c)) →
  listeners (el_state (elements
    (on_element c (with_listeners (removeEventListener type (Proto meth))) m)) n)
  = listeners (el_state (elements m) n).
Proof.
  intros Hc. unfold on_element; simpl. rewrite el_state_insert.
  case_decide; [subst n|done]. simpl.
  by apply removeEventListener_other.
Qed.

Lemma disconnectedCallback_removes_nothing (m : state) (n : nat) :
  (∀ k meth, Forall (λ l, l_callback l ≠ Proto meth) (listeners (el_state (elements m) k))) →
  listeners (el_state (elements (disconnectedCallback m)) n)
  = listeners (el_state (elements m) n).
Proof.
  intros Hm. unfold disconnectedCallback.
  set (m1 := match cancelButton m with Some c => _ | None => m end).
  assert (∀ k, listeners (el_state (elements m1) k)
               = listeners (el_state (elements m) k)) as H1.
  { intros k. subst m1. destruct (cancelButton m) as [c|]; [|done].
    by apply on_element_remove_proto. }
  destruct (confirmButton m1) as [k|]; [|by apply H1].
  rewrite on_element_remove_proto; [by apply H1|].
  by rewrite H1.
Qed.

End ModalFacts.

Section TooltipFacts.
Import Tooltip.

Lemma append_empty (s : string) : String.append s "" = s.
Proof.
  induction s as [|a s IH]; [done|].
  change (String a (String.append s "") = String a s). by rewrite IH.
Qed.

(** The created node carries the text of the moment. *)
Lemma textContent_createContainer (i : nat) (v : JsValue) :
  textContent (createContainer i v) = to_text v.
Proof.
  unfold createContainer, text_children; simpl.
  destruct (String.eqb (to_text v) "") eqn:He; simpl.
  - by apply String.eqb_eq in He.
  - apply append_empty.
Qed.

(** [show()] is unconditional: a new node each time, mounted whenever
    there is a shadow root. *)
Lemma showTooltipHandler_shadowRoot (t : state) :
  shadowRoot (showTooltipHandler t)
  = (λ root, root ++ [createContainer (nextNode t) (text t)]) <$> shadowRoot t.
Proof.
  unfold showTooltipHandler, appendChild; simpl.
  destruct (shadowRoot t) eqn:Hsr; simpl; by rewrite ?Hsr.
Qed.

Lemma showTooltipHandler_containerElement (t : state) :
  containerElement (showTooltipHandler t) = Some (createContainer (nextNode t) (text t)).
Proof.
  unfold showTooltipHandler, appendChild; simpl.
  destruct (shadowRoot t) eqn:Hsr; simpl; by rewrite ?Hsr.
Qed.

Lemma showTooltipHandler_nextNode (t : state) :
  nextNode (showTooltipHandler t) = S (nextNode t).
Proof.
  unfold showTooltipHandler, appendChild; simpl.
  destruct (shadowRoot t) eqn:Hsr; simpl; by rewrite ?Hsr.
Qed.

Lemma showTooltipHandler_mounted (t : state) :
  mounted (showTooltipHandler t)
  = mounted t ++ match shadowRoot t with
                 | Some _ => [createContainer (nextNode t) (text t)]
                 | None => []
                 end.
Proof.
  unfold mounted. rewrite showTooltipHandler_shadowRoot.
  destruct (shadowRoot t) as [root|]; simpl; [|done].
  by rewrite filter_app.
Qed.

Lemma hideTooltipHandler_skip (t : state) :
  containerElement t = None ∨ shadowRoot t = None →
  hideTooltipHandler t = Normal t.
Proof.
  unfold hideTooltipHandler. intros [H|H]; rewrite H; [done|].
  by destruct (containerElement t).
Qed.

(** Unmounting the node that was mounted last. *)
Lemma removeChild_fresh (k : nat) (c : Node) (root : list Node) :
  node_id c = Some k → Forall (older k) root →
  removeChild c (root ++ [c]) = Normal root.
Proof.
  intros Hc Hroot. unfold removeChild.
  assert (same_node c c = true) as Hcc.
  { unfold same_node. rewrite Hc. apply Nat.eqb_refl. }
  rewrite existsb_app. simpl. rewrite Hcc. simpl. rewrite orb_true_r.
  f_equal. induction Hroot as [|n root Hn _ IH]; simpl.
  - by rewrite Hcc.
  - assert (same_node c n = false) as ->; [|by rewrite IH].
    unfold same_node, older in *. rewrite Hc.
    destruct (node_id n) as [i|]; [|done].
    apply Nat.eqb_neq. lia.
Qed.

Lemma remove_first_Forall (P : Node → Prop) (c : Node) (root : list Node) :
  Forall P root → Forall P (remove_first c root).
Proof.
  induction 1 as [|n root Hn Hroot IH]; simpl; [done|].
  destruct (same_node c n); [done|by constructor].
Qed.

Lemma older_mono (k k' : nat) (n : Node) : (k ≤ k')%nat → older k n → older k' n.
Proof. unfold older. destruct (node_id n); [lia|done]. Qed.

(** Preservation of [well_formed]. *)
Lemma well_formed_showTooltipHandler (t : state) :
  well_formed t → well_formed (showTooltipHandler t).
Proof.
  intros (root & Hsr & Hall).
  exists (root ++ [createContainer (nextNode t) (text t)]). split.
  - by rewrite showTooltipHandler_shadowRoot, Hsr.
  - rewrite showTooltipHandler_nextNode. apply Forall_app. split.
    + eapply Forall_impl; [done|]. intros n. apply older_mono. lia.
    + apply Forall_singleton. unfold older; simpl. lia.
Qed.

Lemma well_formed_hideTooltipHandler (t t' : state) :
  well_formed t → hideTooltipHandler t = Normal t' → well_formed t'.
Proof.
  intros (root & Hsr & Hall). unfold hideTooltipHandler. rewrite Hsr.
  destruct (containerElement t) as [c|]; [|by intros [= <-]; exists root].
  unfold removeChild. destruct (existsb (same_node c) root); [|done].
  intros [= <-]. exists (remove_first c root). split; [done|].
  by apply remove_first_Forall.
Qed.

Lemma well_formed_invoke (cb : Callback Method) (t : state) :
  well_formed t →
  well_formed match invoke cb t with Normal t' => t' | Throw e => report e t end.
Proof.
  intros Ht. destruct (invoke cb t) as [t'|e] eqn:Hi; [|done].
  destruct cb as [| [] ?| |]; simpl in Hi; try (by injection Hi as <-).
  - injection Hi as <-. by apply well_formed_showTooltipHandler.
  - by apply (well_formed_hideTooltipHandler t).
Qed.

Lemma well_formed_fire (type : string) (n : nat) (t : state) :
  well_formed t → well_formed (fire type n t).
Proof.
  unfold fire. generalize (listening type (listeners (el_state (elements t) n))).
  intros cbs. revert t.
  induction cbs as [|cb cbs IH]; intros t Ht; simpl; [done|].
  by apply IH, well_formed_invoke.
Qed.

Lemma well_formed_same (t t' : state) :
  shadowRoot t' = shadowRoot t → nextNode t' = nextNode t →
  well_formed t → well_formed t'.
Proof. intros Hs Hn (root & Hsr & Hall). exists root. by rewrite Hs, Hn. Qed.

Lemma connectedCallback_tree (t : state) :
  shadowRoot (connectedCallback t) = shadowRoot t ∧
  nextNode (connectedCallback t) = nextNode t.
Proof. unfold connectedCallback, bind. repeat (case_match; simpl); done. Qed.

Lemma disconnectedCallback_tree (t : state) :
  shadowRoot (disconnectedCallback t) = shadowRoot t ∧
  nextNode (disconnectedCallback t) = nextNode t.
Proof. unfold disconnectedCallback, bind. repeat (case_match; simpl); done. Qed.

Lemma attributeChangedCallback_tree (name : string) (o v : JsValue) (t : state) :
  shadowRoot (attributeChangedCallback name o v t) = shadowRoot t ∧
  nextNode (attributeChangedCallback name o v t) = nextNode t.
Proof. unfold attributeChangedCallback. repeat (case_match; simpl); done. Qed.

Lemma well_formed_step (t : state) (a : Action) :
  well_formed t → well_formed (step t a).
Proof.
  intros Ht. destruct a; simpl.
  - eapply well_formed_same; [apply connectedCallback_tree..|done].
  - eapply well_formed_same; [apply disconnectedCallback_tree..|done].
  - unfold setAttribute. case_bool_decide; [|done].
    eapply well_formed_same; [apply attributeChangedCallback_tree..|done].
  - unfold removeAttribute. destruct (attributes t !! name); [|done].
    case_bool_decide; [|done].
    eapply well_formed_same; [apply attributeChangedCallback_tree..|done].
  - unfold pointer. destruct (shadowRoot t ≫= queryHandle "span"); [|done].
    by apply well_formed_fire.
  - unfold pointer. destruct (shadowRoot t ≫= queryHandle "span"); [|done].
    by apply well_formed_fire.
Qed.

Lemma well_formed_constructor : well_formed constructor.
Proof.
  exists template. split; [done|].
  unfold template, older; simpl. repeat constructor.
Qed.

Lemma well_formed_run (acts : list Action) : well_formed (run acts).
Proof.
  unfold run. generalize well_formed_constructor. generalize constructor.
  induction acts as [|a acts IH]; intros t Ht; simpl; [done|].
  by apply IH, well_formed_step.
Qed.


(** Setting the [text] attribute stores the new text, whatever it was. *)
Lemma setAttribute_text (v v' : string) (t : state) :
  attributes t !! "text" = Some v' → text t = JStr v' →
  setAttribute "text" v t
  = set_text (JStr v) (set_attributes (<["text" := v]> (attributes t)) t).
Proof.
  intros Ha Ht. unfold setAttribute, attributeChangedCallback.
  rewrite Ha. simpl. unfold strict_eq. case_bool_decide as Heq; [|done].
  injection Heq as ->. destruct t; simpl in *. by subst.
Qed.

Lemma showTooltipHandler_text (t : state) : text (showTooltipHandler t) = text t.
Proof.
  unfold showTooltipHandler; simpl.
  destruct (shadowRoot t) eqn:Hsr; simpl; by rewrite ?Hsr.
Qed.

(** Two calls of [show()] in a row mount two nodes. *)
Lemma showTooltipHandler_twice_mounted (t : state) :
  mounted (showTooltipHandler (showTooltipHandler t))
  = mounted t
    ++ match shadowRoot t with
       | Some _ =>
           [ createContainer (nextNode t) (text t);
             createContainer (S (nextNode t)) (text t) ]
       | None => []
       end.
Proof.
  rewrite !showTooltipHandler_mounted, showTooltipHandler_shadowRoot,
    showTooltipHandler_nextNode, showTooltipHandler_text.
  destruct (shadowRoot t); simpl; [|by rewrite !app_nil_r].
  by rewrite <- app_assoc.
Qed.

End TooltipFacts.

Section TooltipRenderFacts.
Import TooltipRender.

(** The handlers of this revision do to the fields they share what the
    handlers of the other revision do. *)
Lemma showTooltipHandler_core (t : state) :
  showTooltipHandler t = (mkTooltip (Tooltip.showTooltipHandler (core t)) true, None).
Proof.
  unfold showTooltipHandler, render, Tooltip.showTooltipHandler; simpl.
  by destruct (Tooltip.shadowRoot (core t)).
Qed.

Lemma hideTooltipHandler_core (t : state) :
  hideTooltipHandler t
  = match Tooltip.hideTooltipHandler (core t) with
    | Normal k => (mkTooltip k false, None)
    | Throw e => (mkTooltip (core t) false, Some e)
    end.
Proof.
  unfold hideTooltipHandler, render, Tooltip.hideTooltipHandler; simpl.
  destruct (Tooltip.containerElement (core t)) as [c|]; [|done].
  destruct (Tooltip.shadowRoot (core t)) as [root|]; [|done].
  by destruct (removeChild c root).
Qed.

Lemma invoke_core (cb : Callback Tooltip.Method) (t : state) :
  core (let '(t', e) := invoke cb t in report e t')
  = match Tooltip.invoke cb (core t) with
    | Normal k => k
    | Throw e => Tooltip.report e (core t)
    end.
Proof.
  destruct cb as [| [] ?| |]; simpl; try done.
  - by rewrite showTooltipHandler_core.
  - rewrite hideTooltipHandler_core.
    by destruct (Tooltip.hideTooltipHandler (core t)).
Qed.

Lemma fire_core (type : string) (n : nat) (t : state) :
  core (fire type n t) = Tooltip.fire type n (core t).
Proof.
  unfold fire, Tooltip.fire.
  generalize (listening type (listeners (el_state (Tooltip.elements (core t)) n))).
  intros cbs. revert t.
  induction cbs as [|cb cbs IH]; intros t; simpl; [done|].
  by rewrite IH, invoke_core.
Qed.

(** Apart from detaching, a step of this revision is a step of the other on
    the shared fields. *)
Lemma step_core (t : state) (a : Tooltip.Action) :
  a ≠ Tooltip.Disconnect → core (step t a) = Tooltip.step (core t) a.
Proof.
  intros Ha. destruct a; simpl; try done.
  - unfold setAttribute, Tooltip.setAttribute. by case_bool_decide.
  - unfold Tooltip.removeAttribute.
    destruct (Tooltip.attributes (core t) !! name); [|done].
    by case_bool_decide.
  - unfold pointer, Tooltip.pointer.
    destruct (Tooltip.shadowRoot (core t) ≫= queryHandle "span"); [|done].
    apply fire_core.
  - unfold pointer, Tooltip.pointer.
    destruct (Tooltip.shadowRoot (core t) ≫= queryHandle "span"); [|done].
    apply fire_core.
Qed.

Lemma foldl_core (acts : list Tooltip.Action) (t : state) :
  Tooltip.Disconnect ∉ acts →
  core (foldl step t acts) = foldl Tooltip.step (core t) acts.
Proof.
  revert t. induction acts as [|a acts IH]; intros t Hno; simpl; [done|].
  apply not_elem_of_cons in Hno as [Ha Hno].
  rewrite IH by done. by rewrite step_core.
Qed.

Lemma run_core (acts : list Tooltip.Action) :
  Tooltip.Disconnect ∉ acts → core (run acts) = Tooltip.run acts.
Proof. apply foldl_core. Qed.



End TooltipRenderFacts.

Section ConfirmHyperlinkFacts.
Import ConfirmHyperlink.

(** The hyperlink removes the function object it registered: a cycle of
    attachment and detachment gives back the listener list. *)
Lemma hyperlink_listener_released (a : state) :
  mkListener "click" clickHandlerRef false ∉ own_listeners a →
  disconnectedCallback (connectedCallback a) = a.
Proof.
  intros Hnew. destruct a as [ls]. unfold disconnectedCallback, connectedCallback.
  simpl in *. f_equal. by apply removeEventListener_add.
Qed.

(** Declining the prompt prevents the navigation; accepting leaves the
    event as it is. *)
Lemma clickHandler_guard (defaultPrevented : bool) :
  clickHandler false defaultPrevented = true ∧
  clickHandler true defaultPrevented = defaultPrevented.
Proof. done. Qed.

End ConfirmHyperlinkFacts.

(** * The claims *)
Section Claims.

(** C1, as stated, fails on the tooltip, in either revision: on an attached
    tooltip a second [show()] changes the shadow tree again and leaves two
    content nodes mounted. *)
Lemma C1_counterexample_tooltip_mounts_twice :
  let t := Tooltip.run [Tooltip.Connect] in
  let once := Tooltip.showTooltipHandler t in
  let twice := Tooltip.showTooltipHandler once in
  let r := TooltipRender.run [Tooltip.Connect] in
  let r_once := (TooltipRender.showTooltipHandler r).1 in
  let r_twice := (TooltipRender.showTooltipHandler r_once).1 in
  (Tooltip.iconElement t = Some 2 ∧
   Tooltip.shadowRoot twice ≠ Tooltip.shadowRoot once ∧
   length (Tooltip.mounted once) = 1 ∧
   length (Tooltip.mounted twice) = 2) ∧
  (TooltipRender.visible r_once = true ∧
   length (TooltipRender.mounted r_once) = 1 ∧
   length (TooltipRender.mounted r_twice) = 2).
Proof. vm_compute. repeat split; congruence. Qed.

(** C1, amended.  For every modal instance [show(); show()] leaves exactly
    the state [show()] leaves, ghost log of writes included: the guard on
    [isOpen] makes the second call a no-op.  The tooltip's [show()] has no
    guard in either revision: each call mounts one more freshly created
    content node carrying the current text, so two calls in succession add
    two nodes. *)
Theorem C1_show_twice (m : Modal.state) (t : Tooltip.state) (r : TooltipRender.state) :
  let two_nodes (k : Tooltip.state) :=
    match Tooltip.shadowRoot k with
    | Some _ =>
        [ Tooltip.createContainer (Tooltip.nextNode k) (Tooltip.text k);
          Tooltip.createContainer (S (Tooltip.nextNode k)) (Tooltip.text k) ]
    | None => []
    end in
  Modal.showModalHandler (Modal.showModalHandler m) = Modal.showModalHandler m ∧
  Tooltip.mounted (Tooltip.showTooltipHandler (Tooltip.showTooltipHandler t))
  = Tooltip.mounted t ++ two_nodes t ∧
  TooltipRender.mounted
    (TooltipRender.showTooltipHandler (TooltipRender.showTooltipHandler r).1).1
  = TooltipRender.mounted r ++ two_nodes (TooltipRender.core r).
Proof.
  intros two_nodes. split; [apply showModalHandler_idempotent|].
  split; [apply showTooltipHandler_twice_mounted|].
  rewrite !showTooltipHandler_core. simpl.
  apply showTooltipHandler_twice_mounted.
Qed.

(** C2 fails on the code: after one attach/detach cycle the modal's two
    buttons and the tooltip's icon still carry the listeners registered at
    attach time.  [disconnectedCallback] hands [removeEventListener] the
    unbound method (modal, tooltip with [render()]) or a newly bound
    function (tooltip), never the function object that was registered.  The
    confirm hyperlink, which keeps its callback in a field, does release
    its listener. *)
Theorem C2_listeners_survive_disconnect :
  let m := Modal.disconnectedCallback (Modal.connectedCallback Modal.constructor) in
  let t := Tooltip.disconnectedCallback (Tooltip.connectedCallback Tooltip.constructor) in
  let r := TooltipRender.disconnectedCallback
             (TooltipRender.connectedCallback TooltipRender.constructor) in
  let a := ConfirmHyperlink.disconnectedCallback
             (ConfirmHyperlink.connectedCallback ConfirmHyperlink.constructor) in
  let hover_listeners :=
    [ mkListener "mouseenter" (Bound Tooltip.ShowTooltip 0) false;
      mkListener "mouseleave" (Bound Tooltip.HideTooltip 1) false ] in
  (Modal.cancelButton m = Some 8 ∧ Modal.confirmButton m = Some 9 ∧
   Modal.click_listeners 8 m = [Bound Modal.CancelClick 0] ∧
   Modal.click_listeners 9 m = [Bound Modal.ConfirmClick 1]) ∧
  Tooltip.icon_listeners t = hover_listeners ∧
  Tooltip.icon_listeners (TooltipRender.core r) = hover_listeners ∧
  ConfirmHyperlink.own_listeners a = [].
Proof. vm_compute. by repeat split. Qed.

(** C3.  When the [open] attribute changes to a value whose truthiness is
    the current [isOpen], the callback leaves the instance as it is (no
    style write, no change of the flag); otherwise it is [show()] for a
    truthy value and [hide()] for any other. *)
Theorem C3_open_attribute_reconciled (m : Modal.state) (oldValue newValue : JsValue) :
  Modal.attributeChangedCallback "open" oldValue newValue m
  = if bool_decide (truthy newValue = Modal.isOpen m) then m
    else if truthy newValue then Modal.showModalHandler m
    else Modal.hideModalHandler m.
Proof.
  unfold Modal.attributeChangedCallback, strict_eq; simpl.
  case_bool_decide as Heq.
  - subst newValue; simpl. by rewrite bool_decide_eq_true_2.
  - destruct (truthy newValue) eqn:Ht, (Modal.isOpen m) eqn:Ho; simpl; try done.
    + apply showModalHandler_skip; auto.
    + apply hideModalHandler_skip; auto.
Qed.

(** C4 fails on the code, through the defect of C2: on an instance that was
    detached and attached again each button carries two bound click
    handlers, so one activation of the confirm button hides the modal and
    then sends two [confirm] signals, and one of the cancel button two
    [cancel] signals. *)
Theorem C4_signal_sent_twice_after_reattach :
  let m := Modal.run [Modal.Connect; Modal.Disconnect; Modal.Connect;
                      Modal.SetAttribute "open" "true"] in
  (Modal.backdropElement m = Some 1 ∧ Modal.modalElement m = Some 2 ∧
   Modal.isOpen m = true ∧ Modal.signals m = []) ∧
  Modal.click_listeners 9 m = [Bound Modal.ConfirmClick 1; Bound Modal.ConfirmClick 3] ∧
  Modal.isOpen (Modal.click "#confirm-button" m) = false ∧
  Modal.signals (Modal.click "#confirm-button" m)
  = [newEvent "confirm"; newEvent "confirm"] ∧
  Modal.signals (Modal.click "#cancel-button" m)
  = [newEvent "cancel"; newEvent "cancel"].
Proof. vm_compute. by repeat split. Qed.

(** C5 fails on the code for the tooltip, in either revision: after one
    hover the tooltip is hidden again but [containerElement] still refers to
    the unmounted node, so the next [hide()] asks the shadow root to remove
    a node that is not its child and fails with NotFoundError. *)
Theorem C5_tooltip_hide_when_hidden_throws :
  let hover := [Tooltip.Connect; Tooltip.MouseEnter; Tooltip.MouseLeave] in
  let t := Tooltip.run hover in
  let r := TooltipRender.run hover in
  (Tooltip.isVisible t = false ∧ Tooltip.mounted t = [] ∧ Tooltip.reported t = [] ∧
   Tooltip.hideTooltipHandler t = Throw NotFoundError ∧
   Tooltip.reported (Tooltip.step t Tooltip.MouseLeave) = [NotFoundError]) ∧
  (TooltipRender.visible r = false ∧ TooltipRender.mounted r = [] ∧
   (TooltipRender.hideTooltipHandler r).2 = Some NotFoundError).
Proof. vm_compute. by repeat split. Qed.



(** C7.  A tooltip built with [text] set to [s] and attached: hovering the
    icon mounts one content node whose text is [s]; leaving unmounts it;
    setting [text] to [s'] while not hovered leaves the shadow tree as it
    is; the node mounted by the next hover carries [s'].  The claim is the
    instance [s = "Hello"]; both revisions of the tooltip behave so. *)
Theorem C7_tooltip_text_scenario (s s' : string) :
  let hover := [Tooltip.SetAttribute "text" s; Tooltip.Connect; Tooltip.MouseEnter] in
  let leave := hover ++ [Tooltip.MouseLeave] in
  let change := leave ++ [Tooltip.SetAttribute "text" s'] in
  let again := change ++ [Tooltip.MouseEnter] in
  (Tooltip.textContent <$> Tooltip.mounted (Tooltip.run hover) = [s] ∧
   Tooltip.mounted (Tooltip.run leave) = [] ∧
   Tooltip.shadowRoot (Tooltip.run change) = Tooltip.shadowRoot (Tooltip.run leave) ∧
   Tooltip.textContent <$> Tooltip.mounted (Tooltip.run again) = [s']) ∧
  (Tooltip.textContent <$> TooltipRender.mounted (TooltipRender.run hover) = [s] ∧
   TooltipRender.mounted (TooltipRender.run leave) = [] ∧
   Tooltip.shadowRoot (TooltipRender.core (TooltipRender.run change))
   = Tooltip.shadowRoot (TooltipRender.core (TooltipRender.run leave)) ∧
   Tooltip.textContent <$> TooltipRender.mounted (TooltipRender.run again) = [s']).
Proof.
  intros hover leave change again.
  assert (Tooltip.textContent <$> Tooltip.mounted (Tooltip.run hover) = [s] ∧
          Tooltip.mounted (Tooltip.run leave) = [] ∧
          Tooltip.shadowRoot (Tooltip.run change) = Tooltip.shadowRoot (Tooltip.run leave) ∧
          Tooltip.textContent <$> Tooltip.mounted (Tooltip.run again) = [s']) as Hcore.
  { assert (Tooltip.run change
            = Tooltip.set_text (JStr s')
                (Tooltip.set_attributes
                   (<["text" := s']> (Tooltip.attributes (Tooltip.run leave)))
                   (Tooltip.run leave))) as Hchange
      by (by apply (setAttribute_text s' s)).
    assert (Tooltip.mounted (Tooltip.run again) = [Tooltip.createContainer 4 (JStr s')])
      as Hagain.
    { change (Tooltip.run again)
        with (Tooltip.step (Tooltip.run change) Tooltip.MouseEnter).
      by rewrite Hchange. }
    split; [exact (f_equal (λ x, [x]) (textContent_createContainer 3 (JStr s)))|].
    split; [reflexivity|]. split; [by rewrite Hchange|].
    rewrite Hagain.
    exact (f_equal (λ x, [x]) (textContent_createContainer 4 (JStr s'))). }
  split; [exact Hcore|].
  assert (∀ acts, acts = hover ∨ acts = leave ∨ acts = change ∨ acts = again →
                  TooltipRender.core (TooltipRender.run acts) = Tooltip.run acts) as Hsim.
  { intros acts Hacts. apply run_core. intros Hin.
    destruct Hacts as [-> | [-> | [-> | ->]]];
      repeat (apply elem_of_cons in Hin as [Hin|Hin]; [discriminate Hin|]);
      by apply elem_of_nil in Hin. }
  unfold TooltipRender.mounted. rewrite !Hsim by auto. exact Hcore.
Qed.

(** C8, as stated, fails on the tooltip, in either revision: on an instance
    that was never attached (icon reference unresolved) [show()] is not
    skipped, it creates the content node and mounts it. *)
Lemma C8_counterexample_tooltip_show_unattached :
  let t := Tooltip.constructor in
  let r := TooltipRender.constructor in
  (Tooltip.iconElement t = None ∧
   Tooltip.showTooltipHandler t ≠ t ∧
   Tooltip.mounted t = [] ∧
   Tooltip.mounted (Tooltip.showTooltipHandler t) = [Element 3 "div" [] []]) ∧
  (Tooltip.iconElement (TooltipRender.core r) = None ∧
   TooltipRender.mounted r = [] ∧
   TooltipRender.mounted (TooltipRender.showTooltipHandler r).1
   = [Element 3 "div" [] []]).
Proof.
  repeat split.
  intros H. apply (f_equal Tooltip.nextNode) in H. discriminate H.
Qed.

(** C8, amended.  On a modal whose backdrop or panel reference is
    unresolved, [show()] and [hide()] return without an error and leave the
    instance as it is.  On a tooltip, [hide()] does so when no content node
    was created yet or the shadow root is missing; [show()] does not look at
    the icon reference: unresolved or not, it creates the content node and
    mounts it whenever there is a shadow root. *)
Theorem C8_unresolved_references (m : Modal.state) (t : Tooltip.state) :
  (Modal.backdropElement m = None ∨ Modal.modalElement m = None →
   Modal.showModalHandler m = m ∧ Modal.hideModalHandler m = m) ∧
  (Tooltip.containerElement t = None ∨ Tooltip.shadowRoot t = None →
   Tooltip.hideTooltipHandler t = Normal t) ∧
  (Tooltip.iconElement t = None →
   Tooltip.shadowRoot (Tooltip.showTooltipHandler t)
   = (λ root, root ++ [Tooltip.createContainer (Tooltip.nextNode t) (Tooltip.text t)])
       <$> Tooltip.shadowRoot t).
Proof.
  split; [|split].
  - intros H. split.
    + apply showModalHandler_skip. tauto.
    + apply hideModalHandler_skip. tauto.
  - apply hideTooltipHandler_skip.
  - intros _. apply showTooltipHandler_shadowRoot.
Qed.

(** C8 at the instances the constructors build. *)
Lemma C8_unresolved_references_witness :
  (Modal.showModalHandler Modal.constructor = Modal.constructor ∧
   Modal.hideModalHandler Modal.constructor = Modal.constructor) ∧
  Tooltip.hideTooltipHandler Tooltip.constructor = Normal Tooltip.constructor ∧
  Tooltip.shadowRoot (Tooltip.showTooltipHandler Tooltip.constructor)
  = Some (Tooltip.template ++ [Element 3 "div" [] []]).
Proof.
  destruct (C8_unresolved_references Modal.constructor Tooltip.constructor)
    as (Hm & Hh & Hs).
  split; [apply Hm; left; reflexivity|].
  split; [apply Hh; left; reflexivity|].
  apply Hs. reflexivity.
Defined.

(** C9.  [show()] and [hide()] assign nothing but [isOpen] and the inline
    opacity and pointerEvents of the backdrop and of the panel: the four
    element references, the shadow tree, the host's attributes and projected
    content and the counter of bound functions are as before, so is every
    listener list, and so is every inline style property of every element
    other than these two properties of these two elements. *)
Theorem C9_show_hide_frame (m : Modal.state) (f : Modal.state → Modal.state)
    (n : nat) (prop : string) :
  f = Modal.showModalHandler ∨ f = Modal.hideModalHandler →
  Modal.same_fields m (f m) ∧
  listeners (el_state (Modal.elements (f m)) n)
  = listeners (el_state (Modal.elements m) n) ∧
  ((Some n ≠ Modal.backdropElement m ∧ Some n ≠ Modal.modalElement m)
   ∨ (prop ≠ "opacity" ∧ prop ≠ "pointerEvents") →
   style_get prop (el_state (Modal.elements (f m)) n)
   = style_get prop (el_state (Modal.elements m) n)).
Proof.
  intros [-> | ->].
  - split; [apply showModalHandler_fields|].
    destruct (showModalHandler_cases m) as [->|(b & p & Eb & Ep & Eo)]; [done|].
    rewrite (showModalHandler_run m b p) by done. split.
    + apply (write_chain_listeners (Modal.set_isOpen true m)).
    + rewrite Eb, Ep. apply (write_chain_frame (Modal.set_isOpen true m)).
  - split; [apply hideModalHandler_fields|].
    destruct (hideModalHandler_cases m) as [->|(b & p & Eb & Ep & Eo)]; [done|].
    rewrite (hideModalHandler_run m b p) by done. split.
    + apply (write_chain_listeners (Modal.set_isOpen false m)).
    + rewrite Eb, Ep. apply (write_chain_frame (Modal.set_isOpen false m)).
Qed.

(** C9 at an attached modal: [show()] leaves the confirm button's listeners
    and inline opacity, and the backdrop's inline display, as they are. *)
Lemma C9_show_hide_frame_witness :
  let m := Modal.run [Modal.Connect] in
  (Modal.same_fields m (Modal.showModalHandler m) ∧
   listeners (el_state (Modal.elements (Modal.showModalHandler m)) 9)
   = listeners (el_state (Modal.elements m) 9) ∧
   style_get "opacity" (el_state (Modal.elements (Modal.showModalHandler m)) 9)
   = style_get "opacity" (el_state (Modal.elements m) 9)) ∧
  style_get "display" (el_state (Modal.elements (Modal.showModalHandler m)) 1)
  = style_get "display" (el_state (Modal.elements m) 1).
Proof.
  split.
  - destruct (C9_show_hide_frame (Modal.run [Modal.Connect]) Modal.showModalHandler
                9 "opacity") as (Hf & Hl & Hs).
    + left. reflexivity.
    + split; [exact Hf|]. split; [exact Hl|].
      apply Hs. left. split; discriminate.
  - destruct (C9_show_hide_frame (Modal.run [Modal.Connect]) Modal.showModalHandler
                1 "display") as (_ & _ & Hs).
    + left. reflexivity.
    + apply Hs. right. split; discriminate.
Defined.

(** C10, as stated, fails: the [confirm] signal the modal sends is a plain
    event, and a listener registered for the capture phase on an ancestor
    of the modal is called for it. *)
Lemma C10_counterexample_capturing_ancestor :
  let m := Modal.run [Modal.Connect; Modal.SetAttribute "open" "true";
                      Modal.ClickConfirm] in
  let e := newEvent "confirm" in
  let ancestor : PathItem Modal.Method :=
    Ancestor [mkListener "confirm" (External 0) true] in
  Modal.signals m = [e] ∧
  deliveries e [] [ancestor] = [(Capturing, External 0)] ∧
  ancestor_deliveries (deliveries e [] [ancestor]) ≠ [].
Proof. vm_compute. by repeat split. Qed.

(** C10, amended.  Every signal a modal ever sends is [new Event("confirm")]
    or [new Event("cancel")]: it does not bubble, is not composed, cannot be
    cancelled and has no payload.  Dispatched at the modal it is delivered
    to the listeners on the modal itself and, on the way down, to the
    capturing listeners of its ancestors in the same tree; no other listener
    of an ancestor is called, and nothing beyond an enclosing shadow root
    is on its path. *)
Theorem C10_signals_plain_capture_only {M : Type} (acts : list Modal.Action)
    (e : Event) (target : list (Listener M)) (up : list (PathItem M)) :
  e ∈ Modal.signals (Modal.run acts) →
  Modal.modal_signal e ∧ Modal.plain e ∧
  (∀ ph cb, (ph, cb) ∈ deliveries e target up →
     (ph = AtTarget ∧ cb ∈ listening (e_type e) target) ∨
     (ph = Capturing ∧
      ∃ ls, ls ∈ event_path e up ∧ mkListener (e_type e) cb true ∈ ls)) ∧
  (∀ inner outer : list (PathItem M),
     event_path e (inner ++ ShadowBoundary :: outer) = event_path e inner).
Proof.
  intros He.
  pose proof (modal_signals_run acts) as Hall.
  rewrite Forall_forall in Hall. specialize (Hall e He).
  assert (Modal.plain e) as Hplain by (by destruct Hall as [-> | ->]).
  split; [done|]. split; [done|].
  destruct Hplain as (Hb & Hc & _). split.
  - intros ph cb. by apply deliveries_not_bubbling.
  - intros inner outer. by apply event_path_boundary.
Qed.

(** C10 at the [confirm] signal of a modal opened and confirmed once, with
    one listener on the modal and a bubble-phase listener on its parent. *)
Lemma C10_signals_plain_capture_only_witness :
  let e := newEvent "confirm" in
  let target : list (Listener Modal.Method) := [mkListener "confirm" (External 1) false] in
  let up : list (PathItem Modal.Method) :=
    [Ancestor [mkListener "confirm" (External 0) false]] in
  Modal.modal_signal e ∧ Modal.plain e ∧
  (∀ ph cb, (ph, cb) ∈ deliveries e target up →
     (ph = AtTarget ∧ cb ∈ listening (e_type e) target) ∨
     (ph = Capturing ∧
      ∃ ls, ls ∈ event_path e up ∧ mkListener (e_type e) cb true ∈ ls)) ∧
  (∀ inner outer : list (PathItem Modal.Method),
     event_path e (inner ++ ShadowBoundary :: outer) = event_path e inner).
Proof.
  apply (C10_signals_plain_capture_only
           [Modal.Connect; Modal.SetAttribute "open" "true"; Modal.ClickConfirm]).
  vm_compute. constructor.
Defined.

End Claims.

(** * Further properties of the components *)

Section ModalHistories.
Import Modal.

Lemma quiet_refl (m : state) : quiet m m.
Proof. by repeat split. Qed.

Lemma quiet_trans (m1 m2 m3 : state) : quiet m1 m2 → quiet m2 m3 → quiet m1 m3.
Proof.
  intros [(A1 & A2 & A3 & A4 & A5 & A6 & A7 & A8) L1]
         [(B1 & B2 & B3 & B4 & B5 & B6 & B7 & B8) L2].
  split; [repeat split; congruence|].
  intros n. by rewrite L2, L1.
Qed.

Lemma quiet_showModalHandler (m : state) : quiet m (showModalHandler m).
Proof.
  split; [apply showModalHandler_fields|]. intros n.
  destruct (showModalHandler_cases m) as [->|(b & p & Eb & Ep & Eo)]; [done|].
  rewrite (showModalHandler_run m b p) by done.
  apply (write_chain_listeners (set_isOpen true m)).
Qed.

Lemma quiet_hideModalHandler (m : state) : quiet m (hideModalHandler m).
Proof.
  split; [apply hideModalHandler_fields|]. intros n.
  destruct (hideModalHandler_cases m) as [->|(b & p & Eb & Ep & Eo)]; [done|].
  rewrite (hideModalHandler_run m b p) by done.
  apply (write_chain_listeners (set_isOpen false m)).
Qed.

Lemma quiet_dispatchEvent (e : Event) (m : state) : quiet m (dispatchEvent e m).
Proof. by repeat split. Qed.

Lemma quiet_invoke (cb : Callback Method) (m : state) : quiet m (invoke cb m).
Proof.
  destruct cb as [| [] ?| |]; simpl; try apply quiet_refl.
  - apply quiet_showModalHandler.
  - apply quiet_hideModalHandler.
  - eapply quiet_trans; [apply quiet_hideModalHandler|apply quiet_dispatchEvent].
  - eapply quiet_trans; [apply quiet_hideModalHandler|apply quiet_dispatchEvent].
Qed.

Lemma quiet_foldl_invoke (cbs : list (Callback Method)) (m : state) :
  quiet m (foldl (λ acc cb, invoke cb acc) m cbs).
Proof.
  revert m. induction cbs as [|cb cbs IH]; intros m; simpl; [apply quiet_refl|].
  eapply quiet_trans; [apply quiet_invoke|apply IH].
Qed.

Lemma quiet_click (sel : string) (m : state) : quiet m (click sel m).
Proof.
  unfold click. destruct (shadowRoot m ≫= queryHandle sel); [|apply quiet_refl].
  apply quiet_foldl_invoke.
Qed.

Lemma quiet_attributeChangedCallback (name : string) (o v : JsValue) (m : state) :
  quiet m (attributeChangedCallback name o v m).
Proof.
  unfold attributeChangedCallback.
  destruct (String.eqb name "open"); [|apply quiet_refl].
  destruct (strict_eq v (JBool (isOpen m))); [apply quiet_refl|].
  destruct (truthy v); [apply quiet_showModalHandler|apply quiet_hideModalHandler].
Qed.

(** [connectedCallback] on the tree of the constructor. *)
Lemma connectedCallback_template (m : state) :
  shadowRoot m = Some template →
  connectedCallback m
  = m |> set_refs (Some 1) (Some 2) (Some 8) (Some 9)
      |> set_nextFn (S (nextFn m))
      |> on_element 8 (with_listeners (addEventListener "click" (Bound CancelClick (nextFn m))))
      |> set_nextFn (S (S (nextFn m)))
      |> on_element 9
           (with_listeners (addEventListener "click" (Bound ConfirmClick (S (nextFn m))))).
Proof. intros Hsr. unfold connectedCallback. by rewrite Hsr. Qed.

Lemma bound_clicks_add (meth : Method) (k bound : nat) (ls : list (Listener Method)) :
  bound_clicks meth k bound ls →
  bound_clicks meth (S k) (S bound) (addEventListener "click" (Bound meth bound) ls).
Proof.
  intros [Hlen Hall]. unfold addEventListener.
  rewrite bool_decide_eq_false_2.
  - split; [rewrite length_app; simpl; lia|].
    apply Forall_app. split.
    + eapply Forall_impl; [done|]. intros l (j & -> & Hj). exists j. split; [done|lia].
    + apply Forall_singleton. exists bound. split; [done|lia].
  - intros Hin. rewrite Forall_forall in Hall.
    destruct (Hall _ Hin) as (j & [= ->] & Hj). lia.
Qed.

Lemma bound_clicks_mono (meth : Method) (k b b' : nat) (ls : list (Listener Method)) :
  (b ≤ b')%nat → bound_clicks meth k b ls → bound_clicks meth k b' ls.
Proof.
  intros Hb [Hlen Hall]. split; [done|].
  eapply Forall_impl; [done|]. intros l (j & -> & Hj). exists j. split; [done|lia].
Qed.

Lemma bound_clicks_not_proto (meth meth' : Method) (k b : nat) (ls : list (Listener Method)) :
  bound_clicks meth k b ls → Forall (λ l, l_callback l ≠ Proto meth') ls.
Proof.
  intros [_ Hall]. eapply Forall_impl; [done|]. by intros l (j & -> & _).
Qed.

(** The callbacks a click on such a button runs. *)
Lemma bound_clicks_listening (meth : Method) (k b : nat) (ls : list (Listener Method)) :
  bound_clicks meth k b ls →
  ∃ js, length js = k ∧ listening "click" ls = Bound meth <$> js.
Proof.
  intros [<- Hall].
  induction Hall as [|l ls (j & -> & _) _ (js & Hlen & IH)].
  - by exists [].
  - exists (j :: js). split; [simpl; by rewrite Hlen|].
    unfold listening in *. rewrite filter_cons_True by done.
    rewrite !fmap_cons. by rewrite IH.
Qed.

Lemma attached_times_quiet (k : nat) (m m' : state) :
  quiet m m' → attached_times k m → attached_times k m'.
Proof.
  intros [(Eb & Ep & Ec & Ek & Esr & _ & _ & Enf) Hl] (Hsr & Hrefs & H8 & H9).
  split; [congruence|]. split.
  - destruct k; unfold refs_after, resolved in *; rewrite Eb, Ep, Ec, Ek; done.
  - by rewrite Enf, !Hl.
Qed.

Lemma attached_times_constructor : attached_times 0 constructor.
Proof. repeat split; constructor. Qed.

Lemma attached_times_connectedCallback (k : nat) (m : state) :
  attached_times k m → attached_times (S k) (connectedCallback m).
Proof.
  intros (Hsr & _ & H8 & H9).
  rewrite connectedCallback_template by done.
  split; [done|]. split; [done|]. split.
  - unfold on_element; simpl. rewrite !el_state_insert; simpl.
    apply (bound_clicks_mono _ _ (S (nextFn m))); [lia|].
    by apply bound_clicks_add.
  - unfold on_element; simpl. rewrite !el_state_insert; simpl.
    apply bound_clicks_add. by apply (bound_clicks_mono _ _ (nextFn m)); [lia|].
Qed.

Lemma quiet_disconnectedCallback (k : nat) (m : state) :
  attached_times k m → quiet m (disconnectedCallback m).
Proof.
  intros (Hsr & Hrefs & H8 & H9). unfold disconnectedCallback.
  destruct k as [|k].
  - destruct Hrefs as (_ & _ & Hc & Hk). rewrite Hc, Hk. apply quiet_refl.
  - destruct Hrefs as (_ & _ & Hc & Hk). rewrite Hc. simpl. rewrite Hk.
    split; [by repeat split|]. intros n.
    rewrite on_element_remove_proto.
    + apply on_element_remove_proto. by eapply bound_clicks_not_proto.
    + rewrite on_element_remove_proto; by eapply bound_clicks_not_proto.
Qed.

Lemma attached_times_step (k : nat) (m : state) (a : Action) :
  attached_times k m →
  attached_times (if decide (a = Connect) then S k else k) (step m a).
Proof.
  intros Hm. destruct a; simpl.
  - by apply attached_times_connectedCallback.
  - eapply attached_times_quiet; [by eapply quiet_disconnectedCallback|done].
  - unfold setAttribute. case_bool_decide; [|done].
    eapply attached_times_quiet; [apply quiet_attributeChangedCallback|done].
  - unfold removeAttribute. destruct (attributes m !! name); [|done].
    case_bool_decide; [|done].
    eapply attached_times_quiet; [apply quiet_attributeChangedCallback|done].
  - eapply attached_times_quiet; [apply quiet_click|done].
  - eapply attached_times_quiet; [apply quiet_click|done].
Qed.

Lemma connects_snoc (acts : list Action) (a : Action) :
  connects (acts ++ [a]) = if decide (a = Connect) then S (connects acts) else connects acts.
Proof.
  unfold connects. rewrite filter_app, length_app.
  case_decide.
  - rewrite filter_cons_True by done. simpl. lia.
  - rewrite filter_cons_False by done. simpl. lia.
Qed.

Lemma run_snoc (acts : list Action) (a : Action) :
  run (acts ++ [a]) = step (run acts) a.
Proof. unfold run. by rewrite foldl_app. Qed.

Lemma attached_times_run (acts : list Action) :
  attached_times (connects acts) (run acts).
Proof.
  induction acts as [|a acts IH] using rev_ind.
  - apply attached_times_constructor.
  - rewrite run_snoc, connects_snoc. by apply attached_times_step.
Qed.

(** [hide()] leaves the flag set only when it is skipped for want of a
    reference. *)
Lemma isOpen_hideModalHandler_true (m : state) :
  isOpen (hideModalHandler m) = true →
  isOpen m = true ∧ (backdropElement m = None ∨ modalElement m = None).
Proof.
  destruct (hideModalHandler_cases m) as [H|(b & p & Eb & Ep & Eo)].
  - rewrite H. intros Ho. split; [done|].
    destruct (backdropElement m) as [b|] eqn:Eb; [|by left].
    destruct (modalElement m) as [p|] eqn:Ep; [|by right].
    pose proof (hideModalHandler_isOpen m b p Eb Ep) as Hf. congruence.
  - rewrite (hideModalHandler_isOpen m b p) by done. done.
Qed.

(** What [k] bound click handlers do, run one after the other. *)
Lemma foldl_click_isOpen (meth : Method) (js : list nat) (m : state) :
  click_method meth →
  isOpen (foldl (λ acc cb, invoke cb acc) m (Bound meth <$> js)) = true →
  isOpen m = true.
Proof.
  intros Hmeth. revert m. induction js as [|j js IH]; intros m; [done|].
  destruct Hmeth as [-> | ->]; simpl; intros Ho; apply IH in Ho; auto;
    by apply isOpen_hideModalHandler_true in Ho as [? _].
Qed.

Lemma foldl_click_closes (meth : Method) (js : list nat) (m : state) :
  click_method meth → is_Some (backdropElement m) → is_Some (modalElement m) →
  js ≠ [] →
  isOpen (foldl (λ acc cb, invoke cb acc) m (Bound meth <$> js)) = false.
Proof.
  intros Hmeth [b Hb] [p Hp] Hjs.
  destruct (isOpen (foldl _ m (Bound meth <$> js))) eqn:Ho; [|done].
  destruct js as [|j js]; [done|].
  destruct Hmeth as [-> | ->]; simpl in Ho;
    (apply foldl_click_isOpen in Ho; [|by (left + right)]);
    simpl in Ho; by rewrite (hideModalHandler_isOpen m b p) in Ho.
Qed.

Lemma foldl_click_signals (meth : Method) (ty : string) (js : list nat) (m : state) :
  (meth = CancelClick ∧ ty = "cancel" ∨ meth = ConfirmClick ∧ ty = "confirm") →
  signals (foldl (λ acc cb, invoke cb acc) m (Bound meth <$> js))
  = signals m ++ replicate (length js) (newEvent ty).
Proof.
  intros Hty. revert m. induction js as [|j js IH]; intros m; simpl.
  - by rewrite app_nil_r.
  - destruct Hty as [[-> ->] | [-> ->]]; simpl; rewrite IH.
    + rewrite signals_cancelClickHandler. by rewrite <- app_assoc.
    + rewrite signals_confirmClickHandler. by rewrite <- app_assoc.
Qed.

(** A click on a button of a reached state, spelled out. *)
Lemma click_reached (sel : string) (n : nat) (meth : Method) (k : nat) (m : state) :
  attached_times k m →
  (sel = "#cancel-button" ∧ n = 8 ∧ meth = CancelClick ∨
   sel = "#confirm-button" ∧ n = 9 ∧ meth = ConfirmClick) →
  ∃ js, length js = k ∧
        click sel m = foldl (λ acc cb, invoke cb acc) m (Bound meth <$> js).
Proof.
  intros (Hsr & _ & H8 & H9) Hsel. unfold click, fire. rewrite Hsr.
  destruct Hsel as [(-> & -> & ->) | (-> & -> & ->)]; simpl.
  - destruct (bound_clicks_listening _ _ _ _ H8) as (js & Hlen & ->). by exists js.
  - destruct (bound_clicks_listening _ _ _ _ H9) as (js & Hlen & ->). by exists js.
Qed.

(** Until the first attachment only the host's attribute map changes. *)
Lemma unattached_step (a : gmap string string) (act : Action) :
  act ≠ Connect →
  ∃ a', step (set_attributes a constructor) act = set_attributes a' constructor.
Proof.
  intros Hact. destruct act; simpl; try done.
  - by exists a.
  - unfold setAttribute. case_bool_decide; [|by eexists].
    unfold attributeChangedCallback. repeat case_match; try (by eexists).
  - unfold removeAttribute. simpl. destruct (a !! name); [|by eexists].
    case_bool_decide; [|by eexists].
    unfold attributeChangedCallback. repeat case_match; try (by eexists).
  - by exists a.
  - by exists a.
Qed.

Lemma unattached_setAttribute_open (a : gmap string string) (v : string) :
  setAttribute "open" v (set_attributes a constructor)
  = set_attributes (<["open" := v]> a) constructor.
Proof. unfold setAttribute, attributeChangedCallback. simpl. repeat case_match; done. Qed.

Lemma unattached_run (acts : list Action) :
  Connect ∉ acts →
  run acts = set_attributes (attributes (run acts)) constructor.
Proof.
  intros Hno.
  assert (∃ a, run acts = set_attributes a constructor) as [a Ha]; [|by rewrite Ha].
  induction acts as [|act acts IH] using rev_ind.
  - by exists ∅.
  - apply not_elem_of_app in Hno as [Hno Hact].
    destruct (IH Hno) as [a Ha]. rewrite run_snoc, Ha.
    apply unattached_step. intros ->. apply Hact. by apply list_elem_of_singleton.
Qed.

Lemma connects_positive (acts : list Action) :
  Connect ∈ acts → ∃ k, connects acts = S k.
Proof.
  intros Hin. unfold connects.
  destruct (filter (λ a, a = Connect) acts) as [|x xs] eqn:Hf.
  - assert (Connect ∈ filter (λ a, a = Connect) acts) as H
      by (by apply list_elem_of_filter).
    rewrite Hf in H. by apply elem_of_nil in H.
  - by exists (length xs).
Qed.

Lemma resolved_run (acts : list Action) : Connect ∈ acts → resolved (run acts).
Proof.
  intros Hin. destruct (connects_positive acts Hin) as [k Hk].
  pose proof (attached_times_run acts) as (_ & Hrefs & _). by rewrite Hk in Hrefs.
Qed.

Lemma isOpen_connectedCallback (m : state) : isOpen (connectedCallback m) = isOpen m.
Proof. unfold connectedCallback, bind. repeat (case_match; simpl); done. Qed.

Lemma isOpen_disconnectedCallback (m : state) : isOpen (disconnectedCallback m) = isOpen m.
Proof. unfold disconnectedCallback. repeat (case_match; simpl); done. Qed.

(** A change of [open] seen by an instance that may be unattached. *)
Lemma open_justified_attribute (o : JsValue) (v : option string) (m : state) :
  (isOpen m = true → is_Some (backdropElement m) ∧ is_Some (modalElement m)) →
  attributes m !! "open" = v →
  open_justified (attributeChangedCallback "open" o (opt_value v) m).
Proof.
  intros Hm Hv. unfold attributeChangedCallback. simpl.
  assert (strict_eq (opt_value v) (JBool (isOpen m)) = false) as ->
    by (by destruct v).
  destruct (truthy (opt_value v)) eqn:Ht.
  - intros Ho.
    destruct (quiet_showModalHandler m) as [(Eb & Ep & _ & _ & _ & Ea & _) _].
    rewrite Eb, Ep, Ea.
    assert (∃ s, attributes m !! "open" = Some s ∧ s ≠ "") as Hattr.
    { destruct v as [s|]; [|done]. exists s. split; [done|].
      simpl in Ht. intros ->. done. }
    destruct (showModalHandler_cases m) as [H|(b & p & Hb & Hp & _)].
    + rewrite H in Ho. destruct (Hm Ho) as (? & ?). done.
    + rewrite Hb, Hp. by repeat split.
  - intros Ho. apply isOpen_hideModalHandler_true in Ho as [Ho Hun].
    destruct (Hm Ho) as ([b Hb] & [p Hp]). destruct Hun; congruence.
Qed.

Lemma open_justified_step (k : nat) (m : state) (a : Action) :
  attached_times k m → open_justified m → open_justified (step m a).
Proof.
  intros Hk Hm. destruct a; simpl.
  - intros Ho. rewrite isOpen_connectedCallback in Ho.
    destruct (Hm Ho) as (_ & _ & Hattr).
    destruct Hk as (Hsr & _). rewrite connectedCallback_template by done.
    by repeat split.
  - intros Ho. rewrite isOpen_disconnectedCallback in Ho.
    destruct (quiet_disconnectedCallback k m Hk) as [(Eb & Ep & _ & _ & _ & Ea & _) _].
    rewrite Eb, Ep, Ea. by apply Hm.
  - unfold setAttribute. case_bool_decide as Hn.
    + apply list_elem_of_singleton in Hn as ->.
      apply (open_justified_attribute _ (Some value)).
      * intros Ho. by destruct (Hm Ho) as (Hb & Hp & _).
      * apply lookup_insert_eq.
    + intros Ho. destruct (Hm Ho) as (Hb & Hp & v & Hv & Hne).
      split; [done|]. split; [done|]. exists v. split; [|done].
      simpl. rewrite lookup_insert_ne; [done|].
      intros ->. apply Hn. by apply list_elem_of_singleton.
  - unfold removeAttribute. destruct (attributes m !! name) as [old|] eqn:Hold; [|done].
    case_bool_decide as Hn.
    + apply list_elem_of_singleton in Hn as ->.
      apply (open_justified_attribute _ None).
      * intros Ho. by destruct (Hm Ho) as (Hb & Hp & _).
      * apply lookup_delete_eq.
    + intros Ho. destruct (Hm Ho) as (Hb & Hp & v & Hv & Hne).
      split; [done|]. split; [done|]. exists v. split; [|done].
      simpl. rewrite lookup_delete_ne; [done|].
      intros ->. apply Hn. by apply list_elem_of_singleton.
  - destruct (click_reached "#cancel-button" 8 CancelClick k m Hk) as (js & _ & Hc);
      [by left|].
    intros Ho. rewrite Hc in Ho. apply foldl_click_isOpen in Ho; [|by left].
    destruct (quiet_click "#cancel-button" m) as [(Eb & Ep & _ & _ & _ & Ea & _) _].
    rewrite Eb, Ep, Ea. by apply Hm.
  - destruct (click_reached "#confirm-button" 9 ConfirmClick k m Hk) as (js & _ & Hc);
      [by right|].
    intros Ho. rewrite Hc in Ho. apply foldl_click_isOpen in Ho; [|by right].
    destruct (quiet_click "#confirm-button" m) as [(Eb & Ep & _ & _ & _ & Ea & _) _].
    rewrite Eb, Ep, Ea. by apply Hm.
Qed.

Lemma open_justified_run (acts : list Action) : open_justified (run acts).
Proof.
  induction acts as [|a acts IH] using rev_ind.
  - intros Ho. discriminate Ho.
  - rewrite run_snoc.
    by apply (open_justified_step (connects acts)); [apply attached_times_run|].
Qed.

Lemma run_snoc2 (acts : list Action) (a b : Action) :
  run (acts ++ [a; b]) = step (step (run acts) a) b.
Proof. unfold run. by rewrite foldl_app. Qed.


(** X2.  A modal is open only if it has been attached, all four references
    are resolved, and its [open] attribute is present and not empty. *)
Theorem X2_modal_open_only_if_attached (acts : list Action) :
  isOpen (run acts) = true →
  Connect ∈ acts ∧ resolved (run acts) ∧
  ∃ v, attributes (run acts) !! "open" = Some v ∧ v ≠ "".
Proof.
  intros Ho.
  assert (Connect ∈ acts) as Hin.
  { destruct (decide (Connect ∈ acts)) as [|Hno]; [done|].
    rewrite (unattached_run acts Hno) in Ho. discriminate Ho. }
  split; [done|]. split; [by apply resolved_run|].
  by destruct (open_justified_run acts Ho) as (_ & _ & ?).
Qed.

Lemma X2_modal_open_only_if_attached_witness :
  let acts := [Connect; SetAttribute "open" "yes"] in
  Connect ∈ acts ∧ resolved (run acts) ∧
  ∃ v, attributes (run acts) !! "open" = Some v ∧ v ≠ "".
Proof.
  apply (X2_modal_open_only_if_attached [Connect; SetAttribute "open" "yes"]).
  reflexivity.
Defined.

(** X3.  Until the first attachment nothing but the host's attribute map
    changes: whatever attributes are set or removed and whatever is clicked,
    the instance stays closed, unresolved, without a style write and without
    a signal. *)
Theorem X3_modal_unattached_is_inert (acts : list Action) :
  Connect ∉ acts →
  run acts = set_attributes (attributes (run acts)) constructor.
Proof. apply unattached_run. Qed.

Lemma X3_modal_unattached_is_inert_witness :
  let acts := [SetAttribute "open" "true"; ClickConfirm; Disconnect;
               RemoveAttribute "open"; SetAttribute "title" "x"] in
  run acts = set_attributes (attributes (run acts)) constructor.
Proof.
  apply (X3_modal_unattached_is_inert
           [SetAttribute "open" "true"; ClickConfirm; Disconnect;
            RemoveAttribute "open"; SetAttribute "title" "x"]).
  intros Hin.
  repeat (apply elem_of_cons in Hin as [Hin|Hin]; [discriminate Hin|]).
  by apply elem_of_nil in Hin.
Defined.

(** X4.  An [open] attribute given before the first attachment is never
    applied: attaching resolves the references and registers the click
    handlers but does not look at the attribute, so the instance is attached
    closed although the attribute is set. *)
Theorem X4_modal_attribute_before_attach_ignored (acts : list Action) (v : string) :
  Connect ∉ acts →
  let m := run (acts ++ [SetAttribute "open" v; Connect]) in
  attributes m !! "open" = Some v ∧ resolved m ∧
  isOpen m = false ∧ presentation m = hidden_presentation ∧ trace m = [].
Proof.
  intros Hno m. subst m.
  rewrite run_snoc2, (unattached_run acts Hno). simpl.
  rewrite unattached_setAttribute_open.
  split; [apply lookup_insert_eq|]. by repeat split.
Qed.

Lemma X4_modal_attribute_before_attach_ignored_witness :
  let m := run ([] ++ [SetAttribute "open" "true"; Connect]) in
  attributes m !! "open" = Some "true" ∧ resolved m ∧
  isOpen m = false ∧ presentation m = hidden_presentation ∧ trace m = [].
Proof.
  apply (X4_modal_attribute_before_attach_ignored [] "true").
  intros Hin. by apply elem_of_nil in Hin.
Defined.



(** X6.  [hide(); hide()] leaves exactly the state [hide()] leaves, log of
    writes included: the second call finds the flag cleared, or the
    references unresolved, and does nothing. *)
Theorem X6_modal_hide_twice (m : state) :
  hideModalHandler (hideModalHandler m) = hideModalHandler m.
Proof.
  destruct (hideModalHandler_cases m) as [H|(b & p & Hb & Hp & Ho)]; [by rewrite !H|].
  apply hideModalHandler_skip. right; right.
  by apply (hideModalHandler_isOpen m b p).
Qed.

(** X7.  Signals come from clicks only: attaching, detaching, setting and
    removing attributes never dispatch an event, whatever the state. *)
Theorem X7_modal_signals_only_from_clicks (m : state) (a : Action) :
  a ≠ ClickCancel → a ≠ ClickConfirm →
  signals (step m a) = signals m.
Proof.
  intros H1 H2. destruct a; simpl; try done.
  - apply signals_connectedCallback.
  - apply signals_disconnectedCallback.
  - unfold setAttribute. case_bool_decide; [|done].
    by rewrite signals_attributeChangedCallback.
  - unfold removeAttribute. destruct (attributes m !! name); [|done].
    case_bool_decide; [|done]. by rewrite signals_attributeChangedCallback.
Qed.

Lemma X7_modal_signals_only_from_clicks_witness :
  let m := run [Connect; SetAttribute "open" "true"; ClickConfirm] in
  signals (step m (RemoveAttribute "open")) = signals m.
Proof.
  apply (X7_modal_signals_only_from_clicks
           (run [Connect; SetAttribute "open" "true"; ClickConfirm])
           (RemoveAttribute "open")); discriminate.
Defined.

(** X8.  Activating a button assigns neither the host's attributes nor the
    element references, the shadow tree, the projected content or any
    listener list: a modal closed by a button keeps its [open] attribute. *)
Theorem X8_modal_click_keeps_host_state (sel : string) (m : state) :
  same_fields m (click sel m) ∧
  ∀ n, listeners (el_state (elements (click sel m)) n)
       = listeners (el_state (elements m) n).
Proof. apply quiet_click. Qed.

(** X9.  In every history, one activation of the confirm button sends as
    many [confirm] signals as the instance was attached, and one of the
    cancel button as many [cancel] signals, and nothing else; either way
    the modal is closed afterwards. *)
Theorem X9_modal_signals_per_click (acts : list Action) :
  let m := run acts in
  let k := connects acts in
  (signals (click "#confirm-button" m) = signals m ++ replicate k (newEvent "confirm") ∧
   isOpen (click "#confirm-button" m) = false) ∧
  (signals (click "#cancel-button" m) = signals m ++ replicate k (newEvent "cancel") ∧
   isOpen (click "#cancel-button" m) = false).
Proof.
  intros m k.
  pose proof (attached_times_run acts) as Hk. fold m k in Hk.
  assert (∀ sel n meth ty,
            (sel = "#cancel-button" ∧ n = 8 ∧ meth = CancelClick ∨
             sel = "#confirm-button" ∧ n = 9 ∧ meth = ConfirmClick) →
            (meth = CancelClick ∧ ty = "cancel" ∨ meth = ConfirmClick ∧ ty = "confirm") →
            signals (click sel m) = signals m ++ replicate k (newEvent ty) ∧
            isOpen (click sel m) = false) as Hclick.
  { intros sel n meth ty Hsel Hty.
    destruct (click_reached sel n meth k m Hk Hsel) as (js & Hlen & ->).
    split; [by rewrite (foldl_click_signals meth ty), Hlen|].
    assert (click_method meth) as Hmeth by (destruct Hty as [[-> _] | [-> _]]; by (left + right)).
    destruct js as [|j js].
    - simpl. destruct (isOpen m) eqn:Ho; [|done].
      destruct (open_justified_run acts Ho) as ([b Hb] & _).
      destruct Hk as (_ & Hrefs & _). simpl in Hlen. rewrite <- Hlen in Hrefs.
      destruct Hrefs as (Hnone & _). fold m in Hb. congruence.
    - destruct Hk as (_ & Hrefs & _). simpl in Hlen. rewrite <- Hlen in Hrefs.
      destruct Hrefs as (Hb & Hp & _).
      apply foldl_click_closes; [done|by rewrite Hb|by rewrite Hp|done]. }
  split.
  - apply (Hclick _ 9 ConfirmClick); by right.
  - apply (Hclick _ 8 CancelClick); by left.
Qed.

End ModalHistories.

Section TooltipHistories.
Import Tooltip.

Lemma tooltip_run_snoc (acts : list Action) (a : Action) :
  run (acts ++ [a]) = step (run acts) a.
Proof. unfold run. by rewrite foldl_app. Qed.

Lemma tooltip_run_app (acts acts' : list Action) :
  run (acts ++ acts') = foldl step (run acts) acts'.
Proof. unfold run. by rewrite foldl_app. Qed.

Lemma tooltip_connects_snoc (acts : list Action) (a : Action) :
  connects (acts ++ [a]) = if decide (a = Connect) then S (connects acts) else connects acts.
Proof.
  unfold connects. rewrite filter_app, length_app.
  case_decide.
  - rewrite filter_cons_True by done. simpl. lia.
  - rewrite filter_cons_False by done. simpl. lia.
Qed.

Lemma is_content_mono (b b' : nat) (n : Node) :
  (b ≤ b')%nat → is_content b n → is_content b' n.
Proof. intros Hb (i & kids & -> & Hi). exists i, kids. split; [done|lia]. Qed.

Lemma is_content_older (b : nat) (n : Node) : is_content b n → older b n.
Proof. intros (i & kids & -> & Hi). unfold older; simpl. lia. Qed.

Lemma shaped_well_formed (t : state) : shaped t → well_formed t.
Proof.
  intros (H3 & (divs & Hsr & Hdivs) & _). exists (template ++ divs). split; [done|].
  apply Forall_app. split.
  - unfold template. repeat (apply Forall_cons_2; [unfold older; simpl; lia|]).
    apply Forall_nil_2.
  - eapply Forall_impl; [done|]. apply is_content_older.
Qed.

(** In a reached state the icon is found, and the mounted nodes are the
    content nodes after the template. *)
Lemma shaped_icon (t : state) : shaped t → shadowRoot t ≫= queryHandle "span" = Some 2.
Proof. intros (_ & (divs & -> & _) & _). done. Qed.

Lemma filter_content (b : nat) (divs : list Node) :
  Forall (is_content b) divs → filter (λ n, node_tag n = "div") divs = divs.
Proof.
  induction 1 as [|n divs (i & kids & -> & _) _ IH]; [done|].
  rewrite filter_cons_True by done. by rewrite IH.
Qed.

Lemma shaped_mounted (t : state) (divs : list Node) :
  shadowRoot t = Some (template ++ divs) → Forall (is_content (nextNode t)) divs →
  mounted t = divs.
Proof.
  intros Hsr Hdivs. unfold mounted. rewrite Hsr. simpl.
  rewrite !filter_cons_False by (simpl; discriminate).
  by eapply filter_content.
Qed.

Lemma shaped_constructor : shaped constructor.
Proof.
  split; [simpl; lia|]. split; [|done].
  exists []. split; [done|constructor].
Qed.

Lemma shaped_showTooltipHandler (t : state) : shaped t → shaped (showTooltipHandler t).
Proof.
  intros (H3 & (divs & Hsr & Hdivs) & Hc).
  assert (is_content (S (nextNode t)) (createContainer (nextNode t) (text t))) as Hnew.
  { eexists _, _. split; [done|]. lia. }
  split; [rewrite showTooltipHandler_nextNode; lia|]. split.
  - exists (divs ++ [createContainer (nextNode t) (text t)]).
    rewrite showTooltipHandler_shadowRoot, Hsr, showTooltipHandler_nextNode.
    split; [by rewrite (app_assoc template)|].
    apply Forall_app. split; [|by apply Forall_singleton].
    eapply Forall_impl; [done|]. intros n. apply is_content_mono. lia.
  - intros c. rewrite showTooltipHandler_containerElement, showTooltipHandler_nextNode.
    by intros [= <-].
Qed.

Lemma remove_first_template (c : Node) (divs : list Node) (b : nat) :
  is_content b c →
  remove_first c (template ++ divs) = template ++ remove_first c divs ∧
  existsb (same_node c) (template ++ divs) = existsb (same_node c) divs.
Proof.
  intros (i & kids & -> & Hi). destruct i as [|[|[|i]]]; [lia..|]. done.
Qed.

Lemma shaped_hideTooltipHandler (t t' : state) :
  shaped t → hideTooltipHandler t = Normal t' → shaped t'.
Proof.
  intros (H3 & (divs & Hsr & Hdivs) & Hc). unfold hideTooltipHandler. rewrite Hsr.
  destruct (containerElement t) as [c|] eqn:Ec.
  - unfold removeChild.
    destruct (remove_first_template c divs _ (Hc c eq_refl)) as [-> ->].
    destruct (existsb _ _); [|done]. intros [= <-].
    split; [done|]. split; [|simpl; by rewrite Ec].
    exists (remove_first c divs). split; [done|]. by apply remove_first_Forall.
  - intros [= <-]. split; [done|]. split; [by exists divs|].
    intros c. by rewrite Ec.
Qed.

Lemma shaped_hide_or_report (t : state) : shaped t → shaped (hide_or_report t).
Proof.
  intros Ht. unfold hide_or_report.
  destruct (hideTooltipHandler t) as [t'|e] eqn:Hh; [|done].
  by apply (shaped_hideTooltipHandler t).
Qed.

Lemma hover_quiet_showTooltipHandler (t : state) : hover_quiet t (showTooltipHandler t).
Proof.
  unfold showTooltipHandler; simpl.
  destruct (shadowRoot t) eqn:Hsr; simpl; by rewrite ?Hsr.
Qed.

Lemma hover_quiet_hide_or_report (t : state) : hover_quiet t (hide_or_report t).
Proof.
  unfold hide_or_report, hideTooltipHandler.
  destruct (containerElement t) as [c|]; [|done].
  destruct (shadowRoot t) as [root|]; [|done].
  by destruct (removeChild c root).
Qed.

(** The dispatch of a hover event to [k] bound handlers is [k] calls. *)
Lemma fire_shows (js : list nat) (t : state) :
  foldl (λ acc cb, match invoke cb acc with
                   | Normal acc' => acc'
                   | Throw e => report e acc
                   end) t (Bound ShowTooltip <$> js)
  = Nat.iter (length js) showTooltipHandler t.
Proof.
  revert t. induction js as [|j js IH]; intros t; [done|].
  rewrite fmap_cons. simpl foldl. rewrite IH. simpl length.
  by rewrite Nat.iter_succ_r.
Qed.

Lemma fire_hides (js : list nat) (t : state) :
  foldl (λ acc cb, match invoke cb acc with
                   | Normal acc' => acc'
                   | Throw e => report e acc
                   end) t (Bound HideTooltip <$> js)
  = Nat.iter (length js) hide_or_report t.
Proof.
  revert t. induction js as [|j js IH]; intros t; [done|].
  rewrite fmap_cons. simpl foldl. rewrite IH. simpl length.
  by rewrite Nat.iter_succ_r.
Qed.

Lemma pointer_enter (k : nat) (t : state) :
  attached_times k t → pointer "mouseenter" t = Nat.iter k showTooltipHandler t.
Proof.
  intros (Hs & _ & (js & Hlen & Hjs) & _). unfold pointer, fire.
  rewrite (shaped_icon t Hs), Hjs, fire_shows. by rewrite Hlen.
Qed.

Lemma pointer_leave (k : nat) (t : state) :
  attached_times k t → pointer "mouseleave" t = Nat.iter k hide_or_report t.
Proof.
  intros (Hs & _ & _ & (js & Hlen & Hjs) & _). unfold pointer, fire.
  rewrite (shaped_icon t Hs), Hjs, fire_hides. by rewrite Hlen.
Qed.

Lemma attached_times_hover_quiet (k : nat) (t t' : state) :
  hover_quiet t t' → shaped t' → attached_times k t → attached_times k t'.
Proof.
  intros (Ei & _ & _ & Ee & Ef) Hs (_ & Hi & Hl).
  split; [done|]. by rewrite Ei, Ee, Ef.
Qed.

Lemma attached_times_showTooltipHandler (k : nat) (t : state) :
  attached_times k t → attached_times k (showTooltipHandler t).
Proof.
  intros Ht. eapply attached_times_hover_quiet; [..|done].
  - apply hover_quiet_showTooltipHandler.
  - apply shaped_showTooltipHandler. by destruct Ht.
Qed.

Lemma attached_times_hide_or_report (k : nat) (t : state) :
  attached_times k t → attached_times k (hide_or_report t).
Proof.
  intros Ht. eapply attached_times_hover_quiet; [..|done].
  - apply hover_quiet_hide_or_report.
  - apply shaped_hide_or_report. by destruct Ht.
Qed.

Lemma attached_times_iter (k n : nat) (f : state → state) (t : state) :
  (∀ u, attached_times k u → attached_times k (f u)) →
  attached_times k t → attached_times k (Nat.iter n f t).
Proof. intros Hf Ht. induction n as [|n IH]; simpl; auto. Qed.

Lemma listening_app (type : string) (ls ls' : list (Listener Method)) :
  listening type (ls ++ ls') = listening type ls ++ listening type ls'.
Proof. unfold listening. by rewrite filter_app, fmap_app. Qed.

Lemma hover_listeners_add (k nf : nat) (ls : list (Listener Method)) :
  hover_listeners k nf ls →
  hover_listeners (S k) (S (S nf))
    (addEventListener "mouseleave" (Bound HideTooltip (S nf))
       (addEventListener "mouseenter" (Bound ShowTooltip nf) ls)).
Proof.
  intros ((js & Hjs & He) & (js' & Hjs' & Hl) & Hall).
  assert (∀ type meth j, (nf ≤ j)%nat → mkListener type (Bound meth j) false ∉ ls) as Hfresh.
  { intros type meth j Hj Hin. rewrite Forall_forall in Hall.
    destruct (Hall _ Hin) as (meth' & j' & [= _ ->] & Hlt). lia. }
  unfold addEventListener.
  rewrite (bool_decide_eq_false_2 (_ ∈ ls)) by (apply Hfresh; lia).
  rewrite bool_decide_eq_false_2.
  2:{ intros [Hin|Hin]%elem_of_app.
      - revert Hin. apply Hfresh. lia.
      - by apply list_elem_of_singleton in Hin. }
  split; [|split].
  - exists (js ++ [nf]). split; [rewrite length_app; simpl; lia|].
    rewrite !listening_app, He, fmap_app. simpl. by rewrite app_nil_r.
  - exists (js' ++ [S nf]). split; [rewrite length_app; simpl; lia|].
    rewrite !listening_app, Hl, fmap_app. simpl. by rewrite app_nil_r.
  - rewrite !Forall_app. split; [split|].
    + eapply Forall_impl; [done|]. intros l (meth & j & Hcb & Hj).
      exists meth, j. split; [done|lia].
    + apply Forall_singleton. exists ShowTooltip, nf. split; [done|lia].
    + apply Forall_singleton. exists HideTooltip, (S nf). split; [done|lia].
Qed.

Lemma hover_listeners_remove (k nf : nat) (ls : list (Listener Method)) :
  hover_listeners k nf ls →
  removeEventListener "mouseleave" (Bound HideTooltip (S nf))
    (removeEventListener "mouseenter" (Bound ShowTooltip nf) ls) = ls.
Proof.
  intros (_ & _ & Hall).
  rewrite (removeEventListener_other "mouseenter").
  - apply removeEventListener_other.
    eapply Forall_impl; [done|]. intros l (meth & j & -> & Hj) [= _ ->]. lia.
  - eapply Forall_impl; [done|]. intros l (meth & j & -> & Hj) [= _ ->]. lia.
Qed.

Lemma hover_listeners_mono (k b b' : nat) (ls : list (Listener Method)) :
  (b ≤ b')%nat → hover_listeners k b ls → hover_listeners k b' ls.
Proof.
  intros Hb (He & Hl & Hall). split; [done|]. split; [done|].
  eapply Forall_impl; [done|]. intros l (meth & j & Hcb & Hj).
  exists meth, j. split; [done|lia].
Qed.

Lemma shaped_same (t t' : state) :
  shadowRoot t' = shadowRoot t → nextNode t' = nextNode t →
  containerElement t' = containerElement t → shaped t → shaped t'.
Proof. intros Hs Hn Hc Ht. unfold shaped. by rewrite Hs, Hn, Hc. Qed.

Lemma tooltip_attached_times_set_text (k : nat) (v : JsValue) (t : state) :
  attached_times k t → attached_times k (set_text v t).
Proof. done. Qed.

Lemma tooltip_attached_times_connectedCallback (k : nat) (t : state) :
  attached_times k t → attached_times (S k) (connectedCallback t).
Proof.
  intros Ht.
  assert (∀ u, attached_times k u →
               shadowRoot u = shadowRoot t →
               attached_times (S k)
                 match shadowRoot u with
                 | Some root =>
                     let t2 := set_iconElement (queryHandle "span" root) u in
                     match iconElement t2 with
                     | Some i =>
                         let '(f, t3) := bind ShowTooltip t2 in
                         let t4 := on_element i
                                     (with_listeners (addEventListener "mouseenter" f)) t3 in
                         let '(g, t5) := bind HideTooltip t4 in
                         on_element i (with_listeners (addEventListener "mouseleave" g)) t5
                     | None => t2
                     end
                 | None => u
                 end) as Hgen.
  { intros u (Hus & _ & Hul) Hsr.
    pose proof (shaped_icon u Hus) as Hicon.
    destruct (shadowRoot u) as [root|] eqn:Eu; [|done]. simpl in Hicon.
    simpl. rewrite Hicon. simpl.
    split; [by eapply shaped_same; [..|exact Hus]|]. split; [done|].
    unfold on_element; simpl. rewrite !el_state_insert; simpl.
    by apply hover_listeners_add. }
  unfold connectedCallback. destruct (attributes t !! "text").
  - apply (Hgen (set_text _ t)); done.
  - apply (Hgen t); done.
Qed.

Lemma tooltip_attached_times_disconnectedCallback (k : nat) (t : state) :
  attached_times k t → attached_times k (disconnectedCallback t).
Proof.
  intros (Hs & Hi & Hl). unfold disconnectedCallback. rewrite Hi.
  destruct k as [|k]; [done|]. simpl.
  split; [by eapply shaped_same; [..|exact Hs]|]. split; [done|].
  unfold on_element; simpl. rewrite !el_state_insert; simpl.
  rewrite (hover_listeners_remove (S k)) by done.
  eapply hover_listeners_mono; [|done]. lia.
Qed.

Lemma tooltip_attached_times_attributeChangedCallback (k : nat) (name : string) (o v : JsValue)
    (t : state) :
  attached_times k t → attached_times k (attributeChangedCallback name o v t).
Proof. intros Ht. unfold attributeChangedCallback. by repeat case_match. Qed.

Lemma tooltip_attached_times_step (k : nat) (t : state) (a : Action) :
  attached_times k t →
  attached_times (if decide (a = Connect) then S k else k) (step t a).
Proof.
  intros Ht. destruct a; simpl.
  - by apply tooltip_attached_times_connectedCallback.
  - by apply tooltip_attached_times_disconnectedCallback.
  - unfold setAttribute. case_bool_decide; [|done].
    by apply tooltip_attached_times_attributeChangedCallback.
  - unfold removeAttribute. destruct (attributes t !! name); [|done].
    case_bool_decide; [|done]. by apply tooltip_attached_times_attributeChangedCallback.
  - rewrite (pointer_enter k) by done.
    apply attached_times_iter; [apply attached_times_showTooltipHandler|done].
  - rewrite (pointer_leave k) by done.
    apply attached_times_iter; [apply attached_times_hide_or_report|done].
Qed.

Lemma tooltip_attached_times_constructor : attached_times 0 constructor.
Proof.
  split; [apply shaped_constructor|]. split; [done|].
  split; [by exists []|]. split; [by exists []|]. constructor.
Qed.

Lemma tooltip_attached_times_run (acts : list Action) :
  attached_times (connects acts) (run acts).
Proof.
  induction acts as [|a acts IH] using rev_ind.
  - apply tooltip_attached_times_constructor.
  - rewrite tooltip_run_snoc, tooltip_connects_snoc.
    by apply tooltip_attached_times_step.
Qed.

Lemma reported_showTooltipHandler (t : state) : reported (showTooltipHandler t) = reported t.
Proof.
  unfold showTooltipHandler; simpl.
  destruct (shadowRoot t) eqn:Hsr; simpl; by rewrite ?Hsr.
Qed.

Lemma shaped_iter_show (n : nat) (t : state) :
  shaped t → shaped (Nat.iter n showTooltipHandler t).
Proof. intros Ht. induction n as [|n IH]; simpl; [done|by apply shaped_showTooltipHandler]. Qed.

(** [n] calls of [show()] mount [n] nodes and report nothing. *)
Lemma iter_show_counts (n : nat) (t : state) :
  shaped t →
  length (mounted (Nat.iter n showTooltipHandler t)) = length (mounted t) + n ∧
  reported (Nat.iter n showTooltipHandler t) = reported t.
Proof.
  intros Ht. induction n as [|n [IHm IHr]]; simpl; [split; [lia|done]|].
  rewrite showTooltipHandler_mounted, reported_showTooltipHandler, length_app, IHm, IHr.
  destruct (shaped_iter_show n t Ht) as (_ & (divs & -> & _) & _). simpl.
  split; [lia|done].
Qed.

(** [hide()] right after [show()], spelled out. *)
Lemma hide_after_show_state (t : state) (root : list Node) :
  well_formed t → shadowRoot t = Some root →
  hideTooltipHandler (showTooltipHandler t)
  = Normal (set_shadowRoot (Some root) (showTooltipHandler t)).
Proof.
  intros (root' & Hsr & Hall) Hroot. rewrite Hsr in Hroot. injection Hroot as ->.
  unfold hideTooltipHandler.
  rewrite showTooltipHandler_containerElement, showTooltipHandler_shadowRoot, Hsr.
  simpl. by rewrite (removeChild_fresh (nextNode t)).
Qed.

Lemma stale_after_hide (t : state) (root : list Node) :
  well_formed t → shadowRoot t = Some root →
  stale (set_shadowRoot (Some root) (showTooltipHandler t)).
Proof.
  intros (root' & Hsr & Hall) Hroot. rewrite Hsr in Hroot. injection Hroot as ->.
  exists (createContainer (nextNode t) (text t)), (nextNode t), root.
  simpl. rewrite showTooltipHandler_containerElement. by repeat split.
Qed.

Lemma hide_stale (t : state) : stale t → hide_or_report t = report NotFoundError t.
Proof.
  intros (c & i & root & Hc & Hi & Hsr & Hall).
  unfold hide_or_report, hideTooltipHandler, removeChild. rewrite Hc, Hsr.
  assert (existsb (same_node c) root = false) as ->; [|done].
  clear Hsr. induction Hall as [|n root Hn _ IH]; [done|]. simpl. rewrite IH.
  unfold same_node, older in *. rewrite Hi. destruct (node_id n) as [j|]; [|done].
  rewrite orb_false_r. apply Nat.eqb_neq. lia.
Qed.

Lemma stale_report (e : DOMException) (t : state) : stale t → stale (report e t).
Proof. done. Qed.

Lemma iter_stale (n : nat) (t : state) :
  stale t →
  shadowRoot (Nat.iter n hide_or_report t) = shadowRoot t ∧
  reported (Nat.iter n hide_or_report t) = reported t ++ replicate n NotFoundError ∧
  stale (Nat.iter n hide_or_report t).
Proof.
  intros Ht. induction n as [|n (IHs & IHr & IHst)]; simpl.
  - by rewrite app_nil_r.
  - rewrite (hide_stale _ IHst). simpl. rewrite IHs, IHr. split; [done|].
    split; [|by apply stale_report].
    rewrite <- app_assoc. f_equal. symmetry. apply replicate_cons_app.
Qed.

(** One hover of an instance attached [k] times: entering mounts [k] nodes;
    leaving unmounts the last of them, and each other handler fails. *)
Lemma hover_cycle (k : nat) (t : state) :
  attached_times k t →
  let t' := pointer "mouseleave" (pointer "mouseenter" t) in
  attached_times k t' ∧
  length (mounted t') = length (mounted t) + (k - 1) ∧
  reported t' = reported t ++ replicate (k - 1) NotFoundError ∧
  (k = 1 → shadowRoot t' = shadowRoot t).
Proof.
  intros Ht t'.
  assert (attached_times k (pointer "mouseenter" t)) as Henter
    by apply (tooltip_attached_times_step k t MouseEnter Ht).
  assert (attached_times k t') as Ht'
    by apply (tooltip_attached_times_step k _ MouseLeave Henter).
  split; [done|]. subst t'.
  rewrite (pointer_leave k) by done. rewrite (pointer_enter k) by done.
  destruct k as [|k].
  { simpl. rewrite app_nil_r. split; [lia|]. split; [done|]. intros [=]. }
  rewrite (Nat.iter_succ_r k hide_or_report).
  change (Nat.iter (S k) showTooltipHandler t)
    with (showTooltipHandler (Nat.iter k showTooltipHandler t)).
  set (u0 := Nat.iter k showTooltipHandler t).
  assert (shaped u0) as Hu0 by (apply shaped_iter_show; by destruct Ht).
  destruct (iter_show_counts k t) as [Hm Hr]; [by destruct Ht|]. fold u0 in Hm, Hr.
  pose proof (shaped_well_formed u0 Hu0) as Hwf.
  destruct Hu0 as (_ & (divs & Hsr & _) & _).
  assert (hide_or_report (showTooltipHandler u0)
          = set_shadowRoot (Some (template ++ divs)) (showTooltipHandler u0)) as ->.
  { unfold hide_or_report. by rewrite (hide_after_show_state u0 _ Hwf Hsr). }
  destruct (iter_stale k _ (stale_after_hide u0 _ Hwf Hsr)) as (Hs & Hrep & _).
  split; [|split].
  - assert (mounted (Nat.iter k hide_or_report
              (set_shadowRoot (Some (template ++ divs)) (showTooltipHandler u0)))
            = mounted u0) as ->.
    { unfold mounted. rewrite Hs. simpl. by rewrite Hsr. }
    rewrite Hm. simpl. lia.
  - rewrite Hrep. simpl. rewrite reported_showTooltipHandler, Hr.
    by rewrite Nat.sub_0_r.
  - intros [= ->]. simpl. subst u0. simpl in Hsr. by rewrite Hsr.
Qed.

Lemma hovers_law (k n : nat) (t : state) :
  attached_times k t →
  let t' := foldl step t (hovers n) in
  attached_times k t' ∧
  length (mounted t') = length (mounted t) + n * (k - 1) ∧
  reported t' = reported t ++ replicate (n * (k - 1)) NotFoundError ∧
  (k = 1 → shadowRoot t' = shadowRoot t).
Proof.
  revert t. induction n as [|n IH]; intros t Ht; simpl.
  - rewrite app_nil_r. split; [done|]. split; [lia|]. by split.
  - destruct (hover_cycle k t Ht) as (Ht1 & Hm1 & Hr1 & Hs1).
    destruct (IH _ Ht1) as (Ht' & Hm & Hr & Hs).
    split; [done|]. split; [|split].
    + unfold hovers in Hm. rewrite Hm, Hm1. lia.
    + unfold hovers in Hr. rewrite Hr, Hr1, <- app_assoc, <- replicate_add. done.
    + intros Hk. unfold hovers in Hs. by rewrite Hs, Hs1.
Qed.

(** X10.  The law of hovering.  On an instance attached [k] times in its
    history, each hover (the pointer enters the icon, then leaves it) mounts
    [k] content nodes and unmounts one, and each [hide()] after the first
    fails with NotFoundError: [n] hovers leave [n * (k - 1)] more nodes
    mounted and report [n * (k - 1)] more exceptions. *)
Theorem X10_tooltip_hover_law (acts : list Action) (n : nat) :
  let k := connects acts in
  let t := run acts in
  let t' := run (acts ++ hovers n) in
  length (mounted t') = length (mounted t) + n * (k - 1) ∧
  reported t' = reported t ++ replicate (n * (k - 1)) NotFoundError.
Proof.
  intros k t t'. subst t'. rewrite tooltip_run_app.
  by destruct (hovers_law k n t (tooltip_attached_times_run acts)) as (_ & ? & ? & _).
Qed.

(** X11.  On an instance attached exactly once, any number of hovers leaves
    the shadow tree exactly as it was and reports no exception, whatever
    happened before. *)
Theorem X11_tooltip_attached_once_hovers (acts : list Action) (n : nat) :
  connects acts = 1 →
  shadowRoot (run (acts ++ hovers n)) = shadowRoot (run acts) ∧
  reported (run (acts ++ hovers n)) = reported (run acts).
Proof.
  intros Hk. rewrite tooltip_run_app.
  pose proof (tooltip_attached_times_run acts) as Ht. rewrite Hk in Ht.
  destruct (hovers_law 1 n _ Ht) as (_ & _ & Hr & Hs).
  split; [by apply Hs|]. rewrite Hr. rewrite Nat.mul_0_r. simpl. by rewrite app_nil_r.
Qed.

Lemma X11_tooltip_attached_once_hovers_witness :
  let acts := [SetAttribute "text" "Hi"; Connect; Disconnect; MouseEnter] in
  shadowRoot (run (acts ++ hovers 3)) = shadowRoot (run acts) ∧
  reported (run (acts ++ hovers 3)) = reported (run acts).
Proof.
  apply (X11_tooltip_attached_once_hovers
           [SetAttribute "text" "Hi"; Connect; Disconnect; MouseEnter] 3).
  reflexivity.
Defined.

Lemma hover_quiet_refl (t : state) : hover_quiet t t.
Proof. by repeat split. Qed.

Lemma hover_quiet_trans (t1 t2 t3 : state) :
  hover_quiet t1 t2 → hover_quiet t2 t3 → hover_quiet t1 t3.
Proof.
  intros (A1 & A2 & A3 & A4 & A5) (B1 & B2 & B3 & B4 & B5).
  repeat split; congruence.
Qed.

(** A listener's run, as the dispatch sees it, is one of three things. *)
Lemma invoke_cases (cb : Callback Method) (t : state) :
  let t' := match invoke cb t with Normal u => u | Throw e => report e t end in
  t' = t ∨ t' = showTooltipHandler t ∨ t' = hide_or_report t.
Proof. destruct cb as [| [] ?| |]; simpl; auto. Qed.

Lemma fire_ind (P : state → Prop) (type : string) (n : nat) (t : state) :
  (∀ u, P u → P (showTooltipHandler u)) → (∀ u, P u → P (hide_or_report u)) →
  P t → P (fire type n t).
Proof.
  intros Hshow Hhide. unfold fire.
  generalize (listening type (listeners (el_state (elements t) n))).
  intros cbs. revert t. induction cbs as [|cb cbs IH]; intros t Ht; simpl; [done|].
  apply IH. destruct (invoke_cases cb t) as [-> | [-> | ->]]; auto.
Qed.

Lemma pointer_ind (P : state → Prop) (type : string) (t : state) :
  (∀ u, P u → P (showTooltipHandler u)) → (∀ u, P u → P (hide_or_report u)) →
  P t → P (pointer type t).
Proof.
  intros Hshow Hhide Ht. unfold pointer.
  destruct (shadowRoot t ≫= queryHandle "span"); [|done]. by apply fire_ind.
Qed.

Lemma hover_quiet_pointer (type : string) (t : state) : hover_quiet t (pointer type t).
Proof.
  apply (pointer_ind (hover_quiet t)).
  - intros u Hu. eapply hover_quiet_trans; [done|apply hover_quiet_showTooltipHandler].
  - intros u Hu. eapply hover_quiet_trans; [done|apply hover_quiet_hide_or_report].
  - apply hover_quiet_refl.
Qed.

Lemma text_connectedCallback (t : state) :
  attributes (connectedCallback t) = attributes t ∧
  text (connectedCallback t)
  = match attributes t !! "text" with Some v => JStr v | None => text t end.
Proof. unfold connectedCallback, bind. repeat (case_match; simpl); done. Qed.

Lemma text_disconnectedCallback (t : state) :
  attributes (disconnectedCallback t) = attributes t ∧
  text (disconnectedCallback t) = text t.
Proof. unfold disconnectedCallback, bind. repeat (case_match; simpl); done. Qed.

Lemma text_tracks_step (t : state) (a : Action) : text_tracks t → text_tracks (step t a).
Proof.
  unfold text_tracks, current_text. intros Ht. destruct a; simpl.
  - destruct (text_connectedCallback t) as [-> ->].
    by destruct (attributes t !! "text").
  - by destruct (text_disconnectedCallback t) as [-> ->].
  - unfold setAttribute. case_bool_decide as Hn.
    + apply list_elem_of_singleton in Hn as ->.
      unfold attributeChangedCallback, strict_eq. simpl.
      case_bool_decide as Heq; simpl; rewrite lookup_insert_eq; [|done].
      destruct (attributes t !! "text") as [old|]; [|done].
      injection Heq as ->. by rewrite Ht.
    + simpl. rewrite lookup_insert_ne; [done|].
      intros ->. apply Hn. by apply list_elem_of_singleton.
  - unfold removeAttribute. destruct (attributes t !! name) as [old|] eqn:Hold; [|done].
    case_bool_decide as Hn.
    + apply list_elem_of_singleton in Hn as ->.
      unfold attributeChangedCallback. simpl. by rewrite lookup_delete_eq.
    + simpl. rewrite lookup_delete_ne; [done|].
      intros ->. apply Hn. by apply list_elem_of_singleton.
  - by destruct (hover_quiet_pointer "mouseenter" t) as (_ & -> & -> & _).
  - by destruct (hover_quiet_pointer "mouseleave" t) as (_ & -> & -> & _).
Qed.

(** X12.  In every state reached from the constructor the text a tooltip
    would show is the current value of its [text] attribute, and the empty
    string when the attribute is absent; so the node the next [show()]
    mounts carries exactly that text. *)
Theorem X12_tooltip_text_tracks_attribute (acts : list Action) :
  let t := run acts in
  let shown := default "" (attributes t !! "text") in
  current_text t = shown ∧
  last (textContent <$> mounted (showTooltipHandler t)) = Some shown.
Proof.
  intros t shown.
  assert (text_tracks t) as Ht.
  { subst t. induction acts as [|a acts IH] using rev_ind; [done|].
    rewrite tooltip_run_snoc. by apply text_tracks_step. }
  split; [done|].
  rewrite showTooltipHandler_mounted.
  destruct (well_formed_run acts) as (root & Hsr & _). fold t in Hsr. rewrite Hsr.
  rewrite fmap_app.
  change (textContent <$> [createContainer (nextNode t) (text t)])
    with [textContent (createContainer (nextNode t) (text t))].
  rewrite last_snoc. f_equal.
  rewrite textContent_createContainer. exact Ht.
Qed.

Lemma remove_first_other (c n : Node) (root : list Node) :
  n ∈ root → same_node c n = false → n ∈ remove_first c root.
Proof.
  intros Hin Hne. induction root as [|r root IH]; [done|]. simpl.
  apply elem_of_cons in Hin as [<- | Hin].
  - rewrite Hne. by left.
  - destruct (same_node c r); [done|]. right. by apply IH.
Qed.

Lemma same_node_ids (c n : Node) (i : nat) :
  node_id n = Some i → node_id c ≠ Some i → same_node c n = false.
Proof.
  intros Hn Hc. unfold same_node. rewrite Hn.
  destruct (node_id c) as [j|]; [|done]. apply Nat.eqb_neq. congruence.
Qed.

Lemma orphan_showTooltipHandler (n : Node) (t : state) :
  orphan n t → orphan n (showTooltipHandler t).
Proof.
  intros (Hin & i & Hi & Hlt & Hc). split.
  - rewrite showTooltipHandler_mounted. apply elem_of_app. by left.
  - exists i. rewrite showTooltipHandler_nextNode, showTooltipHandler_containerElement.
    split; [done|]. split; [lia|].
    intros c [= <-]. simpl. intros [= Heq]. lia.
Qed.

Lemma orphan_hide_or_report (n : Node) (t : state) :
  orphan n t → orphan n (hide_or_report t).
Proof.
  intros (Hin & i & Hi & Hlt & Hc).
  unfold hide_or_report, hideTooltipHandler.
  destruct (containerElement t) as [c|] eqn:Ec; [|by split; [|exists i; rewrite ?Ec]].
  destruct (shadowRoot t) as [root|] eqn:Esr; [|by split; [|exists i; rewrite ?Ec]].
  unfold removeChild. destruct (existsb (same_node c) root).
  - split.
    + unfold mounted in *. simpl. rewrite Esr in Hin. simpl in Hin.
      apply list_elem_of_filter in Hin as [Hdiv Hin].
      apply list_elem_of_filter. split; [done|].
      apply remove_first_other; [done|]. apply (same_node_ids _ _ i); auto.
    + exists i. simpl. by rewrite Ec.
  - split; [done|]. exists i. simpl. by rewrite Ec.
Qed.

Lemma orphan_same (n : Node) (t t' : state) :
  shadowRoot t' = shadowRoot t → nextNode t' = nextNode t →
  containerElement t' = containerElement t → orphan n t → orphan n t'.
Proof. intros Hs Hn Hc. unfold orphan, mounted. by rewrite Hs, Hn, Hc. Qed.

Lemma container_connectedCallback (t : state) :
  containerElement (connectedCallback t) = containerElement t.
Proof. unfold connectedCallback, bind. repeat (case_match; simpl); done. Qed.

Lemma container_disconnectedCallback (t : state) :
  containerElement (disconnectedCallback t) = containerElement t.
Proof. unfold disconnectedCallback, bind. repeat (case_match; simpl); done. Qed.

Lemma container_attributeChangedCallback (name : string) (o v : JsValue) (t : state) :
  containerElement (attributeChangedCallback name o v t) = containerElement t.
Proof. unfold attributeChangedCallback. repeat (case_match; simpl); done. Qed.

Lemma orphan_step (n : Node) (t : state) (a : Action) : orphan n t → orphan n (step t a).
Proof.
  intros Hn. destruct a; simpl.
  - eapply orphan_same; [apply connectedCallback_tree..|apply container_connectedCallback|done].
  - eapply orphan_same;
      [apply disconnectedCallback_tree..|apply container_disconnectedCallback|done].
  - unfold setAttribute. case_bool_decide; [|done].
    eapply orphan_same; [apply attributeChangedCallback_tree..
                        |apply container_attributeChangedCallback|done].
  - unfold removeAttribute. destruct (attributes t !! name); [|done].
    case_bool_decide; [|done].
    eapply orphan_same; [apply attributeChangedCallback_tree..
                        |apply container_attributeChangedCallback|done].
  - apply pointer_ind; [apply orphan_showTooltipHandler|apply orphan_hide_or_report|done].
  - apply pointer_ind; [apply orphan_showTooltipHandler|apply orphan_hide_or_report|done].
Qed.

(** X13.  A content node that is mounted while another node is the last
    container stays mounted for good: whatever happens next, no [hide()]
    unmounts it, since [hide()] only ever removes the last container. *)
Theorem X13_tooltip_orphan_stays_mounted (acts acts' : list Action) (n : Node) :
  n ∈ mounted (run acts) →
  (∀ c, containerElement (run acts) = Some c → same_node c n = false) →
  n ∈ mounted (run (acts ++ acts')).
Proof.
  intros Hin Hc.
  assert (orphan n (run acts)) as Ho.
  { split; [done|].
    destruct (tooltip_attached_times_run acts) as ((_ & (divs & Hsr & Hdivs) & Hcont) & _).
    rewrite (shaped_mounted _ divs Hsr Hdivs) in Hin.
    rewrite Forall_forall in Hdivs.
    destruct (Hdivs _ Hin) as (i & kids & -> & Hi).
    exists i. split; [done|]. split; [lia|].
    intros c Ec Hid. specialize (Hc c Ec).
    unfold same_node in Hc. rewrite Hid in Hc. simpl in Hc.
    by rewrite Nat.eqb_refl in Hc. }
  rewrite tooltip_run_app.
  assert (orphan n (foldl step (run acts) acts')) as [? _]; [|done].
  revert Ho. generalize (run acts).
  induction acts' as [|a acts' IH]; intros t Ht; simpl; [done|].
  by apply IH, orphan_step.
Qed.

Lemma X13_tooltip_orphan_stays_mounted_witness :
  let acts := [Connect; Disconnect; Connect; MouseEnter] in
  let acts' := [MouseLeave; MouseLeave; MouseEnter; MouseLeave] in
  Element 3 "div" [] [] ∈ mounted (run (acts ++ acts')).
Proof.
  apply (X13_tooltip_orphan_stays_mounted
           [Connect; Disconnect; Connect; MouseEnter]
           [MouseLeave; MouseLeave; MouseEnter; MouseLeave]
           (Element 3 "div" [] [])).
  - vm_compute. constructor.
  - intros c Hc. vm_compute in Hc. injection Hc as <-. reflexivity.
Defined.

End TooltipHistories.

Section HyperlinkHistories.
Import ConfirmHyperlink.

Lemma attached_snoc (acts : list Action) (a : Action) :
  attached (acts ++ [a]) = match a with Connect => true | Disconnect => false end.
Proof. unfold attached. rewrite last_snoc. by destruct a. Qed.

(** X14.  However often the anchor is attached and detached, it carries its
    click listener exactly when the last of these was an attachment, and
    never two of them; a click then prevents the navigation exactly when the
    anchor is attached and the user declines the prompt. *)
Theorem X14_hyperlink_guard (acts : list Action) (answer : bool) :
  own_listeners (run acts)
  = (if attached acts then [mkListener "click" clickHandlerRef false] else []) ∧
  click answer (run acts) = attached acts && negb answer.
Proof.
  assert (own_listeners (run acts)
          = if attached acts then [mkListener "click" clickHandlerRef false] else [])
    as Hls.
  { induction acts as [|a acts IH] using rev_ind; [done|].
    unfold run in *. rewrite foldl_app, attached_snoc. simpl.
    destruct a; simpl; rewrite IH; by destruct (attached acts). }
  split; [done|]. unfold click. rewrite Hls.
  by destruct (attached acts), answer.
Qed.

End HyperlinkHistories.

Section FirstRevision.
Import Modal.

Ltac decide_style_writes :=
  repeat match goal with
  | |- context [decide (?a = ?b ∧ ?c = ?d)] =>
      first
        [ rewrite (decide_True (P := a = b ∧ c = d)) by (split; reflexivity)
        | rewrite (decide_False (P := a = b ∧ c = d)) by (intros [? ?]; discriminate) ]
  end.

(** The two branches of the unguarded handlers. *)
Lemma first_show_cases (m : state) :
  (ModalFirst.showModalHandler m = m ∧ (backdropElement m = None ∨ modalElement m = None)) ∨
  ∃ b p, backdropElement m = Some b ∧ modalElement m = Some p ∧
         ModalFirst.showModalHandler m
         = m |> set_isOpen true
             |> write_style b "opacity" "1" |> write_style b "pointerEvents" "all"
             |> write_style p "opacity" "1" |> write_style p "pointerEvents" "all".
Proof.
  unfold ModalFirst.showModalHandler.
  destruct (backdropElement m) as [b|]; [|left; auto].
  destruct (modalElement m) as [p|]; [|left; auto].
  right. by exists b, p.
Qed.

Lemma first_hide_cases (m : state) :
  (ModalFirst.hideModalHandler m = m ∧ (backdropElement m = None ∨ modalElement m = None)) ∨
  ∃ b p, backdropElement m = Some b ∧ modalElement m = Some p ∧
         ModalFirst.hideModalHandler m
         = m |> set_isOpen false
             |> write_style b "opacity" "0" |> write_style b "pointerEvents" "none"
             |> write_style p "opacity" "0" |> write_style p "pointerEvents" "none".
Proof.
  unfold ModalFirst.hideModalHandler.
  destruct (backdropElement m) as [b|]; [|left; auto].
  destruct (modalElement m) as [p|]; [|left; auto].
  right. by exists b, p.
Qed.

Lemma first_quiet_show (m : state) : quiet m (ModalFirst.showModalHandler m).
Proof.
  destruct (first_show_cases m) as [[-> _]|(b & p & _ & _ & ->)]; [apply quiet_refl|].
  split; [by repeat split|]. intros n.
  apply (write_chain_listeners (set_isOpen true m)).
Qed.

Lemma first_quiet_hide (m : state) : quiet m (ModalFirst.hideModalHandler m).
Proof.
  destruct (first_hide_cases m) as [[-> _]|(b & p & _ & _ & ->)]; [apply quiet_refl|].
  split; [by repeat split|]. intros n.
  apply (write_chain_listeners (set_isOpen false m)).
Qed.

Lemma first_signals_show (m : state) : signals (ModalFirst.showModalHandler m) = signals m.
Proof.
  destruct (first_show_cases m) as [[-> _]|(b & p & _ & _ & ->)]; [done|].
  by rewrite !signals_write_style.
Qed.

Lemma first_signals_hide (m : state) : signals (ModalFirst.hideModalHandler m) = signals m.
Proof.
  destruct (first_hide_cases m) as [[-> _]|(b & p & _ & _ & ->)]; [done|].
  by rewrite !signals_write_style.
Qed.

(** The flag after a handler, resolved or not. *)
Lemma first_isOpen_show (m : state) :
  isOpen (ModalFirst.showModalHandler m)
  = match backdropElement m, modalElement m with
    | Some _, Some _ => true
    | _, _ => isOpen m
    end.
Proof.
  unfold ModalFirst.showModalHandler.
  by destruct (backdropElement m), (modalElement m).
Qed.

Lemma first_isOpen_hide (m : state) :
  isOpen (ModalFirst.hideModalHandler m)
  = match backdropElement m, modalElement m with
    | Some _, Some _ => false
    | _, _ => isOpen m
    end.
Proof.
  unfold ModalFirst.hideModalHandler.
  by destruct (backdropElement m), (modalElement m).
Qed.

Lemma final_isOpen_show (m : state) :
  isOpen (showModalHandler m)
  = match backdropElement m, modalElement m with
    | Some _, Some _ => true
    | _, _ => isOpen m
    end.
Proof.
  destruct (backdropElement m) as [b|] eqn:Hb;
    [|rewrite showModalHandler_skip; auto].
  destruct (modalElement m) as [p|] eqn:Hp;
    [|rewrite showModalHandler_skip; auto].
  by apply (showModalHandler_isOpen m b p).
Qed.

Lemma final_isOpen_hide (m : state) :
  isOpen (hideModalHandler m)
  = match backdropElement m, modalElement m with
    | Some _, Some _ => false
    | _, _ => isOpen m
    end.
Proof.
  destruct (backdropElement m) as [b|] eqn:Hb;
    [|rewrite hideModalHandler_skip; auto].
  destruct (modalElement m) as [p|] eqn:Hp;
    [|rewrite hideModalHandler_skip; auto].
  by apply (hideModalHandler_isOpen m b p).
Qed.

Lemma first_quiet_invoke (cb : Callback Method) (m : state) :
  quiet m (ModalFirst.invoke cb m) ∧ signals (ModalFirst.invoke cb m) = signals m.
Proof.
  destruct cb as [| [] ?| |]; simpl; try (split; [apply quiet_refl|done]).
  - split; [apply first_quiet_show|apply first_signals_show].
  - split; [apply first_quiet_hide|apply first_signals_hide].
Qed.

Lemma first_quiet_click (sel : string) (m : state) :
  quiet m (ModalFirst.click sel m) ∧ signals (ModalFirst.click sel m) = signals m.
Proof.
  unfold ModalFirst.click, ModalFirst.fire.
  destruct (shadowRoot m ≫= queryHandle sel); [|split; [apply quiet_refl|done]].
  generalize (listening "click" (listeners (el_state (elements m) n))).
  intros cbs.
  assert (∀ u, quiet m u ∧ signals u = signals m →
               quiet m (foldl (λ acc cb, ModalFirst.invoke cb acc) u cbs) ∧
               signals (foldl (λ acc cb, ModalFirst.invoke cb acc) u cbs) = signals m) as H.
  { induction cbs as [|cb cbs IH]; intros u [Hq Hs]; simpl; [done|].
    apply IH. destruct (first_quiet_invoke cb u) as [Hq' Hs'].
    split; [by eapply quiet_trans|congruence]. }
  apply H. split; [apply quiet_refl|done].
Qed.

Lemma first_quiet_attributeChangedCallback (name : string) (o v : JsValue) (m : state) :
  quiet m (ModalFirst.attributeChangedCallback name o v m) ∧
  signals (ModalFirst.attributeChangedCallback name o v m) = signals m.
Proof.
  unfold ModalFirst.attributeChangedCallback.
  destruct (String.eqb name "open"); [|split; [apply quiet_refl|done]].
  destruct (truthy v).
  - split; [apply first_quiet_show|apply first_signals_show].
  - split; [apply first_quiet_hide|apply first_signals_hide].
Qed.

(** The style sheet and the tree of the first revision. *)
Lemma first_computedStyle_ext (m m' : state) (sel prop : string) :
  shadowRoot m' = shadowRoot m →
  (∀ n, style_get prop (el_state (elements m') n) = style_get prop (el_state (elements m) n)) →
  ModalFirst.computedStyle sel prop m' = ModalFirst.computedStyle sel prop m.
Proof.
  intros Hsr Hst. unfold ModalFirst.computedStyle. rewrite Hsr.
  destruct (shadowRoot m ≫= queryHandle sel); [|done]. by rewrite Hst.
Qed.

Lemma first_presentation_ext (m m' : state) :
  shadowRoot m' = shadowRoot m →
  (∀ n q, style_get q (el_state (elements m') n) = style_get q (el_state (elements m) n)) →
  ModalFirst.presentation m' = ModalFirst.presentation m.
Proof.
  intros Hsr Hst. unfold ModalFirst.presentation.
  by rewrite !(first_computedStyle_ext m m') by done.
Qed.

Lemma first_computedStyle_template (m : state) (sel prop : string) (n : nat) :
  shadowRoot m = Some ModalFirst.template →
  queryHandle sel ModalFirst.template = Some n →
  ModalFirst.computedStyle sel prop m
  = let inline := style_get prop (el_state (elements m) n) in
    if String.eqb inline ""
    then default "" (assoc sel ModalFirst.stylesheet ≫= assoc (css_property prop))
    else inline.
Proof.
  intros Hsr Hq. unfold ModalFirst.computedStyle. rewrite Hsr. simpl. by rewrite Hq.
Qed.

Lemma first_presentation_after_writes (m : state) (v1 v2 : string) :
  shadowRoot m = Some ModalFirst.template → v1 ≠ "" → v2 ≠ "" →
  ModalFirst.presentation
    (m |> write_style 1 "opacity" v1 |> write_style 1 "pointerEvents" v2
       |> write_style 2 "opacity" v1 |> write_style 2 "pointerEvents" v2)
  = mkPresentation v1 v2 v1 v2.
Proof.
  intros Hsr H1 H2. unfold ModalFirst.presentation.
  rewrite !(first_computedStyle_template _ "#backdrop" _ 1) by done.
  rewrite !(first_computedStyle_template _ "#modal" _ 2) by done.
  cbv zeta. rewrite !write_style_get. decide_style_writes.
  apply String.eqb_neq in H1, H2. by rewrite H1, H2.
Qed.

Lemma first_presentation_on_listeners (c : nat) f (m : state) :
  ModalFirst.presentation (on_element c (with_listeners f) m) = ModalFirst.presentation m.
Proof.
  apply first_presentation_ext; [done|].
  intros n q. apply on_element_listeners_style.
Qed.

(** [connectedCallback] on the tree of the constructor. *)
Lemma first_connectedCallback_template (m : state) :
  shadowRoot m = Some ModalFirst.template →
  ModalFirst.connectedCallback m
  = m |> set_refs (Some 1) (Some 2) (Some 8) (Some 9)
      |> set_nextFn (S (nextFn m))
      |> on_element 8 (with_listeners (addEventListener "click" (Bound HideModal (nextFn m))))
      |> set_nextFn (S (S (nextFn m)))
      |> on_element 9
           (with_listeners (addEventListener "click" (Bound HideModal (S (nextFn m))))).
Proof. intros Hsr. unfold ModalFirst.connectedCallback. by rewrite Hsr. Qed.

Lemma first_attached_times_quiet (k : nat) (m m' : state) :
  quiet m m' → ModalFirst.attached_times k m → ModalFirst.attached_times k m'.
Proof.
  intros [(Eb & Ep & Ec & Ek & Esr & _ & _ & Enf) Hl] (Hsr & Hrefs & H8 & H9).
  split; [congruence|]. split.
  - destruct k; unfold refs_after, resolved in *; rewrite Eb, Ep, Ec, Ek; done.
  - by rewrite Enf, !Hl.
Qed.

Lemma first_attached_times_constructor : ModalFirst.attached_times 0 ModalFirst.constructor.
Proof. repeat split; constructor. Qed.

Lemma first_attached_times_connectedCallback (k : nat) (m : state) :
  ModalFirst.attached_times k m →
  ModalFirst.attached_times (S k) (ModalFirst.connectedCallback m).
Proof.
  intros (Hsr & _ & H8 & H9).
  rewrite first_connectedCallback_template by done.
  split; [done|]. split; [done|]. split.
  - unfold on_element; simpl. rewrite !el_state_insert; simpl.
    apply (bound_clicks_mono _ _ (S (nextFn m))); [lia|].
    by apply bound_clicks_add.
  - unfold on_element; simpl. rewrite !el_state_insert; simpl.
    apply bound_clicks_add. by apply (bound_clicks_mono _ _ (nextFn m)); [lia|].
Qed.

(** The listeners of the buttons are bound copies, the method itself is
    on no button: detaching takes nothing away. *)
Lemma first_quiet_disconnectedCallback (k : nat) (m : state) :
  ModalFirst.attached_times k m → quiet m (ModalFirst.disconnectedCallback m).
Proof.
  intros (Hsr & Hrefs & H8 & H9). unfold ModalFirst.disconnectedCallback.
  destruct k as [|k].
  - destruct Hrefs as (_ & _ & Hc & Hk). rewrite Hc, Hk. apply quiet_refl.
  - destruct Hrefs as (_ & _ & Hc & Hk). rewrite Hc. simpl. rewrite Hk.
    split; [by repeat split|]. intros n.
    rewrite on_element_remove_proto.
    + apply on_element_remove_proto. by eapply bound_clicks_not_proto.
    + rewrite on_element_remove_proto; by eapply bound_clicks_not_proto.
Qed.

Lemma first_attached_times_step (k : nat) (m : state) (a : Action) :
  ModalFirst.attached_times k m →
  ModalFirst.attached_times (if decide (a = Connect) then S k else k) (ModalFirst.step m a).
Proof.
  intros Hm. destruct a; simpl.
  - by apply first_attached_times_connectedCallback.
  - eapply first_attached_times_quiet; [by eapply first_quiet_disconnectedCallback|done].
  - unfold ModalFirst.setAttribute. case_bool_decide; [|done].
    eapply first_attached_times_quiet;
      [apply first_quiet_attributeChangedCallback|done].
  - unfold ModalFirst.removeAttribute. destruct (attributes m !! name); [|done].
    case_bool_decide; [|done].
    eapply first_attached_times_quiet;
      [apply first_quiet_attributeChangedCallback|done].
  - eapply first_attached_times_quiet; [apply first_quiet_click|done].
  - eapply first_attached_times_quiet; [apply first_quiet_click|done].
Qed.

Lemma first_run_snoc (acts : list Action) (a : Action) :
  ModalFirst.run (acts ++ [a]) = ModalFirst.step (ModalFirst.run acts) a.
Proof. unfold ModalFirst.run. by rewrite foldl_app. Qed.

Lemma first_attached_times_run (acts : list Action) :
  ModalFirst.attached_times (connects acts) (ModalFirst.run acts).
Proof.
  induction acts as [|a acts IH] using rev_ind.
  - apply first_attached_times_constructor.
  - rewrite first_run_snoc, connects_snoc. by apply first_attached_times_step.
Qed.

(** What is rendered follows the flag on every reached state. *)
Lemma first_consistent_show (k : nat) (m : state) :
  ModalFirst.attached_times k m → ModalFirst.consistent m →
  ModalFirst.consistent (ModalFirst.showModalHandler m).
Proof.
  intros (Hsr & Hrefs & _) Hm. unfold ModalFirst.showModalHandler.
  destruct k as [|k].
  - destruct Hrefs as (-> & _). done.
  - destruct Hrefs as (-> & -> & _). unfold ModalFirst.consistent.
    by rewrite (first_presentation_after_writes (set_isOpen true m)).
Qed.

Lemma first_consistent_hide (k : nat) (m : state) :
  ModalFirst.attached_times k m → ModalFirst.consistent m →
  ModalFirst.consistent (ModalFirst.hideModalHandler m).
Proof.
  intros (Hsr & Hrefs & _) Hm. unfold ModalFirst.hideModalHandler.
  destruct k as [|k].
  - destruct Hrefs as (-> & _). done.
  - destruct Hrefs as (-> & -> & _). unfold ModalFirst.consistent.
    by rewrite (first_presentation_after_writes (set_isOpen false m)).
Qed.

Lemma first_consistent_invoke (k : nat) (cb : Callback Method) (m : state) :
  ModalFirst.attached_times k m → ModalFirst.consistent m →
  ModalFirst.consistent (ModalFirst.invoke cb m).
Proof.
  intros Hk Hm. destruct cb as [| [] ?| |]; simpl; try done.
  - by eapply first_consistent_show.
  - by eapply first_consistent_hide.
Qed.

Lemma first_consistent_click (k : nat) (sel : string) (m : state) :
  ModalFirst.attached_times k m → ModalFirst.consistent m →
  ModalFirst.consistent (ModalFirst.click sel m).
Proof.
  intros Hk Hm. unfold ModalFirst.click, ModalFirst.fire.
  destruct (shadowRoot m ≫= queryHandle sel); [|done].
  generalize (listening "click" (listeners (el_state (elements m) n))).
  intros cbs. revert m Hk Hm.
  induction cbs as [|cb cbs IH]; intros m Hk Hm; simpl; [done|].
  apply IH.
  - eapply first_attached_times_quiet; [apply first_quiet_invoke|done].
  - by eapply first_consistent_invoke.
Qed.

Lemma first_consistent_attributeChangedCallback (k : nat) (name : string)
    (o v : JsValue) (m : state) :
  ModalFirst.attached_times k m → ModalFirst.consistent m →
  ModalFirst.consistent (ModalFirst.attributeChangedCallback name o v m).
Proof.
  intros Hk Hm. unfold ModalFirst.attributeChangedCallback.
  destruct (String.eqb name "open"); [|done].
  destruct (truthy v).
  - by eapply first_consistent_show.
  - by eapply first_consistent_hide.
Qed.

Lemma first_isOpen_connectedCallback (m : state) :
  isOpen (ModalFirst.connectedCallback m) = isOpen m ∧
  attributes (ModalFirst.connectedCallback m) = attributes m.
Proof. unfold ModalFirst.connectedCallback, bind. repeat (case_match; simpl); done. Qed.

Lemma first_isOpen_disconnectedCallback (m : state) :
  isOpen (ModalFirst.disconnectedCallback m) = isOpen m ∧
  attributes (ModalFirst.disconnectedCallback m) = attributes m.
Proof. unfold ModalFirst.disconnectedCallback. repeat (case_match; simpl); done. Qed.

Lemma first_consistent_step (k : nat) (m : state) (a : Action) :
  ModalFirst.attached_times k m → ModalFirst.consistent m →
  ModalFirst.consistent (ModalFirst.step m a).
Proof.
  intros Hk Hm. destruct a; simpl.
  - destruct Hk as (Hsr & _). unfold ModalFirst.consistent.
    rewrite (proj1 (first_isOpen_connectedCallback m)).
    rewrite first_connectedCallback_template by done.
    rewrite (first_presentation_ext m); [done|done|].
    intros n q. unfold on_element; simpl. rewrite !el_state_insert.
    by repeat case_decide; subst.
  - unfold ModalFirst.consistent.
    rewrite (proj1 (first_isOpen_disconnectedCallback m)).
    rewrite (first_presentation_ext m); [done| |].
    + unfold ModalFirst.disconnectedCallback. by repeat case_match.
    + intros n q. unfold ModalFirst.disconnectedCallback.
      repeat case_match; by rewrite ?on_element_listeners_style.
  - unfold ModalFirst.setAttribute. case_bool_decide; [|done].
    by apply (first_consistent_attributeChangedCallback k).
  - unfold ModalFirst.removeAttribute. destruct (attributes m !! name); [|done].
    case_bool_decide; [|done].
    by apply (first_consistent_attributeChangedCallback k).
  - by apply (first_consistent_click k).
  - by apply (first_consistent_click k).
Qed.

Lemma first_consistent_run (acts : list Action) :
  ModalFirst.consistent (ModalFirst.run acts).
Proof.
  induction acts as [|a acts IH] using rev_ind.
  - done.
  - rewrite first_run_snoc.
    by apply (first_consistent_step (connects acts)); [apply first_attached_times_run|].
Qed.

Lemma first_signals_step (m : state) (a : Action) :
  signals (ModalFirst.step m a) = signals m.
Proof.
  destruct a; simpl.
  - unfold ModalFirst.connectedCallback, bind. repeat (case_match; simpl); done.
  - unfold ModalFirst.disconnectedCallback. repeat (case_match; simpl); done.
  - unfold ModalFirst.setAttribute. case_bool_decide; [|done].
    by rewrite (proj2 (first_quiet_attributeChangedCallback _ _ _ _)).
  - unfold ModalFirst.removeAttribute. destruct (attributes m !! name); [|done].
    case_bool_decide; [|done].
    by rewrite (proj2 (first_quiet_attributeChangedCallback _ _ _ _)).
  - apply first_quiet_click.
  - apply first_quiet_click.
Qed.

(** A click on a button, in both revisions: it closes an attached modal
    and does nothing to an unattached one. *)
Lemma first_foldl_hide_isOpen (js : list nat) (m : state) :
  is_Some (backdropElement m) → is_Some (modalElement m) →
  isOpen (foldl (λ acc cb, ModalFirst.invoke cb acc) (ModalFirst.hideModalHandler m)
                (Bound HideModal <$> js)) = false.
Proof.
  revert m. induction js as [|j js IH]; intros m [b Hb] [p Hp]; simpl.
  - by rewrite first_isOpen_hide, Hb, Hp.
  - destruct (first_quiet_hide m) as [(Eb & Ep & _) _].
    apply IH; [rewrite Eb, Hb|rewrite Ep, Hp]; done.
Qed.

Lemma first_click_isOpen (k : nat) (sel : string) (m : state) :
  ModalFirst.attached_times k m →
  sel = "#cancel-button" ∨ sel = "#confirm-button" →
  isOpen (ModalFirst.click sel m) = match k with 0 => isOpen m | S _ => false end.
Proof.
  intros (Hsr & Hrefs & H8 & H9) Hsel.
  assert (∃ js, length js = k ∧
            ModalFirst.click sel m
            = foldl (λ acc cb, ModalFirst.invoke cb acc) m (Bound HideModal <$> js))
    as (js & Hlen & ->).
  { unfold ModalFirst.click, ModalFirst.fire. rewrite Hsr.
    destruct Hsel as [-> | ->]; simpl.
    - destruct (bound_clicks_listening _ _ _ _ H8) as (js & Hlen & ->). by exists js.
    - destruct (bound_clicks_listening _ _ _ _ H9) as (js & Hlen & ->). by exists js. }
  destruct k as [|k].
  - by destruct js.
  - destruct js as [|j js]; [done|]. simpl.
    destruct Hrefs as (Hb & Hp & _).
    apply first_foldl_hide_isOpen; [by rewrite Hb|by rewrite Hp].
Qed.

Lemma final_click_isOpen (k : nat) (sel : string) (m : state) :
  attached_times k m →
  sel = "#cancel-button" ∨ sel = "#confirm-button" →
  isOpen (click sel m) = match k with 0 => isOpen m | S _ => false end.
Proof.
  intros Hk Hsel.
  assert (∃ meth js, click_method meth ∧ length js = k ∧
            click sel m = foldl (λ acc cb, invoke cb acc) m (Bound meth <$> js))
    as (meth & js & Hmeth & Hlen & ->).
  { destruct Hsel as [-> | ->].
    - destruct (click_reached "#cancel-button" 8 CancelClick k m Hk) as (js & ? & ?);
        [by left|].
      exists CancelClick, js. by repeat split; [left|..].
    - destruct (click_reached "#confirm-button" 9 ConfirmClick k m Hk) as (js & ? & ?);
        [by right|].
      exists ConfirmClick, js. by repeat split; [right|..]. }
  destruct Hk as (_ & Hrefs & _).
  destruct k as [|k].
  - by destruct js.
  - destruct Hrefs as (Hb & Hp & _).
    apply foldl_click_closes; [done|by rewrite Hb|by rewrite Hp|by destruct js].
Qed.

(** A change of [open] in both revisions, for the values the platform
    passes (a string or [null]). *)
Lemma revisions_attributeChangedCallback (k : nat) (name : string) (o v : JsValue)
    (m1 m : state) :
  ModalFirst.attached_times k m1 → attached_times k m →
  isOpen m1 = isOpen m → strict_eq v (JBool (isOpen m)) = false →
  isOpen (ModalFirst.attributeChangedCallback name o v m1)
  = isOpen (attributeChangedCallback name o v m).
Proof.
  intros (_ & Hr1 & _) (_ & Hr & _) Ho Hv.
  unfold ModalFirst.attributeChangedCallback, attributeChangedCallback.
  destruct (String.eqb name "open"); [|done]. rewrite Hv.
  destruct (truthy v).
  - rewrite first_isOpen_show, final_isOpen_show.
    destruct k; [destruct Hr1 as (-> & _), Hr as (-> & _)
                |destruct Hr1 as (-> & -> & _), Hr as (-> & -> & _)]; done.
  - rewrite first_isOpen_hide, final_isOpen_hide.
    destruct k; [destruct Hr1 as (-> & _), Hr as (-> & _)
                |destruct Hr1 as (-> & -> & _), Hr as (-> & -> & _)]; done.
Qed.

Lemma revisions_attributes_attributeChangedCallback (name : string) (o v : JsValue)
    (m1 m : state) :
  attributes m1 = attributes m →
  attributes (ModalFirst.attributeChangedCallback name o v m1)
  = attributes (attributeChangedCallback name o v m).
Proof.
  intros Ha.
  destruct (first_quiet_attributeChangedCallback name o v m1)
    as [[(_ & _ & _ & _ & _ & -> & _) _] _].
  destruct (quiet_attributeChangedCallback name o v m)
    as [(_ & _ & _ & _ & _ & -> & _) _].
  done.
Qed.

Lemma revisions_step (k : nat) (m1 m : state) (a : Action) :
  ModalFirst.attached_times k m1 → attached_times k m →
  isOpen m1 = isOpen m → attributes m1 = attributes m →
  isOpen (ModalFirst.step m1 a) = isOpen (step m a) ∧
  attributes (ModalFirst.step m1 a) = attributes (step m a).
Proof.
  intros Hk1 Hk Ho Ha. destruct a; simpl.
  - destruct (first_isOpen_connectedCallback m1) as [-> ->].
    rewrite isOpen_connectedCallback.
    destruct Hk as (Hsr & _). by rewrite (connectedCallback_template m Hsr).
  - destruct (first_isOpen_disconnectedCallback m1) as [-> ->].
    rewrite isOpen_disconnectedCallback.
    by destruct (quiet_disconnectedCallback k m Hk) as [(_ & _ & _ & _ & _ & -> & _) _].
  - unfold ModalFirst.setAttribute, setAttribute. rewrite Ha.
    change ModalFirst.observedAttributes with observedAttributes.
    case_bool_decide; [|by simpl]. split.
    + by apply (revisions_attributeChangedCallback k).
    + by apply revisions_attributes_attributeChangedCallback.
  - unfold ModalFirst.removeAttribute, removeAttribute. rewrite Ha.
    destruct (attributes m !! name); [|done].
    change ModalFirst.observedAttributes with observedAttributes.
    case_bool_decide; [|by simpl]. split.
    + by apply (revisions_attributeChangedCallback k).
    + by apply revisions_attributes_attributeChangedCallback.
  - rewrite (first_click_isOpen k), (final_click_isOpen k) by auto.
    destruct (first_quiet_click "#cancel-button" m1)
      as [[(_ & _ & _ & _ & _ & -> & _) _] _].
    destruct (quiet_click "#cancel-button" m) as [(_ & _ & _ & _ & _ & -> & _) _].
    by destruct k.
  - rewrite (first_click_isOpen k), (final_click_isOpen k) by auto.
    destruct (first_quiet_click "#confirm-button" m1)
      as [[(_ & _ & _ & _ & _ & -> & _) _] _].
    destruct (quiet_click "#confirm-button" m) as [(_ & _ & _ & _ & _ & -> & _) _].
    by destruct k.
Qed.

Lemma revisions_run (acts : list Action) :
  isOpen (ModalFirst.run acts) = isOpen (run acts) ∧
  attributes (ModalFirst.run acts) = attributes (run acts).
Proof.
  induction acts as [|a acts [Ho Ha]] using rev_ind; [done|].
  rewrite first_run_snoc, run_snoc.
  apply (revisions_step (connects acts));
    [apply first_attached_times_run|apply attached_times_run|done..].
Qed.

Lemma first_signals_run (acts : list Action) : signals (ModalFirst.run acts) = [].
Proof.
  induction acts as [|a acts IH] using rev_ind; [done|].
  by rewrite first_run_snoc, first_signals_step.
Qed.

(** X15 (first revision of [Modal], modal.ts 1-205, against the last one):
    after any history of attachments, detachments, attribute changes and
    button clicks, the first revision has the same [isOpen] flag, the same
    attributes and the same rendered opacity and pointer events as the last
    revision after that history; and it has dispatched no event. *)
Theorem X15_modal_first_revision_agrees (acts : list Action) :
  isOpen (ModalFirst.run acts) = isOpen (run acts) ∧
  attributes (ModalFirst.run acts) = attributes (run acts) ∧
  ModalFirst.presentation (ModalFirst.run acts) = presentation (run acts) ∧
  signals (ModalFirst.run acts) = [].
Proof.
  destruct (revisions_run acts) as [Ho Ha].
  split; [done|]. split; [done|]. split; [|apply first_signals_run].
  destruct (consistent_run acts) as (_ & _ & _ & ->).
  rewrite (first_consistent_run acts). by rewrite Ho.
Qed.

(** X16 (first revision of [Modal], connectedCallback and
    disconnectedCallback): after any history each of the two buttons
    carries one bound [hideModalHandler] per attachment of the history,
    whatever the number of detachments; the references are resolved from
    the first attachment on. *)
Theorem X16_modal_first_revision_listeners (acts : list Action) :
  (∃ js, length js = connects acts ∧
         listening "click" (listeners (el_state (elements (ModalFirst.run acts)) 8))
         = Bound HideModal <$> js) ∧
  (∃ js, length js = connects acts ∧
         listening "click" (listeners (el_state (elements (ModalFirst.run acts)) 9))
         = Bound HideModal <$> js) ∧
  refs_after (connects acts) (ModalFirst.run acts).
Proof.
  destruct (first_attached_times_run acts) as (_ & Hrefs & H8 & H9).
  split; [by eapply bound_clicks_listening|].
  split; [by eapply bound_clicks_listening|done].
Qed.

End FirstRevision.

Section RenderHistories.
Import TooltipRender.

Lemma flag_sound_same (t t' : state) :
  Tooltip.shadowRoot (core t') = Tooltip.shadowRoot (core t) →
  Tooltip.nextNode (core t') = Tooltip.nextNode (core t) →
  Tooltip.containerElement (core t') = Tooltip.containerElement (core t) →
  visible t' = visible t →
  flag_sound t → flag_sound t'.
Proof.
  intros Hs Hn Hc Hv [Hwf Hflag]. split.
  - by eapply well_formed_same; [..|exact Hwf].
  - rewrite Hv. unfold on_top, Tooltip.stale in *. by rewrite Hs, Hc.
Qed.

Lemma flag_sound_constructor : flag_sound constructor.
Proof. split; [apply well_formed_constructor|by left]. Qed.

Lemma flag_sound_showTooltipHandler (t : state) :
  flag_sound t → flag_sound (showTooltipHandler t).1.
Proof.
  intros [Hwf _]. rewrite showTooltipHandler_core. simpl.
  split; [by apply well_formed_showTooltipHandler|]. simpl.
  destruct Hwf as (root & Hsr & Hall).
  exists (Tooltip.createContainer (Tooltip.nextNode (core t)) (Tooltip.text (core t))),
         (Tooltip.nextNode (core t)), root.
  unfold Tooltip.showTooltipHandler; simpl. rewrite Hsr. by repeat split.
Qed.

Lemma flag_sound_report (e : option DOMException) (t : state) :
  flag_sound t → flag_sound (report e t).
Proof. intros Ht. destruct e; [|done]. by eapply flag_sound_same; [..|exact Ht]. Qed.

Lemma flag_sound_hideTooltipHandler (t : state) :
  flag_sound t → flag_sound (hideTooltipHandler t).1.
Proof.
  intros [Hwf Hflag]. rewrite hideTooltipHandler_core.
  destruct (visible t).
  - destruct Hflag as (c & i & root & Hc & Hi & _ & Hsr & Hall).
    unfold Tooltip.hideTooltipHandler. rewrite Hc, Hsr.
    rewrite (removeChild_fresh i) by done. simpl.
    destruct Hwf as (root' & Hsr' & Hall'). rewrite Hsr in Hsr'. injection Hsr' as <-.
    apply Forall_app in Hall' as [Hall' _].
    split; [by exists root|]. right. by exists c, i, root.
  - destruct (Tooltip.hideTooltipHandler (core t)) as [k|e] eqn:Hh; simpl.
    + destruct Hflag as [Hnone|Hstale].
      * rewrite hideTooltipHandler_skip in Hh by auto. injection Hh as <-.
        split; [done|by left].
      * pose proof (hide_stale _ Hstale) as Hr.
        unfold Tooltip.hide_or_report in Hr. rewrite Hh in Hr. subst k.
        split; [by eapply well_formed_same; [..|exact Hwf]|]. by right.
    + by split.
Qed.

Lemma flag_sound_invoke (cb : Callback Tooltip.Method) (t : state) :
  flag_sound t → flag_sound (let '(t', e) := invoke cb t in report e t').
Proof.
  intros Ht. destruct cb as [| [] ?| |]; simpl; try done.
  - pose proof (flag_sound_showTooltipHandler t Ht) as H.
    destruct (showTooltipHandler t) as [t' e]. by apply flag_sound_report.
  - pose proof (flag_sound_hideTooltipHandler t Ht) as H.
    destruct (hideTooltipHandler t) as [t' e]. by apply flag_sound_report.
Qed.

Lemma flag_sound_pointer (type : string) (t : state) :
  flag_sound t → flag_sound (pointer type t).
Proof.
  intros Ht. unfold pointer, fire.
  destruct (Tooltip.shadowRoot (core t) ≫= queryHandle "span"); [|done].
  generalize (listening type (listeners (el_state (Tooltip.elements (core t)) n))).
  intros cbs. revert t Ht.
  induction cbs as [|cb cbs IH]; intros t Ht; simpl; [done|].
  by apply IH, flag_sound_invoke.
Qed.

Lemma flag_sound_attributeChangedCallback (name : string) (o v : JsValue) (t : state) :
  flag_sound t → flag_sound (attributeChangedCallback name o v t).
Proof.
  intros Ht. eapply flag_sound_same; [..|exact Ht]; simpl;
    solve [apply attributeChangedCallback_tree
          |apply container_attributeChangedCallback|done].
Qed.

Lemma flag_sound_step (t : state) (a : Tooltip.Action) :
  flag_sound t → flag_sound (step t a).
Proof.
  intros Ht. destruct a; simpl.
  - eapply flag_sound_same; [..|exact Ht]; simpl;
      solve [apply connectedCallback_tree|apply container_connectedCallback|done].
  - unfold disconnectedCallback. destruct (Tooltip.iconElement (core t)); [|done].
    by eapply flag_sound_same; [..|exact Ht].
  - unfold setAttribute. case_bool_decide.
    + apply flag_sound_attributeChangedCallback.
      by eapply flag_sound_same; [..|exact Ht].
    + by eapply flag_sound_same; [..|exact Ht].
  - destruct (Tooltip.attributes (core t) !! name); [|done].
    case_bool_decide.
    + apply flag_sound_attributeChangedCallback.
      by eapply flag_sound_same; [..|exact Ht].
    + by eapply flag_sound_same; [..|exact Ht].
  - by apply flag_sound_pointer.
  - by apply flag_sound_pointer.
Qed.

Lemma flag_sound_run (acts : list Tooltip.Action) : flag_sound (run acts).
Proof.
  unfold run. generalize flag_sound_constructor. generalize constructor.
  induction acts as [|a acts IH]; intros t Ht; simpl; [done|].
  by apply IH, flag_sound_step.
Qed.

(** X17 (the revision of [Tooltip] with [render()], part_001 118-305):
    after any history of attachments, detachments, attribute changes and
    pointer events, [visible] is set exactly when the container created
    last is a child of the shadow root. *)
Theorem X17_render_visible_iff_mounted (acts : list Tooltip.Action) :
  visible (run acts) = true ↔
  ∃ c, Tooltip.containerElement (core (run acts)) = Some c ∧ c ∈ mounted (run acts).
Proof.
  destruct (flag_sound_run acts) as [_ Hflag].
  unfold mounted, Tooltip.mounted. split.
  - intros Hv. rewrite Hv in Hflag.
    destruct Hflag as (c & i & root & Hc & _ & Htag & Hsr & _).
    exists c. split; [done|]. rewrite Hsr. simpl.
    apply list_elem_of_filter. split; [done|].
    apply elem_of_app. right. by apply list_elem_of_singleton.
  - intros (c & Hc & Hin). destruct (visible (run acts)); [done|].
    destruct Hflag as [Hnone|(c' & i & root & Hc' & Hi & Hsr & Hall)]; [congruence|].
    rewrite Hc in Hc'. injection Hc' as <-.
    rewrite Hsr in Hin. simpl in Hin. apply list_elem_of_filter in Hin as [_ Hin].
    rewrite Forall_forall in Hall. specialize (Hall c Hin).
    unfold Tooltip.older in Hall. rewrite Hi in Hall. lia.
Qed.

















End RenderHistories.

Section LightHistories.
Import TooltipLight.

Lemma fresh_id_older (ns : list Node) : Forall (Tooltip.older (fresh_id ns)) ns.
Proof.
  induction ns as [|n ns IH]; [done|]. simpl.
  apply Forall_cons_2.
  - unfold Tooltip.older. destruct (node_id n); [lia|done].
  - eapply Forall_impl; [exact IH|]. intros m Hm.
    eapply older_mono; [|exact Hm]. destruct (node_id n); lia.
Qed.

Lemma absent_older (c : Node) (i : nat) (ns : list Node) :
  node_id c = Some i → Forall (Tooltip.older i) ns → existsb (same_node c) ns = false.
Proof.
  intros Hi Hall. induction Hall as [|n ns Hn _ IH]; [done|]. simpl. rewrite IH.
  unfold same_node, Tooltip.older in *. rewrite Hi. destruct (node_id n) as [j|]; [|done].
  rewrite orb_false_r. apply Nat.eqb_neq. lia.
Qed.

Lemma settled_constructor (light : list Node) : settled light 0 (constructor light).
Proof.
  split; [exists []; by rewrite app_nil_r|].
  split; [apply fresh_id_older|].
  split; [by left|]. by repeat split.
Qed.

Lemma icon_listeners_mono (b b' : nat) (ls : list (Listener Tooltip.Method)) :
  (b ≤ b')%nat → icon_listeners b ls → icon_listeners b' ls.
Proof.
  intros Hb [->|(j & j' & Hj & Hj' & ->)]; [by left|].
  right. exists j, j'. split; [lia|]. split; [lia|done].
Qed.

Lemma settled_connectedCallback (light : list Node) (k : nat) (t : state) :
  settled light k t → settled light (S k) (connectedCallback t).
Proof.
  intros ((icons & Hch & Hlen & Hic) & Hold & Hls & Hfresh & Hrep & Hc).
  unfold connectedCallback. repeat split; simpl.
  - exists (icons ++ [icon (nextNode t)]). unfold appendChild.
    rewrite Hch, app_assoc. split; [done|].
    split; [rewrite length_app; simpl; lia|].
    apply Forall_app. split; [done|]. apply Forall_singleton. by eexists.
  - unfold appendChild. apply Forall_app. split.
    + eapply Forall_impl; [exact Hold|]. intros n. apply older_mono. lia.
    + apply Forall_singleton. unfold Tooltip.older. simpl. lia.
  - intros n. rewrite el_state_insert. case_decide as Hn.
    + simpl. rewrite (Hfresh (nextNode t)) by lia. right.
      exists (nextFn t), (S (nextFn t)). split; [lia|]. split; [lia|].
      unfold addEventListener.
      rewrite (bool_decide_eq_false_2 (_ ∈ [])) by apply not_elem_of_nil.
      rewrite bool_decide_eq_false_2; [done|].
      simpl. by intros [=]%list_elem_of_singleton.
    + eapply icon_listeners_mono; [|apply Hls]. lia.
  - intros n Hn. rewrite el_state_insert. rewrite decide_False by lia.
    apply Hfresh. lia.
  - done.
  - destruct (Hc c H) as (Habs & i & Hi & Hlt).
    unfold appendChild. rewrite existsb_app, Habs. simpl.
    unfold same_node. rewrite Hi. simpl. rewrite orb_false_r.
    apply Nat.eqb_neq. lia.
  - destruct (Hc c H) as (_ & i & Hi & Hlt). exists i. split; [done|lia].
Qed.

Lemma settled_disconnectedCallback (light : list Node) (k : nat) (t : state) :
  settled light k t → settled light k (disconnectedCallback t).
Proof.
  intros (Hicons & Hold & Hls & Hfresh & Hrep & Hc).
  unfold disconnectedCallback.
  destruct (tooltipIcon t) as [i|]; [|repeat (split; [done|]); done].
  assert (∀ n,
    listeners (el_state
      (<[i := el_state (elements t) i
              |> with_listeners (removeEventListener "mouseenter"
                                   (Bound Tooltip.ShowTooltip (nextFn t)))
              |> with_listeners (removeEventListener "mouseleave"
                                   (Bound Tooltip.HideTooltip (S (nextFn t))))]>
         (elements t)) n)
    = listeners (el_state (elements t) n)) as Hsame.
  { intros n. rewrite el_state_insert. case_decide as Hn; [subst n|done]. simpl.
    assert (Forall (λ l, ∃ meth j, l_callback l = Bound meth j ∧ j < nextFn t)
                   (listeners (el_state (elements t) i))) as Hall.
    { destruct (Hls i) as [->|(j & j' & Hj & Hj' & ->)]; [done|].
      apply Forall_cons_2; [by eexists _, _|].
      apply Forall_cons_2; [by eexists _, _|done]. }
    rewrite (removeEventListener_other "mouseenter").
    - apply removeEventListener_other.
      eapply Forall_impl; [exact Hall|]. intros l (meth & j & -> & Hj) [= _ ->]. lia.
    - eapply Forall_impl; [exact Hall|]. intros l (meth & j & -> & Hj) [= _ ->]. lia. }
  repeat split; simpl; try done.
  - intros n. rewrite Hsame. eapply icon_listeners_mono; [|apply Hls]. lia.
  - intros n Hn. rewrite Hsame. by apply Hfresh.
  - by destruct (Hc c H).
  - by destruct (Hc c H).
Qed.

(** The pointer moves onto an element and away from it. *)
Lemma settled_hover (light : list Node) (k n : nat) (t : state) :
  settled light k t →
  settled light k (fire "mouseleave" n (fire "mouseenter" n t)).
Proof.
  intros (Hicons & Hold & Hls & Hfresh & Hrep & Hc).
  unfold fire at 2.
  destruct (Hls n) as [Hnone|(j & j' & Hj & Hj' & Hpair)].
  - rewrite Hnone. simpl. unfold fire. rewrite Hnone. simpl.
    repeat (split; [done|]); done.
  - rewrite Hpair. simpl. unfold fire. simpl. rewrite Hpair. simpl.
    unfold hideTooltipHandler, showTooltipHandler, appendChild. simpl.
    rewrite (removeChild_fresh (nextNode t)) by done.
    split; [done|]. split; [|split; [done|]; split; [|split; [done|]]]; simpl.
    + eapply Forall_impl; [exact Hold|]. intros m. apply older_mono. lia.
    + intros m Hm. apply Hfresh. lia.
    + intros c [= <-]. split; [by apply (absent_older _ (nextNode t))|].
      exists (nextNode t). split; [done|lia].
Qed.

Lemma attaches_snoc (gs : list Gesture) (g : Gesture) :
  attaches (gs ++ [g]) = if decide (g = Attach) then S (attaches gs) else attaches gs.
Proof.
  unfold attaches. rewrite filter_app, length_app.
  case_decide.
  - rewrite filter_cons_True by done. simpl. lia.
  - rewrite filter_cons_False by done. simpl. lia.
Qed.

Lemma settled_play (light : list Node) (gs : list Gesture) :
  settled light (attaches gs) (play light gs).
Proof.
  induction gs as [|g gs IH] using rev_ind; [apply settled_constructor|].
  unfold play, run in *. rewrite bind_app, foldl_app, attaches_snoc. simpl.
  rewrite app_nil_r. destruct g; simpl.
  - by apply settled_connectedCallback.
  - by apply settled_disconnectedCallback.
  - by apply settled_hover.
Qed.

(** X19 (the [Tooltip] revision on the host's own children, part_001
    30-117): after any sequence of attachments, detachments and hovers (the
    pointer enters an element and leaves it), the host's children are its
    own followed by one icon per attachment, no container is left among
    them, and no listener has thrown. *)
Theorem X19_light_tooltip_gestures (light : list Node) (gs : list Gesture) :
  (∃ icons, children (play light gs) = light ++ icons ∧
            length icons = attaches gs ∧
            Forall (λ n, ∃ i, n = icon i) icons) ∧
  reported (play light gs) = [] ∧
  (∀ c, tooltipContainer (play light gs) = Some c →
        existsb (same_node c) (children (play light gs)) = false).
Proof.
  destruct (settled_play light gs) as (Hicons & _ & _ & _ & Hrep & Hc).
  split; [done|]. split; [done|]. intros c Hcc. by destruct (Hc c Hcc).
Qed.

End LightHistories.
